(** * Twitter to ActivityStreams conversion: a shallow embedding of [twitter.py]

    The conversion functions of the [Twitter] source class
    ([user_to_actor], [tweet_to_object], [tweet_to_activity],
    [retweet_to_object], [rfc2822_to_iso8601], [user_url], [status_url])
    are embedded as Rocq functions over decoded JSON values.  A Python
    [dict] is a [gmap string json]; a Python exception is the [Raise]
    branch of the [result] monad; the regular expressions and the
    [strptime] layout used by the module are run by a small backtracking
    matcher with Python's search order.  The methods that fetch
    ([get_activities], [get_actor], [get_comment], [get_share],
    [get_like]) run in a monad that records the requests made, over a
    network that is a parameter. *)

From Stdlib Require Import ZArith Lia Ascii String DecimalString.
From Stdlib Require Import DecimalFacts DecimalNat.
From Stdlib Require Import PrimFloat SpecFloat FloatOps.
From stdpp Require Import gmap strings list fin_maps.

#[local] Set Warnings "-register-all".
#[local] Open Scope string_scope.
#[local] Open Scope Z_scope.

(** ** Exceptions and the result monad *)

Inductive exn : Set :=
| AttributeError
| TypeError
| IndexError
| KeyError
| ValueError
| OverflowError.

Inductive result (A : Type) : Type :=
| Ok (a : A)
| Raise (e : exn).
Arguments Ok {A} a.
Arguments Raise {A} e.

#[global] Instance result_ret : MRet result := fun _ a => Ok a.
#[global] Instance result_bind : MBind result := fun _ _ f m =>
  match m with
  | Ok a => f a
  | Raise e => Raise e
  end.

Definition is_Ok {A} (r : result A) : Prop := exists a, r = Ok a.

(** ** Decoded JSON values

    What [json.loads] returns in Python 2: [None], [bool], [int]/[long]
    (unbounded, hence [Z]), [float] (IEEE binary64), [unicode], [list] and
    [dict] with string keys.  A string is a Stdlib [string], one [ascii]
    per character. *)

Inductive json : Type :=
| JNull
| JBool (b : bool)
| JInt (z : Z)
| JFloat (f : float)
| JStr (s : string)
| JList (l : list json)
| JDict (m : gmap string json).

(** The size of a value, the measure behind induction on nested values. *)
Fixpoint json_size (v : json) : nat :=
  match v with
  | JList l => S (foldr (fun x n => json_size x + n)%nat 0%nat l)
  | JDict m => S (map_fold (fun _ x n => json_size x + n)%nat 0%nat m)
  | _ => 1%nat
  end.

(** ** Python primitives on JSON values *)

(** [bool(v)]: the truth value tested by [if v:] and [not v]. *)
Definition truthy (v : json) : bool :=
  match v with
  | JNull => false
  | JBool b => b
  | JInt z => negb (z =? 0)
  | JFloat f => negb (PrimFloat.eqb f PrimFloat.zero)
  | JStr s => negb (String.eqb s "")
  | JList l => match l with [] => false | _ => true end
  | JDict m => negb (bool_decide (m = ∅))
  end.

(** [o.get(k, d)]: only a dict has a [get] attribute. *)
Definition py_get (o : json) (k : string) (d : json) : result json :=
  match o with
  | JDict m => Ok (default d (m !! k))
  | _ => Raise AttributeError
  end.

(** The one-character strings of a string, as iteration yields them. *)
Fixpoint chars (s : string) : list json :=
  match s with
  | EmptyString => []
  | String c s' => JStr (String c EmptyString) :: chars s'
  end.

(** [o[i]] for the two indices the module uses, [0] and [1].  A dict of
    decoded JSON has string keys only, so an integer subscript is a
    [KeyError]. *)
Definition py_getitem (o : json) (i : nat) : result json :=
  match o with
  | JList l => match l !! i with Some x => Ok x | None => Raise IndexError end
  | JStr s => match chars s !! i with Some x => Ok x | None => Raise IndexError end
  | JDict _ => Raise KeyError
  | _ => Raise TypeError
  end.

(** [iter(o)], as consumed by a [for] loop or by [tuple(o)].  A dict
    yields its keys, in the enumeration order of the map (Python 2 leaves
    that order unspecified). *)
Definition py_iter (o : json) : result (list json) :=
  match o with
  | JList l => Ok l
  | JStr s => Ok (chars s)
  | JDict m => Ok (JStr <$> (map_to_list m).*1)
  | _ => Raise TypeError
  end.

(** [float(z)] for an integer: round to nearest even, [OverflowError]
    beyond the binary64 range. *)
Definition float_of_Z (z : Z) : result float :=
  match binary_normalize prec emax z 0 false with
  | S754_infinity _ => Raise OverflowError
  | sf => Ok (SF2Prim sf)
  end.

(** The numeric tower of [a - b]: [bool] is a subclass of [int]; a
    [float] operand makes the result a [float]. *)
Inductive pynum : Set :=
| NInt (z : Z)
| NFloat (f : float).

Definition to_num (v : json) : option pynum :=
  match v with
  | JBool b => Some (NInt (if b then 1 else 0))
  | JInt z => Some (NInt z)
  | JFloat f => Some (NFloat f)
  | _ => None
  end.

Definition py_sub (a b : json) : result json :=
  match to_num a, to_num b with
  | Some (NInt x), Some (NInt y) => Ok (JInt (x - y))
  | Some (NFloat x), Some (NFloat y) => Ok (JFloat (PrimFloat.sub x y))
  | Some (NInt x), Some (NFloat y) =>
      x' ← float_of_Z x; Ok (JFloat (PrimFloat.sub x' y))
  | Some (NFloat x), Some (NInt y) =>
      y' ← float_of_Z y; Ok (JFloat (PrimFloat.sub x y'))
  | _, _ => Raise TypeError
  end.

(** ['literal' + v]: concatenation needs a string on the right. *)
Definition py_concat (prefix : string) (v : json) : result json :=
  match v with
  | JStr s => Ok (JStr (prefix +:+ s))
  | _ => Raise TypeError
  end.

(** [d.update(new)] on a value: the new bindings win. *)
Definition py_update (d : json) (new : gmap string json) : result json :=
  match d with
  | JDict m => Ok (JDict (new ∪ m))
  | _ => Raise AttributeError
  end.

Definition string_of_Z (z : Z) : string := NilZero.string_of_int (Z.to_int z).

(** ** Regular expressions

    The patterns of the module, and the pattern [strptime] builds from its
    layout, use literals, character classes, ordered alternation, greedy
    repetition of one character class and capture groups.  [re_match] is
    a backtracking matcher in continuation-passing style: alternatives
    are tried left to right, a repetition takes as many characters as it
    can and gives them back one at a time, and the first complete match
    wins, which is the order Python's [re] explores. *)

Inductive regex : Type :=
| REps
| RChar (p : ascii -> bool)
| RSeq (r1 r2 : regex)
| RAlt (r1 r2 : regex)
| RStar (p : ascii -> bool)
| RGroup (i : nat) (r : regex).

(** What a group captured: the text between the place the group was
    entered and the place it was left. *)
Definition consumed (s rest : string) : string :=
  substring 0 (String.length s - String.length rest) s.

Section Matcher.
Context {A : Type}.

Fixpoint star_match (p : ascii -> bool) (k : string -> gmap nat string -> option A)
    (s : string) (g : gmap nat string) : option A :=
  match s with
  | String c s' =>
      if p c then
        match star_match p k s' g with
        | Some a => Some a
        | None => k s g
        end
      else k s g
  | EmptyString => k s g
  end.

Fixpoint re_match (r : regex) (k : string -> gmap nat string -> option A)
    (s : string) (g : gmap nat string) : option A :=
  match r with
  | REps => k s g
  | RChar p =>
      match s with
      | String c s' => if p c then k s' g else None
      | EmptyString => None
      end
  | RSeq r1 r2 => re_match r1 (re_match r2 k) s g
  | RAlt r1 r2 =>
      match re_match r1 k s g with
      | Some a => Some a
      | None => re_match r2 k s g
      end
  | RStar p => star_match p k s g
  | RGroup i r1 => re_match r1 (fun s' g' => k s' (<[i := consumed s s']> g')) s g
  end.
End Matcher.

(** [pattern.match(s)]: a match anchored at the start; the result is the
    unmatched rest and the groups. *)
Definition re_match_prefix (r : regex) (s : string) : option (string * gmap nat string) :=
  re_match r (fun rest g => Some (rest, g)) s ∅.

(** [re.search(pattern, s)]: the leftmost start position that matches. *)
Fixpoint re_search (r : regex) (s : string) : option (gmap nat string) :=
  match re_match_prefix r s with
  | Some (_, g) => Some g
  | None =>
      match s with
      | String _ s' => re_search r s'
      | EmptyString => None
      end
  end.

(** [re.sub(pattern, repl, s)] for a pattern that matches no empty
    string: matches are taken left to right without overlap; [skip]
    counts the characters of the current match still to be dropped. *)
Fixpoint re_sub_from (r : regex) (repl : string) (skip : nat) (s : string) : string :=
  match s with
  | EmptyString => EmptyString
  | String c s' =>
      match skip with
      | S n => re_sub_from r repl n s'
      | O =>
          match re_match_prefix r s with
          | Some (rest, _) =>
              match (String.length s - String.length rest)%nat with
              | S n => repl +:+ re_sub_from r repl n s'
              | O => String c (re_sub_from r repl 0 s')
              end
          | None => String c (re_sub_from r repl 0 s')
          end
      end
  end.

Definition re_sub (r : regex) (repl : string) (s : string) : string :=
  re_sub_from r repl 0 s.

(** Pattern building blocks. *)

Definition is_digit (c : ascii) : bool :=
  (48 <=? nat_of_ascii c)%nat && (nat_of_ascii c <=? 57)%nat.

(** [\s] without the UNICODE flag: space, tab, newline, return, form
    feed, vertical tab. *)
Definition is_space (c : ascii) : bool :=
  let n := nat_of_ascii c in
  (n =? 32)%nat || ((9 <=? n)%nat && (n <=? 13)%nat).

(** [.] : any character but a newline. *)
Definition newline : ascii := "010"%char.
Definition not_newline (c : ascii) : bool := negb (Ascii.eqb c newline).

Definition in_range (lo hi : ascii) (c : ascii) : bool :=
  (nat_of_ascii lo <=? nat_of_ascii c)%nat && (nat_of_ascii c <=? nat_of_ascii hi)%nat.

(** Case folding of IGNORECASE: ASCII letters only. *)
Definition to_lower (c : ascii) : ascii :=
  if in_range "A" "Z" c then ascii_of_nat (nat_of_ascii c + 32) else c.

Fixpoint lower (s : string) : string :=
  match s with
  | EmptyString => EmptyString
  | String c s' => String (to_lower c) (lower s')
  end.

Definition chr (c : ascii) : regex := RChar (Ascii.eqb c).
Definition chr_ci (c : ascii) : regex := RChar (fun x => Ascii.eqb (to_lower x) c).

Fixpoint lit (s : string) : regex :=
  match s with
  | EmptyString => REps
  | String c s' => RSeq (chr c) (lit s')
  end.

Fixpoint lit_ci (s : string) : regex :=
  match s with
  | EmptyString => REps
  | String c s' => RSeq (chr_ci c) (lit_ci s')
  end.

Definition many1 (p : ascii -> bool) : regex := RSeq (RChar p) (RStar p).

Fixpoint seqs (rs : list regex) : regex :=
  match rs with
  | [] => REps
  | [r] => r
  | r :: rs' => RSeq r (seqs rs')
  end.

Fixpoint alts (r : regex) (rs : list regex) : regex :=
  match rs with
  | [] => r
  | r' :: rs' => RAlt r (alts r' rs')
  end.

Definition digit : regex := RChar is_digit.
Definition range (lo hi : ascii) : regex := RChar (in_range lo hi).

(** [' [+-][0-9]{4} '], the UTC-offset token of [rfc2822_to_iso8601]. *)
Definition utc_offset_re : regex :=
  seqs [chr " "; RChar (fun c => Ascii.eqb c "+" || Ascii.eqb c "-");
        digit; digit; digit; digit; chr " "].

(** The double-quote character. *)
Definition dquote : ascii := "034"%char.

(** The generator pattern of [tweet_to_activity]: the literal [<a href=]
    and a double quote, group 1 [[^Q]+] (Q the double quote), a double
    quote, [.*], [>], group 2 [(.+)], the literal [</a>]. *)
Definition anchor_re : regex :=
  seqs [lit "<a href="; chr dquote;
        RGroup 1 (many1 (fun c => negb (Ascii.eqb c dquote)));
        chr dquote; RStar not_newline; chr ">"; RGroup 2 (many1 not_newline);
        lit "</a>"].

(** ** Timestamps: [datetime.strptime] and [isoformat]

    [strptime(s, '%a %b %d %H:%M:%S %Y')] compiles its layout into a
    pattern (each directive a named group, each run of blanks [\s+], the
    names of the C locale, IGNORECASE), matches it at the start of [s],
    refuses text left over, and builds the date from the groups. *)

Definition a_weekday : list string := ["mon"; "tue"; "wed"; "thu"; "fri"; "sat"; "sun"].
Definition a_month : list string :=
  ["jan"; "feb"; "mar"; "apr"; "may"; "jun"; "jul"; "aug"; "sep"; "oct"; "nov"; "dec"].

Definition seq_to_re (names : list string) : regex :=
  match names with
  | [] => REps
  | n :: ns => alts (lit_ci n) (lit_ci <$> ns)
  end.

(** Groups: 1 = [%a], 2 = [%b], 3 = [%d], 4 = [%H], 5 = [%M], 6 = [%S],
    7 = [%Y]. *)
Definition strptime_re : regex :=
  seqs [RGroup 1 (seq_to_re a_weekday); many1 is_space;
        RGroup 2 (seq_to_re a_month); many1 is_space;
        RGroup 3 (alts (RSeq (chr "3") (range "0" "1"))
                    [RSeq (range "1" "2") digit; RSeq (chr "0") (range "1" "9");
                     range "1" "9"; RSeq (chr " ") (range "1" "9")]);
        many1 is_space;
        RGroup 4 (alts (RSeq (chr "2") (range "0" "3"))
                    [RSeq (range "0" "1") digit; digit]);
        chr ":";
        RGroup 5 (alts (RSeq (range "0" "5") digit) [digit]);
        chr ":";
        RGroup 6 (alts (RSeq (chr "6") (range "0" "1"))
                    [RSeq (range "0" "5") digit; digit]);
        many1 is_space;
        RGroup 7 (seqs [digit; digit; digit; digit])].

Record datetime : Set := mkDatetime {
  year : nat; month : nat; day : nat; hour : nat; minute : nat; second : nat }.

(** [int(text)] on a group of decimal digits; surrounding blanks are
    skipped, as [int] does. *)
Fixpoint int_of_digits (acc : nat) (s : string) : nat :=
  match s with
  | EmptyString => acc
  | String c s' =>
      if is_digit c then int_of_digits (10 * acc + (nat_of_ascii c - 48)) s'
      else int_of_digits acc s'
  end.

Definition py_int (s : string) : nat := int_of_digits 0 s.

(** [names.index(x)], counted from 1. *)
Fixpoint index_from (i : nat) (x : string) (names : list string) : option nat :=
  match names with
  | [] => None
  | n :: ns => if String.eqb x n then Some i else index_from (S i) x ns
  end.

Definition is_leap (y : nat) : bool :=
  ((y mod 4 =? 0) && (negb (y mod 100 =? 0) || (y mod 400 =? 0)))%nat.

Definition days_in_month (y m : nat) : nat :=
  match m with
  | 2 => if is_leap y then 29 else 28
  | 4 | 6 | 9 | 11 => 30
  | _ => 31
  end%nat.

(** The checks of the [date] and [datetime] constructors: a year from 1
    to 9999, a day of the month that exists, a second below 60. *)
Definition valid_datetime (dt : datetime) : bool :=
  ((1 <=? year dt) && (Z.of_nat (year dt) <=? 9999)%Z &&
   (1 <=? month dt) && (month dt <=? 12) &&
   (1 <=? day dt) && (day dt <=? days_in_month (year dt) (month dt)) &&
   (hour dt <=? 23) && (minute dt <=? 59) && (second dt <=? 59))%nat.

Definition group (g : gmap nat string) (i : nat) : string := default "" (g !! i).

Definition strptime (s : string) : result datetime :=
  match re_match_prefix strptime_re s with
  | None => Raise ValueError
  | Some (rest, g) =>
      if negb (String.eqb rest "") then Raise ValueError
      else
        let dt := {| year := py_int (group g 7);
                     month := default 0%nat (index_from 1 (lower (group g 2)) a_month);
                     day := py_int (group g 3);
                     hour := py_int (group g 4);
                     minute := py_int (group g 5);
                     second := py_int (group g 6) |} in
        if valid_datetime dt then Ok dt else Raise ValueError
  end.

(** [%0wd]: a number in decimal, padded with zeros to [w] digits. *)
Definition string_of_nat (n : nat) : string := NilZero.string_of_uint (Nat.to_uint n).

Fixpoint zeros (n : nat) : string :=
  match n with
  | O => EmptyString
  | S n' => String "0" (zeros n')
  end.

Definition pad (w n : nat) : string :=
  let d := string_of_nat n in zeros (w - String.length d) +:+ d.

(** [dt.isoformat()] of a naive datetime without microseconds. *)
Definition isoformat (dt : datetime) : string :=
  pad 4 (year dt) +:+ "-" +:+ pad 2 (month dt) +:+ "-" +:+ pad 2 (day dt) +:+ "T" +:+
  pad 2 (hour dt) +:+ ":" +:+ pad 2 (minute dt) +:+ ":" +:+ pad 2 (second dt).

(** [Twitter.rfc2822_to_iso8601]. *)
Definition rfc2822_to_iso8601 (time_str : json) : result json :=
  if negb (truthy time_str) then Ok JNull
  else
    match time_str with
    | JStr s =>
        let without_timezone := re_sub utc_offset_re " " s in
        dt ← strptime without_timezone;
        Ok (JStr (isoformat dt))
    | _ => Raise TypeError
    end.

(** ** Trimming

    [util.trim_nulls] belongs to the [webutil] package, which is not part
    of [twitter.py]. *)

Definition is_null (v : json) : bool :=
  match v with
  | JNull => true
  | JStr s => String.eqb s ""
  | JList l => match l with [] => true | _ => false end
  | JDict m => bool_decide (m = ∅)
  | _ => false
  end.

(** Modelled from the spec: [util.trim_nulls] is missing from the sources;
    the glossary describes it as the recursive stripping of any mapping or
    list entry whose value is null, the empty string, an empty list or an
    empty mapping.  Entries are trimmed first and dropped when what is left
    of them is empty. *)
Fixpoint trim_nulls (v : json) : json :=
  match v with
  | JDict m =>
      JDict (omap (fun x => let x' := trim_nulls x in
                            if is_null x' then None else Some x') m)
  | JList l => JList (filter (fun x => is_null x = false) (trim_nulls <$> l))
  | _ => v
  end.

(** Modelled from the spec: [Source.postprocess_activity] is defined in
    [source.py], which is missing from the sources; the spec gives the
    activity conversion no step after the generator field, and its glossary
    makes trimming the final step of every conversion. *)
Definition postprocess_activity (activity : json) : result json :=
  Ok (trim_nulls activity).

(** ** The conversions *)

(** [Source.tag_uri] is a method of the base class [source.Source], defined
    in [source.py], outside [twitter.py]: the tag URI of a name is a
    parameter of the development. *)
Class Source := { tag_uri : json -> string }.

(** [str(v)] of a float, a list or a dict goes through Python's [repr];
    that rendering is a parameter as well. *)
Class PyRepr := { py_repr : json -> string }.

Section Twitter.
Context {src : Source} {rp : PyRepr}.

(** ['%s' % v]. *)
Definition py_str (v : json) : string :=
  match v with
  | JNull => "None"
  | JBool true => "True"
  | JBool false => "False"
  | JInt z => string_of_Z z
  | JStr s => s
  | _ => py_repr v
  end.

Definition DOMAIN : string := "twitter.com".

(** [Twitter.user_url]: ['http://%s/%s' % (cls.DOMAIN, username)]. *)
Definition user_url (username : json) : string :=
  "http://" +:+ DOMAIN +:+ "/" +:+ py_str username.

(** [Twitter.status_url]: ['%s/status/%s' % (cls.user_url(username), id)]. *)
Definition status_url (username id : json) : string :=
  user_url username +:+ "/status/" +:+ py_str id.

(** [Twitter.user_to_actor]. *)
Definition user_to_actor (user : json) : result json :=
  username ← py_get user "screen_name" JNull;
  if negb (truthy username) then Ok (JDict ∅)
  else
    name ← py_get user "name" JNull;
    profile_image_url ← py_get user "profile_image_url" JNull;
    created_at ← py_get user "created_at" JNull;
    published ← rfc2822_to_iso8601 created_at;
    location ← py_get user "location" JNull;
    description ← py_get user "description" JNull;
    Ok (trim_nulls (JDict {[
      "displayName" := name;
      "image" := JDict {[ "url" := profile_image_url ]};
      "id" := (if truthy username then JStr (tag_uri username) else JNull);
      "published" := published;
      "url" := JStr (user_url username);
      "location" := JDict {[ "displayName" := location ]};
      "username" := username;
      "description" := description ]})).

(** The three kinds of entity tags built by [tweet_to_object]. *)
Definition mention_tag (t : json) : result (gmap string json) :=
  screen_name ← py_get t "screen_name" JNull;
  name ← py_get t "name" JNull;
  indices ← py_get t "indices" JNull;
  Ok {[ "objectType" := JStr "person";
        "id" := JStr (tag_uri screen_name);
        "url" := JStr (user_url screen_name);
        "displayName" := name;
        "indices" := indices ]}.

Definition hashtag_tag (t : json) : result (gmap string json) :=
  text ← py_get t "text" JNull;
  url ← py_concat "https://twitter.com/search?q=%23" text;
  indices ← py_get t "indices" JNull;
  Ok {[ "objectType" := JStr "hashtag";
        "url" := url;
        "indices" := indices ]}.

Definition url_tag (t : json) : result (gmap string json) :=
  expanded_url ← py_get t "expanded_url" JNull;
  indices ← py_get t "indices" JNull;
  Ok {[ "objectType" := JStr "article";
        "url" := expanded_url;
        "indices" := indices ]}.

(** The body of the loop over [object['tags']]: the span is rewritten
    into [startIndex] and [length], and [indices] is deleted. *)
Definition rewrite_span (t : gmap string json) : result (gmap string json) :=
  let indices := default JNull (t !! "indices") in
  if truthy indices then
    start ← py_getitem indices 0;
    stop ← py_getitem indices 1;
    start' ← py_getitem indices 0;
    len ← py_sub stop start';
    Ok (delete "indices" ({[ "startIndex" := start; "length" := len ]} ∪ t))
  else Ok t.

(** [[tag(t) for t in entities.get(key, [])]]. *)
Definition entity_tags (tag : json -> result (gmap string json))
    (entities : json) (key : string) : result (list (gmap string json)) :=
  ents ← py_get entities key (JList []);
  ts ← py_iter ents;
  mapM tag ts.

(** ['https://maps.google.com/maps?q=%s,%s' % tuple(coords)]: the format
    takes exactly two arguments. *)
Definition maps_url (coords : json) : result string :=
  cs ← py_iter coords;
  match cs with
  | [lat; lon] => Ok ("https://maps.google.com/maps?q=" +:+ py_str lat +:+ "," +:+ py_str lon)
  | _ => Raise TypeError
  end.

(** [Twitter.tweet_to_object], with the list
    [[self.retweet_to_object(r) for r in tweet.get('retweets', [])]]
    supplied as [shares]; [tweet_to_object] below ties the recursion. *)
Definition tweet_to_object_with (shares : result (list json)) (tweet : json) : result json :=
  id ← py_get tweet "id_str" JNull;
  if negb (truthy id) then Ok (JDict ∅)
  else
    created_at ← py_get tweet "created_at" JNull;
    published ← rfc2822_to_iso8601 created_at;
    text ← py_get tweet "text" JNull;
    let object : gmap string json :=
      {[ "objectType" := JStr "note";
         "published" := published;
         "content" := text;
         "attachments" := JList [] ]} in
    user ← py_get tweet "user" JNull;
    object ← (if truthy user then
                author ← user_to_actor user;
                let object := <["author" := author]> object in
                username ← py_get author "username" JNull;
                if truthy username then
                  Ok (<["url" := JStr (status_url username id)]>
                        (<["id" := JStr (tag_uri id)]> object))
                else Ok object
              else Ok object);
    entities ← py_get tweet "entities" (JDict ∅);
    media ← py_get entities "media" (JList [JDict ∅]);
    media0 ← py_getitem media 0;
    media_url ← py_get media0 "media_url" JNull;
    let object :=
      if truthy media_url then
        <["attachments" := JList [JDict {[ "objectType" := JStr "image";
                                           "image" := JDict {[ "url" := media_url ]} ]}]]>
          (<["image" := JDict {[ "url" := media_url ]}]> object)
      else object in
    mentions ← entity_tags mention_tag entities "user_mentions";
    hashtags ← entity_tags hashtag_tag entities "hashtags";
    urls ← entity_tags url_tag entities "urls";
    tags ← mapM rewrite_span (mentions ++ hashtags ++ urls);
    retweets ← shares;
    let object := <["tags" := JList ((JDict <$> tags) ++ retweets)]> object in
    place ← py_get tweet "place" JNull;
    object ← (if truthy place then
                full_name ← py_get place "full_name" JNull;
                place_id ← py_get place "id" JNull;
                let location : gmap string json :=
                  {[ "displayName" := full_name; "id" := place_id ]} in
                geo ← py_get tweet "geo" JNull;
                location ← (if truthy geo then
                              coords ← py_get geo "coordinates" JNull;
                              if truthy coords then
                                url ← maps_url coords;
                                Ok (<["url" := JStr url]> location)
                              else Ok location
                            else Ok location);
                Ok (<["location" := JDict location]> object)
              else Ok object);
    Ok (trim_nulls (JDict object)).

(** [Twitter.retweet_to_object], with the result of
    [self.tweet_to_object(retweet)] supplied as [converted]. *)
Definition retweet_to_object_with (converted : result json) (retweet : json) : result json :=
  orig ← py_get retweet "retweeted_status" JNull;
  if negb (truthy orig) then Ok JNull
  else
    share ← converted;
    user ← py_get orig "user" (JDict ∅);
    screen_name ← py_get user "screen_name" JNull;
    id_str ← py_get orig "id_str" JNull;
    py_update share
      {[ "objectType" := JStr "activity";
         "verb" := JStr "share";
         "object" := JDict {[ "url" := JStr (status_url screen_name id_str) ]};
         "content" := JStr "retweeted this." ]}.

(** The retweets attached to a tweet are converted by recursion on the
    nested value.  A value under ['retweets'] that is not a list yields
    strings when iterated (characters or keys), and [retweet_to_object]
    fails on a string before it converts anything. *)
Definition convert_retweets (convert : json -> result json) (retweets : json) : result (list json) :=
  match retweets with
  | JList rs => mapM (fun r => retweet_to_object_with (convert r) r) rs
  | _ => rs ← py_iter retweets;
         mapM (retweet_to_object_with (Raise AttributeError)) rs
  end.

Fixpoint tweet_to_object (tweet : json) : result json :=
  tweet_to_object_with
    (match tweet with
     | JDict m => default (Ok []) ((convert_retweets tweet_to_object <$> m) !! "retweets")
     | _ => Raise AttributeError
     end)
    tweet.

Definition retweet_to_object (retweet : json) : result json :=
  retweet_to_object_with (tweet_to_object retweet) retweet.

(** The groups of a successful [re.search], as [parsed.groups()]. *)
Definition search_groups (r : regex) (v : json) : result (option (string * string)) :=
  match v with
  | JStr s =>
      Ok (match re_search r s with
          | Some g => Some (group g 1, group g 2)
          | None => None
          end)
  | _ => Raise TypeError
  end.

(** The two optional fields of an activity: [if reply_to_id and
    reply_to_screenname: activity['context'] = ...] and [if parsed:
    activity['generator'] = ...]. *)
Definition set_context (reply_to_id reply_to_screenname : json)
    (activity : gmap string json) : gmap string json :=
  if truthy reply_to_id && truthy reply_to_screenname then
    <["context" := JDict {[ "inReplyTo" := JList [JDict {[
         "objectType" := JStr "note";
         "id" := JStr (tag_uri reply_to_id);
         "url" := JStr (status_url reply_to_screenname reply_to_id) ]}] ]}]> activity
  else activity.

Definition set_generator (parsed : option (string * string))
    (activity : gmap string json) : gmap string json :=
  match parsed with
  | Some (url, name) =>
      <["generator" := JDict {[ "displayName" := JStr name; "url" := JStr url ]}]> activity
  | None => activity
  end.

(** The activity dict of [Twitter.tweet_to_activity], as it stands when
    it is handed to [postprocess_activity]. *)
Definition tweet_to_activity_dict (tweet : json) : result (gmap string json) :=
  object ← tweet_to_object tweet;
  published ← py_get object "published" JNull;
  id ← py_get object "id" JNull;
  url ← py_get object "url" JNull;
  author ← py_get object "author" JNull;
  let activity : gmap string json :=
    {[ "verb" := JStr "post";
       "published" := published;
       "id" := id;
       "url" := url;
       "actor" := author;
       "object" := object ]} in
  reply_to_screenname ← py_get tweet "in_reply_to_screen_name" JNull;
  reply_to_id ← py_get tweet "in_reply_to_status_id" JNull;
  let activity := set_context reply_to_id reply_to_screenname activity in
  source ← py_get tweet "source" (JStr "");
  parsed ← search_groups anchor_re source;
  Ok (set_generator parsed activity).

(** [Twitter.tweet_to_activity]. *)
Definition tweet_to_activity (tweet : json) : result json :=
  activity ← tweet_to_activity_dict tweet;
  postprocess_activity (JDict activity).

End Twitter.

(** ** The steps of [tweet_to_object]

    The blocks of [tweet_to_object], one after the other, each as a step
    on the object under construction. *)

Section Steps.
Context {src : Source} {rp : PyRepr}.

(** [user = tweet.get('user'); if user: ...]. *)
Definition author_step (tweet id : json) (object : gmap string json) :
    result (gmap string json) :=
  user ← py_get tweet "user" JNull;
  if truthy user then
    author ← user_to_actor user;
    let object := <["author" := author]> object in
    username ← py_get author "username" JNull;
    if truthy username then
      Ok (<["url" := JStr (status_url username id)]>
            (<["id" := JStr (tag_uri id)]> object))
    else Ok object
  else Ok object.

(** [media_url = entities.get('media', [{}])[0].get('media_url'); if
    media_url: ...]. *)
Definition media_step (entities : json) (object : gmap string json) :
    result (gmap string json) :=
  media ← py_get entities "media" (JList [JDict ∅]);
  media0 ← py_getitem media 0;
  media_url ← py_get media0 "media_url" JNull;
  Ok (if truthy media_url then
        <["attachments" := JList [JDict {[ "objectType" := JStr "image";
                                           "image" := JDict {[ "url" := media_url ]} ]}]]>
          (<["image" := JDict {[ "url" := media_url ]}]> object)
      else object).

(** The tags, the loop over them, and the retweets. *)
Definition tags_step (shares : result (list json)) (entities : json)
    (object : gmap string json) : result (gmap string json) :=
  mentions ← entity_tags mention_tag entities "user_mentions";
  hashtags ← entity_tags hashtag_tag entities "hashtags";
  urls ← entity_tags url_tag entities "urls";
  tags ← mapM rewrite_span (mentions ++ hashtags ++ urls);
  retweets ← shares;
  Ok (<["tags" := JList ((JDict <$> tags) ++ retweets)]> object).

(** [place = tweet.get('place'); if place: ...]. *)
Definition location_step (tweet : json) (object : gmap string json) :
    result (gmap string json) :=
  place ← py_get tweet "place" JNull;
  if truthy place then
    full_name ← py_get place "full_name" JNull;
    place_id ← py_get place "id" JNull;
    let location : gmap string json :=
      {[ "displayName" := full_name; "id" := place_id ]} in
    geo ← py_get tweet "geo" JNull;
    location ← (if truthy geo then
                  coords ← py_get geo "coordinates" JNull;
                  if truthy coords then
                    url ← maps_url coords;
                    Ok (<["url" := JStr url]> location)
                  else Ok location
                else Ok location);
    Ok (<["location" := JDict location]> object)
  else Ok object.

End Steps.

(** ** The fetcher

    [Twitter.urlread] signs a request and reads the reply from the
    network, and every caller decodes the reply with [json.loads].  The
    network is a parameter: the decoded reply to a request, given the
    requests made before it, or the failure of the request (whatever
    [urllib2], the OAuth layer or [json.loads] raise).  A computation that
    fetches takes the requests made so far and returns its outcome with
    the requests made since added at the end. *)

Class Network := {
  failure : Type;
  reply : list string -> string -> failure + json }.

Inductive outcome {net : Network} (A : Type) : Type :=
| Returned (a : A)
| Raised (e : exn)
| Failed (f : failure).
Arguments Returned {net A} a.
Arguments Raised {net A} e.
Arguments Failed {net A} f.

Record io {net : Network} (A : Type) : Type :=
  IO { run : list string -> outcome A * list string }.
Arguments IO {net A} run.
Arguments run {net A} _ _.

#[global] Instance io_ret {net : Network} : MRet io :=
  fun _ a => IO (fun h => (Returned a, h)).
#[global] Instance io_bind {net : Network} : MBind io := fun _ _ f m =>
  IO (fun h =>
        match run m h with
        | (Returned a, h') => run (f a) h'
        | (Raised e, h') => (Raised e, h')
        | (Failed x, h') => (Failed x, h')
        end).

(** A conversion run inside a fetching computation. *)
Definition lift {net : Network} {A} (r : result A) : io A :=
  IO (fun h => (match r with Ok a => Returned a | Raise e => Raised e end, h)).

(** [json.loads(self.urlread(url))]. *)
Definition urlread_json {net : Network} (url : string) : io json :=
  IO (fun h => (match reply h url with inl f => Failed f | inr v => Returned v end,
                (h ++ [url])%list)).

(** The URL templates of the module; [%d] and [%s] are filled in by the
    callers, with [string_of_Z] and [py_str]. *)
Definition API_TIMELINE_URL (count : Z) : string :=
  "https://api.twitter.com/1.1/statuses/home_timeline.json?include_entities=true&count="
  +:+ string_of_Z count.
Definition API_SELF_TIMELINE_URL (count : Z) : string :=
  "https://api.twitter.com/1.1/statuses/user_timeline.json?include_entities=true&count="
  +:+ string_of_Z count.
Definition API_STATUS_URL (id : string) : string :=
  "https://api.twitter.com/1.1/statuses/show.json?id=" +:+ id +:+ "&include_entities=true".
Definition API_RETWEETS_URL (id : string) : string :=
  "https://api.twitter.com/1.1/statuses/retweets.json?id=" +:+ id.
Definition API_USER_URL (screen_name : string) : string :=
  "https://api.twitter.com/1.1/users/lookup.json?screen_name=" +:+ screen_name.
Definition API_CURRENT_USER_URL : string :=
  "https://api.twitter.com/1.1/account/verify_credentials.json".

(** [o[k]] for a string key: [KeyError] when a dict lacks the key; a
    list or a string takes no string index, and a scalar takes none. *)
Definition py_getkey (o : json) (k : string) : result json :=
  match o with
  | JDict m => match m !! k with Some v => Ok v | None => Raise KeyError end
  | _ => Raise TypeError
  end.

(** [o[start:]]: a list or a string is sliced, a negative start counts
    from the end; a dict or a scalar cannot be sliced. *)
Definition slice_start (start : Z) (len : nat) : nat :=
  if (start <? 0)%Z then Z.to_nat (Z.max 0 (Z.of_nat len + start)) else Z.to_nat start.

Fixpoint drop_string (n : nat) (s : string) : string :=
  match n, s with
  | S n', String _ s' => drop_string n' s'
  | _, _ => s
  end.

Definition py_slice_from (o : json) (start : Z) : result json :=
  match o with
  | JList l => Ok (JList (drop (slice_start start (length l)) l))
  | JStr s => Ok (JStr (drop_string (slice_start start (String.length s)) s))
  | _ => Raise TypeError
  end.

(** [v >= 1] in Python 2: numbers compare by value, [None] is below every
    number, and a string, a list or a dict is above every number. *)
Definition py_ge_1 (v : json) : bool :=
  match v with
  | JNull => false
  | JBool b => b
  | JInt z => (1 <=? z)%Z
  | JFloat f => PrimFloat.leb PrimFloat.one f
  | _ => true
  end.

Section Fetcher.
Context {src : Source} {rp : PyRepr} {net : Network}.

(** [group_id == source.SELF]: the constant is defined in [source.py],
    outside [twitter.py]; the test is a parameter. *)
Variable is_SELF : json -> bool.

(** [Twitter.get_actor]. *)
Definition get_actor (screen_name : json) : io json :=
  let url := match screen_name with
             | JNull => API_CURRENT_USER_URL
             | _ => API_USER_URL (py_str screen_name)
             end in
  user ← urlread_json url;
  lift (user_to_actor user).

(** The body of the [fetch_shares] loop: the retweets of a tweet that is
    not a retweet and has retweets are fetched and stored in its
    ['retweets'] field.  The two [get] calls of the test have no effect
    and fail together, so both are run before the test. *)
Definition fetch_retweets (tweet : json) : io json :=
  retweeted ← lift (py_get tweet "retweeted" JNull);
  retweet_count ← lift (py_get tweet "retweet_count" (JInt 0));
  if negb (truthy retweeted) && py_ge_1 retweet_count then
    id_str ← lift (py_getkey tweet "id_str");
    retweets ← urlread_json (API_RETWEETS_URL (py_str id_str));
    match tweet with
    | JDict m => mret (JDict (<["retweets" := retweets]> m))
    | _ => lift (Raise TypeError)
    end
  else mret tweet.

(** [Twitter.get_activities]; the method does not use [user_id],
    [app_id] and [fetch_likes]. *)
Definition get_activities (user_id group_id app_id activity_id : json)
    (start_index count : Z) (fetch_likes fetch_shares : bool) :
    io (option Z * list json) :=
  '(total_count, tweets) ←
     (if truthy activity_id then
        tweet ← urlread_json (API_STATUS_URL (py_str activity_id));
        mret (Some 1, [tweet])
      else
        let url := if is_SELF group_id then API_SELF_TIMELINE_URL else API_TIMELINE_URL in
        let twitter_count := count + start_index in
        tweets ← urlread_json (url twitter_count);
        tweets ← lift (py_slice_from tweets start_index);
        tweets ← lift (py_iter tweets);
        mret (None, tweets));
  tweets ← (if fetch_shares then mapM fetch_retweets tweets else mret tweets);
  activities ← lift (mapM tweet_to_activity tweets);
  mret (total_count, activities).

(** [Twitter.get_comment]. *)
Definition get_comment (comment_id activity_id : json) : io json :=
  tweet ← urlread_json (API_STATUS_URL (py_str comment_id));
  lift (tweet_to_object tweet).

(** [Twitter.get_like]. *)
Definition get_like (activity_user_id activity_id like_user_id : json) : io json :=
  mret JNull.

(** [Twitter.get_share]. *)
Definition get_share (activity_user_id activity_id share_id : json) : io json :=
  tweet ← urlread_json (API_STATUS_URL (py_str share_id));
  lift (retweet_to_object tweet).

End Fetcher.

(** ** Vocabulary of the properties *)

(** The entry kept for a value of a mapping: the trimmed value, unless
    nothing is left of it. *)
Definition trim_entry (x : json) : option json :=
  let x' := trim_nulls x in if is_null x' then None else Some x'.

(** [trimmed v]: no mapping inside [v] has a key whose value is null,
    the empty string, an empty list or an empty mapping, and no list
    inside [v] has such an item, at any depth. *)
Inductive trimmed : json -> Prop :=
| trimmed_null : trimmed JNull
| trimmed_bool b : trimmed (JBool b)
| trimmed_int z : trimmed (JInt z)
| trimmed_float f : trimmed (JFloat f)
| trimmed_str s : trimmed (JStr s)
| trimmed_list l :
    Forall (fun x => is_null x = false /\ trimmed x) l -> trimmed (JList l)
| trimmed_dict m :
    map_Forall (fun _ x => is_null x = false /\ trimmed x) m -> trimmed (JDict m).

(** [matches r w g g']: the pattern [r] matches exactly the text [w],
    and turns the captured groups [g] into [g']. *)
Inductive matches : regex -> string -> gmap nat string -> gmap nat string -> Prop :=
| matches_eps g : matches REps "" g g
| matches_char p c g : p c = true -> matches (RChar p) (String c "") g g
| matches_seq r1 r2 w1 w2 g g1 g2 :
    matches r1 w1 g g1 -> matches r2 w2 g1 g2 -> matches (RSeq r1 r2) (w1 +:+ w2) g g2
| matches_alt_l r1 r2 w g g' : matches r1 w g g' -> matches (RAlt r1 r2) w g g'
| matches_alt_r r1 r2 w g g' : matches r2 w g g' -> matches (RAlt r1 r2) w g g'
| matches_star_nil p g : matches (RStar p) "" g g
| matches_star_cons p c w g :
    p c = true -> matches (RStar p) w g g -> matches (RStar p) (String c w) g g
| matches_group i r w g g' : matches r w g g' -> matches (RGroup i r) w g (<[i := w]> g').

Fixpoint all_chars (p : ascii -> bool) (s : string) : bool :=
  match s with
  | EmptyString => true
  | String c s' => p c && all_chars p s'
  end.

(** The character [c] does not occur in [s]. *)
Definition no_char (c : ascii) (s : string) : bool :=
  all_chars (fun x => negb (Ascii.eqb x c)) s.

(** The text [<a href=Q url Q attrs>name</a>], with [Q] the double
    quote: an anchor with a link, whatever follows the link inside the
    tag, and a name. *)
Definition anchor_text (url attrs name : string) : string :=
  "<a href=" +:+ String dquote (url +:+ String dquote (attrs +:+ String ">" (name +:+ "</a>"))).

(** [s] reads as [pre], a text that the generator pattern matches, and
    [post]: [[^Q]+] takes [url], [.*] takes [attrs], [(.+)] takes [name]. *)
Definition anchor_at (s pre url attrs name post : string) : Prop :=
  s = pre +:+ anchor_text url attrs name +:+ post /\
  url <> "" /\ no_char dquote url = true /\
  no_char newline attrs = true /\
  name <> "" /\ no_char newline name = true.

(** [s] contains a text that the generator pattern matches with [url]
    as first and [name] as second group. *)
Definition anchor_in (s url name : string) : Prop :=
  exists pre attrs post : string, anchor_at s pre url attrs name post.

(** The reading that [re.search] reports, among all the ways to read an
    anchor in [s]: the one that starts first; at that start, the one
    with the longest [.*]; with that, the one with the longest name. *)
Definition first_anchor (s url name : string) : Prop :=
  exists pre attrs post : string,
    anchor_at s pre url attrs name post /\
    forall pre' url' attrs' name' post' : string,
      anchor_at s pre' url' attrs' name' post' ->
      (String.length pre <= String.length pre')%nat /\
      (pre' = pre ->
       (String.length attrs' <= String.length attrs)%nat /\
       (attrs' = attrs -> (String.length name' <= String.length name)%nat)).

(** The rest of the generator pattern after [.*]. *)
Definition anchor_tail : regex := seqs [chr ">"; RGroup 2 (many1 not_newline); lit "</a>"].

(** The entities listed under [key]: what the comprehension iterates. *)
Definition entity_list (entities : gmap string json) (key : string) : list json :=
  match py_iter (default (JList []) (entities !! key)) with
  | Ok l => l
  | Raise _ => []
  end.

(** One of the three tag builders made [t] out of the entity [x]. *)
Definition tag_of {src : Source} {rp : PyRepr} (x : json) (t : gmap string json) : Prop :=
  mention_tag x = Ok t \/ hashtag_tag x = Ok t \/ url_tag x = Ok t.

(** The fields [retweet_to_object] writes over the converted wrapper. *)
Definition share_fields {rp : PyRepr} (screen_name id_str : json) : gmap string json :=
  {[ "objectType" := JStr "activity";
     "verb" := JStr "share";
     "object" := JDict {[ "url" := JStr (status_url screen_name id_str) ]};
     "content" := JStr "retweeted this." ]}.

(** A string field of a record, as a conversion carries it over: the
    value under [k], wrapped by [wrap], when it is a non-empty string;
    nothing when the record has no [k]. *)
Definition carries (record : gmap string json) (k : string) (wrap : json -> json)
    (out : option json) : Prop :=
  (forall v : string, record !! k = Some (JStr v) -> v <> "" -> out = Some (wrap (JStr v))) /\
  (record !! k = None -> out = None).




(** The outcome of converting the reply to a request. *)
Definition converted {net : Network} {A} (convert : json -> result A)
    (r : failure + json) : outcome A :=
  match r with
  | inl f => Failed f
  | inr v => match convert v with Ok a => Returned a | Raise e => Raised e end
  end.

(** [m] only adds requests to those made before it, and when its outcome
    is the failure of a request, that request is the last one it made. *)
Definition stops_at_failure {net : Network} {A} (m : io A) : Prop :=
  forall (h h' : list string) (out : outcome A),
    run m h = (out, h') ->
    h `prefix_of` h' /\
    forall f : failure, out = Failed f ->
      exists (h0 : list string) (url : string),
        h' = (h0 ++ [url])%list /\ h `prefix_of` h0 /\ reply h0 url = inl f.

(** ** Timestamps as Twitter writes them *)

(** The names [strftime] writes for [%a] and [%b] in the C locale. *)
Definition weekday_names : list string := ["Mon"; "Tue"; "Wed"; "Thu"; "Fri"; "Sat"; "Sun"].
Definition month_names : list string :=
  ["Jan"; "Feb"; "Mar"; "Apr"; "May"; "Jun"; "Jul"; "Aug"; "Sep"; "Oct"; "Nov"; "Dec"].

Definition month_name (m : nat) : string := nth (m - 1) month_names "".

(** The date and the time of day of a timestamp, in the layout
    [%a %b %d %H:%M:%S]. *)
Definition twitter_date (weekday : string) (dt : datetime) : string :=
  weekday +:+ " " +:+ month_name (month dt) +:+ " " +:+ pad 2 (day dt) +:+ " " +:+
  pad 2 (hour dt) +:+ ":" +:+ pad 2 (minute dt) +:+ ":" +:+ pad 2 (second dt).

(** The timestamp of Twitter, [%a %b %d %H:%M:%S <offset> %Y], as in
    ['Wed May 23 06:01:13 +0000 2007']. *)
Definition twitter_time (weekday offset : string) (dt : datetime) : string :=
  twitter_date weekday dt +:+ " " +:+ offset +:+ " " +:+ pad 4 (year dt).

(** An offset: a sign and four digits. *)
Definition is_offset (offset : string) : Prop :=
  exists sign d1 d2 d3 d4 : ascii,
    offset = String sign (String d1 (String d2 (String d3 (String d4 "")))) /\
    (sign = "+"%char \/ sign = "-"%char) /\
    is_digit d1 = true /\ is_digit d2 = true /\ is_digit d3 = true /\ is_digit d4 = true.

(** The patterns of the numeric directives of [strptime_re]. *)
Definition day_re : regex :=
  alts (RSeq (chr "3") (range "0" "1"))
    [RSeq (range "1" "2") digit; RSeq (chr "0") (range "1" "9");
     range "1" "9"; RSeq (chr " ") (range "1" "9")].
Definition hour_re : regex :=
  alts (RSeq (chr "2") (range "0" "3")) [RSeq (range "0" "1") digit; digit].
Definition minute_re : regex := alts (RSeq (range "0" "5") digit) [digit].
Definition second_re : regex :=
  alts (RSeq (chr "6") (range "0" "1")) [RSeq (range "0" "5") digit; digit].
Definition year_re : regex := seqs [digit; digit; digit; digit].

(** [wins r w]: on a text that starts with [w], the pattern [r] takes
    [w] first: whatever follows [r] in a pattern, if it accepts the text
    after [w], the match succeeds there with its result. *)
Definition wins (r : regex) (w : string) : Prop :=
  forall (A : Type) (k : string -> gmap nat string -> option A) (rest : string)
         (g : gmap nat string) (a : A),
    k rest g = Some a -> re_match r k (w +:+ rest) g = Some a.

Definition not_sign (c : ascii) : bool := negb (Ascii.eqb c "+" || Ascii.eqb c "-").

Definition starts_with (p : ascii -> bool) (s : string) : bool :=
  match s with
  | String c _ => p c
  | EmptyString => false
  end.

(** ** Sample parameters and records

    An instance of the two parameters, and the records on which the
    conversions are run below. *)

Definition sample_repr : PyRepr := {| py_repr := fun _ => "?" |}.
Definition sample_source : Source :=
  {| tag_uri := fun name => "tag:twitter.com:" +:+ @py_str sample_repr name |}.

(** The generator string of the spec's example. *)
Definition sample_generator : string :=
  "<a href=" +:+ String dquote "http://x.io/app" +:+ String dquote ">MyApp</a>".

Definition sample_user : gmap string json :=
  {[ "screen_name" := JStr "alice"; "name" := JStr "Alice" ]}.

Definition sample_orig : gmap string json :=
  {[ "id_str" := JStr "42"; "user" := JDict sample_user ]}.

Definition sample_retweet : gmap string json :=
  {[ "id_str" := JStr "101";
     "user" := JDict {[ "screen_name" := JStr "carol" ]};
     "retweeted_status" := JDict sample_orig ]}.

Definition sample_mention : gmap string json :=
  {[ "screen_name" := JStr "bob"; "indices" := JList [JInt 6; JInt 10] ]}.

Definition sample_entities : gmap string json :=
  {[ "user_mentions" := JList [JDict sample_mention];
     "hashtags" := JList [JDict {[ "text" := JStr "x";
                                   "indices" := JList [JInt 11; JInt 13] ]}] ]}.

Definition sample_tweet : gmap string json :=
  {[ "id_str" := JStr "42";
     "text" := JStr "hello @bob #x";
     "created_at" := JStr "Wed May 23 06:01:13 +0000 2007";
     "user" := JDict sample_user;
     "source" := JStr sample_generator;
     "in_reply_to_status_id" := JInt 7;
     "in_reply_to_screen_name" := JStr "bob";
     "entities" := JDict sample_entities;
     "retweets" := JList [JDict sample_retweet] ]}.

(** What the conversions make of these records. *)

Definition sample_actor : gmap string json :=
  {[ "displayName" := JStr "Alice";
     "id" := JStr "tag:twitter.com:alice";
     "url" := JStr "http://twitter.com/alice";
     "username" := JStr "alice" ]}.

Definition sample_share : json :=
  JDict {[ "objectType" := JStr "activity";
           "verb" := JStr "share";
           "content" := JStr "retweeted this.";
           "object" := JDict {[ "url" := JStr "http://twitter.com/alice/status/42" ]};
           "author" := JDict {[ "id" := JStr "tag:twitter.com:carol";
                                "url" := JStr "http://twitter.com/carol";
                                "username" := JStr "carol" ]};
           "id" := JStr "tag:twitter.com:101";
           "url" := JStr "http://twitter.com/carol/status/101" ]}.

Definition sample_object : gmap string json :=
  {[ "objectType" := JStr "note";
     "published" := JStr "2007-05-23T06:01:13";
     "content" := JStr "hello @bob #x";
     "author" := JDict sample_actor;
     "id" := JStr "tag:twitter.com:42";
     "url" := JStr "http://twitter.com/alice/status/42";
     "tags" := JList [
        JDict {[ "objectType" := JStr "person";
                 "id" := JStr "tag:twitter.com:bob";
                 "url" := JStr "http://twitter.com/bob";
                 "startIndex" := JInt 6;
                 "length" := JInt 4 ]};
        JDict {[ "objectType" := JStr "hashtag";
                 "url" := JStr "https://twitter.com/search?q=%23x";
                 "startIndex" := JInt 11;
                 "length" := JInt 2 ]};
        sample_share ] ]}.

Definition sample_activity : gmap string json :=
  {[ "verb" := JStr "post";
     "published" := JStr "2007-05-23T06:01:13";
     "id" := JStr "tag:twitter.com:42";
     "url" := JStr "http://twitter.com/alice/status/42";
     "actor" := JDict sample_actor;
     "object" := JDict sample_object;
     "context" := JDict {[ "inReplyTo" := JList [JDict {[
        "objectType" := JStr "note";
        "id" := JStr "tag:twitter.com:7";
        "url" := JStr "http://twitter.com/bob/status/7" ]}] ]};
     "generator" := JDict {[ "displayName" := JStr "MyApp";
                             "url" := JStr "http://x.io/app" ]} ]}.

(** A generator string with text around an anchor that has a [rel]
    attribute after the link, as the anchors that Twitter sends have. *)
Definition sample_client : string :=
  "via <a href=" +:+ String dquote "http://twitter.com" +:+ String dquote " rel=" +:+
  String dquote "nofollow" +:+ String dquote ">Twitter Web Client</a>!".

Definition sample_client_tweet : gmap string json :=
  <["source" := JStr sample_client]> sample_tweet.

Definition sample_client_activity : gmap string json :=
  <["generator" := JDict {[ "displayName" := JStr "Twitter Web Client";
                            "url" := JStr "http://twitter.com" ]}]> sample_activity.

(** A generator string with two anchors. *)
Definition sample_links : string :=
  "<a href=" +:+ String dquote "http://a.io" +:+ String dquote ">A</a> or <a href=" +:+
  String dquote "http://b.io" +:+ String dquote ">B</a>".

Definition sample_links_tweet : gmap string json :=
  <["source" := JStr sample_links]> sample_tweet.

Definition sample_links_activity : gmap string json :=
  <["generator" := JDict {[ "displayName" := JStr "B";
                            "url" := JStr "http://a.io" ]}]> sample_activity.

(** A generator string without anchor. *)
Definition sample_plain_tweet : gmap string json :=
  <["source" := JStr "web"]> sample_tweet.

Definition sample_plain_activity : gmap string json :=
  delete "generator" sample_activity.

(** A tweet with two photos, a link, a place and coordinates, and its
    object. *)
Definition sample_photo_entities : gmap string json :=
  {[ "media" := JList [JDict {[ "media_url" := JStr "http://p.io/1.jpg" ]};
                       JDict {[ "media_url" := JStr "http://p.io/2.jpg" ]}];
     "urls" := JList [JDict {[ "expanded_url" := JStr "http://x.io/";
                               "indices" := JList [JInt 0; JInt 4] ]}] ]}.

Definition sample_place : gmap string json :=
  {[ "full_name" := JStr "Paris"; "id" := JStr "p1" ]}.

Definition sample_photo_tweet : gmap string json :=
  {[ "id_str" := JStr "9";
     "text" := JStr "look";
     "entities" := JDict sample_photo_entities;
     "place" := JDict sample_place;
     "geo" := JDict {[ "coordinates" := JList [JInt 48; JInt 2] ]} ]}.

Definition sample_photo_object : gmap string json :=
  {[ "objectType" := JStr "note";
     "content" := JStr "look";
     "image" := JDict {[ "url" := JStr "http://p.io/1.jpg" ]};
     "attachments" := JList [JDict {[ "objectType" := JStr "image";
                                      "image" := JDict {[ "url" := JStr "http://p.io/1.jpg" ]} ]}];
     "tags" := JList [JDict {[ "objectType" := JStr "article";
                               "url" := JStr "http://x.io/";
                               "startIndex" := JInt 0;
                               "length" := JInt 4 ]}];
     "location" := JDict {[ "displayName" := JStr "Paris";
                            "id" := JStr "p1";
                            "url" := JStr "https://maps.google.com/maps?q=48,2" ]} ]}.

(** Two tweets that do not convert: one with an empty media list, one
    with a hashtag without text. *)
Definition sample_empty_media : gmap string json := {[ "media" := JList [] ]}.
Definition sample_empty_media_tweet : gmap string json :=
  {[ "id_str" := JStr "1"; "entities" := JDict sample_empty_media ]}.

Definition sample_bad_hashtags : gmap string json := {[ "hashtags" := JList [JDict ∅] ]}.
Definition sample_bad_hashtag_tweet : gmap string json :=
  {[ "id_str" := JStr "1"; "entities" := JDict sample_bad_hashtags ]}.

(** A network that serves one page of the home timeline, the retweets
    of the tweet 7 and the status 42, and fails every other request. *)
Definition sample_page : list json :=
  [JDict {[ "text" := JStr "skipped" ]};
   JDict {[ "id_str" := JStr "7"; "retweet_count" := JInt 3 ]};
   JDict {[ "text" := JStr "hi"; "retweeted" := JBool true; "retweet_count" := JInt 9 ]}].

Definition sample_network : Network :=
  {| failure := string;
     reply := fun _ url =>
       if String.eqb url (API_TIMELINE_URL 3) then inr (JList sample_page)
       else if String.eqb url (API_RETWEETS_URL "7") then inr (JList [JDict sample_retweet])
       else if String.eqb url (API_STATUS_URL "42") then inr (JDict sample_tweet)
       else inl "404" |}.

Definition sample_is_SELF (group_id : json) : bool :=
  match group_id with
  | JStr s => String.eqb s "@self"
  | _ => false
  end.

(** The activities of the page from its second tweet on, without and
    with the retweets of the tweet 7. *)
Definition sample_page_activities : list json :=
  [JDict {[ "verb" := JStr "post";
            "object" := JDict {[ "objectType" := JStr "note" ]} ]};
   JDict {[ "verb" := JStr "post" ]}].


(** The date and time of the sample tweet. *)
Definition sample_datetime : datetime :=
  {| year := 2007; month := 5; day := 23; hour := 6; minute := 1; second := 13 |}.

(** * Properties *)

(** ** The result monad *)

Lemma bind_Ok {A B} (a : A) (f : A -> result B) : (x ← Ok a; f x) = f a.
Proof. reflexivity. Qed.

Lemma bind_Ok_inv {A B} (m : result A) (f : A -> result B) (b : B) :
  (x ← m; f x) = Ok b -> exists a, m = Ok a /\ f a = Ok b.
Proof. destruct m as [a|e]; [eauto | discriminate]. Qed.

Lemma Ok_inj {A} (a b : A) : Ok a = Ok b -> a = b.
Proof. congruence. Qed.

Lemma mapM_Ok_Forall2 {A B} (f : A -> result B) (l : list A) (k : list B) :
  mapM f l = Ok k -> Forall2 (fun x y => f x = Ok y) l k.
Proof.
  revert k. induction l as [|x l IH]; intros k Hk.
  - injection Hk as <-. constructor.
  - cbn in Hk. apply bind_Ok_inv in Hk as (y & Hy & Hk).
    apply bind_Ok_inv in Hk as (k' & Hk' & Hk).
    injection Hk as <-. constructor; auto.
Qed.

Lemma mapM_ext_Forall {A B} (f f' : A -> result B) (l : list A) :
  Forall (fun x => f x = f' x) l -> mapM f l = mapM f' l.
Proof.
  induction 1 as [|x l Hx _ IH]; [reflexivity|].
  cbn. rewrite Hx, IH. reflexivity.
Qed.

(** One step of symbolic execution: binds of returned values, [get] on
    a dict, defaults. *)
Ltac py_simpl :=
  cbn [py_get mbind result_bind default from_option Datatypes.id negb].

Tactic Notation "py_simpl" "in" hyp(H) :=
  cbn [py_get mbind result_bind default from_option Datatypes.id negb] in H.

(** ** Lists and strings *)

Lemma filter_prefix_lookup {A} (P : A -> Prop) `{forall x, Decision (P x)}
    (l1 l2 : list A) (i : nat) (x : A) :
  Forall P l1 -> l1 !! i = Some x -> filter P (l1 ++ l2)%list !! i = Some x.
Proof.
  intros Hall Hi. rewrite filter_app.
  assert (Hf : filter P l1 = l1).
  { clear Hi. induction Hall as [|y l Hy _ IH]; [reflexivity|].
    rewrite filter_cons_True by assumption. f_equal. exact IH. }
  rewrite Hf. apply lookup_app_l_Some. exact Hi.
Qed.

Lemma append_cons (c : ascii) (a b : string) : String c a +:+ b = String c (a +:+ b).
Proof. reflexivity. Qed.

Lemma append_nil_l (a : string) : "" +:+ a = a.
Proof. reflexivity. Qed.

Lemma append_assoc (a b c : string) : (a +:+ b) +:+ c = a +:+ (b +:+ c).
Proof.
  induction a as [|x a IH]; [reflexivity|].
  rewrite !append_cons. f_equal. exact IH.
Qed.

Lemma length_append (a b : string) :
  String.length (a +:+ b) = (String.length a + String.length b)%nat.
Proof.
  induction a as [|x a IH]; [reflexivity|]. rewrite append_cons. cbn. f_equal. exact IH.
Qed.

Lemma substring_prefix (w s : string) : substring 0 (String.length w) (w +:+ s) = w.
Proof.
  induction w as [|x w IH].
  - rewrite append_nil_l. destruct s; reflexivity.
  - rewrite append_cons. cbn. f_equal. exact IH.
Qed.

Lemma consumed_app (w s : string) : consumed (w +:+ s) s = w.
Proof.
  unfold consumed. rewrite length_append.
  replace (String.length w + String.length s - String.length s)%nat
    with (String.length w) by lia.
  apply substring_prefix.
Qed.

Lemma consumed_cons_app (c : ascii) (w s : string) :
  consumed (String c (w +:+ s)) s = String c w.
Proof. rewrite <- append_cons. apply consumed_app. Qed.

(** ** Splitting texts *)

Lemma append_inv_head (a b c : string) : a +:+ b = a +:+ c -> b = c.
Proof.
  induction a as [|x a IH]; [rewrite !append_nil_l; auto|].
  rewrite !append_cons. intros [= H]. exact (IH H).
Qed.

Lemma append_nil_inv (a b : string) : "" = a +:+ b -> a = "" /\ b = "".
Proof. destruct a; [rewrite append_nil_l; auto | rewrite append_cons; discriminate]. Qed.

(** Of two ways to split a text, the shorter front is a front of the
    longer one. *)
Lemma append_split (a b c d : string) :
  a +:+ b = c +:+ d -> (String.length c <= String.length a)%nat ->
  exists e, a = c +:+ e /\ d = e +:+ b.
Proof.
  revert a. induction c as [|x c IH]; intros a H Hl.
  - exists a. rewrite !append_nil_l in *. auto.
  - destruct a as [|y a]; [cbn in Hl; lia|].
    rewrite !append_cons in H. injection H as -> H.
    destruct (IH a H) as (e & -> & ->); [cbn in Hl; lia|].
    exists e. rewrite append_cons. auto.
Qed.

Lemma no_char_head (c x : ascii) (s : string) :
  no_char c (String x s) = true -> Ascii.eqb x c = false /\ no_char c s = true.
Proof.
  unfold no_char. cbn [all_chars]. intros [Hx Hs]%andb_true_iff.
  split; [apply negb_true_iff, Hx | exact Hs].
Qed.

Lemma no_char_suffix (c : ascii) (w s : string) :
  no_char c (w +:+ s) = true -> no_char c s = true.
Proof.
  induction w as [|x w IH]; [rewrite append_nil_l; auto|].
  rewrite append_cons. intros [_ H]%no_char_head. exact (IH H).
Qed.

(** A run without [q] that ends at a [q] is determined by the text. *)
Lemma no_char_run (q : ascii) (u u' x x' : string) :
  no_char q u = true -> no_char q u' = true ->
  u +:+ String q x = u' +:+ String q x' -> u = u' /\ x = x'.
Proof.
  revert u'. induction u as [|c u IH]; intros [|c' u'] Hu Hu'; rewrite ?append_nil_l, ?append_cons.
  - intros [= ->]. auto.
  - intros [= <- _]. apply no_char_head in Hu' as [Hc _]. rewrite Ascii.eqb_refl in Hc. discriminate.
  - intros [= -> _]. apply no_char_head in Hu as [Hc _]. rewrite Ascii.eqb_refl in Hc. discriminate.
  - intros [= -> H]. apply no_char_head in Hu as [_ Hu]. apply no_char_head in Hu' as [_ Hu'].
    destruct (IH u' Hu Hu' H) as [-> ->]. auto.
Qed.

(** ** The matcher finds only what the pattern describes *)

Section Soundness.
Context {A : Type}.

Lemma star_match_sound (p : ascii -> bool) (k : string -> gmap nat string -> option A)
    (s : string) (g : gmap nat string) (a : A) :
  star_match p k s g = Some a ->
  exists w s', s = w +:+ s' /\ matches (RStar p) w g g /\ k s' g = Some a.
Proof.
  induction s as [|c s IH]; cbn.
  - intros H. exists "", "". repeat split; [constructor | exact H].
  - destruct (p c) eqn:Hc.
    + destruct (star_match p k s g) as [a'|] eqn:Hs.
      * intros [= ->]. destruct (IH eq_refl) as (w & s' & -> & Hm & Hk).
        exists (String c w), s'. repeat split; [constructor; assumption | exact Hk].
      * intros H. exists "", (String c s). repeat split; [constructor | exact H].
    + intros H. exists "", (String c s). repeat split; [constructor | exact H].
Qed.

Lemma re_match_sound (r : regex) :
  forall (k : string -> gmap nat string -> option A) (s : string) (g : gmap nat string) (a : A),
    re_match r k s g = Some a ->
    exists w s' g', s = w +:+ s' /\ matches r w g g' /\ k s' g' = Some a.
Proof.
  induction r as [|p|r1 IH1 r2 IH2|r1 IH1 r2 IH2|p|i r IH]; intros k s g a; cbn.
  - intros H. exists "", s, g. repeat split; [constructor | exact H].
  - destruct s as [|c s]; [discriminate|]. destruct (p c) eqn:Hc; [|discriminate].
    intros H. exists (String c ""), s, g. repeat split; [constructor; assumption | exact H].
  - intros H. apply IH1 in H as (w1 & s1 & g1 & -> & Hm1 & H).
    apply IH2 in H as (w2 & s2 & g2 & -> & Hm2 & H).
    exists (w1 +:+ w2), s2, g2. rewrite append_assoc.
    repeat split; [econstructor; eassumption | exact H].
  - destruct (re_match r1 k s g) as [a'|] eqn:H1.
    + intros [= ->]. apply IH1 in H1 as (w & s' & g' & -> & Hm & H).
      exists w, s', g'. repeat split; [apply matches_alt_l; assumption | exact H].
    + intros H. apply IH2 in H as (w & s' & g' & -> & Hm & H).
      exists w, s', g'. repeat split; [apply matches_alt_r; assumption | exact H].
  - intros H. apply star_match_sound in H as (w & s' & -> & Hm & H).
    exists w, s', g. auto.
  - intros H. apply IH in H as (w & s' & g' & -> & Hm & H).
    rewrite consumed_app in H.
    exists w, s', (<[i := w]> g'). repeat split; [constructor; assumption | exact H].
Qed.

End Soundness.

Lemma re_match_prefix_sound (r : regex) (s rest : string) (g : gmap nat string) :
  re_match_prefix r s = Some (rest, g) ->
  exists w, s = w +:+ rest /\ matches r w ∅ g.
Proof.
  unfold re_match_prefix. intros H.
  apply re_match_sound in H as (w & s' & g' & -> & Hm & [= <- <-]). eauto.
Qed.

(** A successful search found a match somewhere in the text. *)
Lemma re_search_sound (r : regex) (s : string) (g : gmap nat string) :
  re_search r s = Some g ->
  exists pre w post, s = pre +:+ w +:+ post /\ matches r w ∅ g.
Proof.
  induction s as [|c s IH]; cbn.
  - destruct (re_match_prefix r "") as [[rest g']|] eqn:H; [|discriminate].
    intros [= ->]. apply re_match_prefix_sound in H as (w & Hw & Hm).
    exists "", w, rest. auto.
  - destruct (re_match_prefix r (String c s)) as [[rest g']|] eqn:H.
    + intros [= ->]. apply re_match_prefix_sound in H as (w & Hw & Hm).
      exists "", w, rest. auto.
    + intros H'. apply IH in H' as (pre & w & post & -> & Hm).
      exists (String c pre), w, post. auto.
Qed.

Lemma re_search_hit (r : regex) (s rest : string) (g : gmap nat string) :
  re_match_prefix r s = Some (rest, g) -> re_search r s = Some g.
Proof. intros H. destruct s; cbn; rewrite H; reflexivity. Qed.

(** ** Greedy repetition *)

Section Greedy.
Context {A : Type}.
Implicit Types (k : string -> gmap nat string -> option A) (g : gmap nat string).

(** A repetition runs through a text of its class when the match
    succeeds further on. *)
Lemma star_match_app p k w t g a :
  all_chars p w = true -> star_match p k t g = Some a ->
  star_match p k (w +:+ t) g = Some a.
Proof.
  induction w as [|c w IH]; [intros _ H; exact H|].
  cbn [all_chars]. intros [Hc Hw]%andb_true_iff Ht.
  rewrite append_cons. cbn [star_match]. rewrite Hc, (IH Hw Ht). reflexivity.
Qed.

Lemma star_match_stop p k c t g :
  p c = false -> star_match p k (String c t) g = k (String c t) g.
Proof. intros Hc. cbn [star_match]. rewrite Hc. reflexivity. Qed.

Lemma star_match_skip p k c t g :
  star_match p k t g = None -> star_match p k (String c t) g = k (String c t) g.
Proof. intros Ht. cbn [star_match]. rewrite Ht. destruct (p c); reflexivity. Qed.

(** It fails when the rest of the pattern fails at every position. *)
Lemma star_match_none p k t g :
  (forall w s', t = w +:+ s' -> k s' g = None) -> star_match p k t g = None.
Proof.
  induction t as [|c t IH]; intros H.
  - apply (H "" ""). reflexivity.
  - rewrite star_match_skip.
    + apply (H "" (String c t)). reflexivity.
    + apply IH. intros w s' ->. apply (H (String c w) s'). reflexivity.
Qed.

Lemma re_match_chr c k t g : re_match (chr c) k (String c t) g = k t g.
Proof. cbn. rewrite Ascii.eqb_refl. reflexivity. Qed.

Lemma re_match_chr_ne c x k t g :
  Ascii.eqb x c = false -> re_match (chr c) k (String x t) g = None.
Proof. intros H. cbn. rewrite Ascii.eqb_sym, H. reflexivity. Qed.

Lemma re_match_lit s k t g : re_match (lit s) k (s +:+ t) g = k t g.
Proof.
  revert k. induction s as [|c s IH]; intros k; [reflexivity|].
  rewrite append_cons. cbn [lit re_match]. rewrite re_match_chr. apply IH.
Qed.

Lemma re_match_many1 p k c t g :
  p c = true -> re_match (many1 p) k (String c t) g = star_match p k t g.
Proof. intros Hc. cbn. rewrite Hc. reflexivity. Qed.

End Greedy.

(** ** The matcher finds what the pattern describes *)

Section Completeness.
Context {A : Type}.

Lemma star_match_complete (p : ascii -> bool) (k : string -> gmap nat string -> option A)
    (w rest : string) (g : gmap nat string) :
  all_chars p w = true -> k rest g <> None -> star_match p k (w +:+ rest) g <> None.
Proof.
  intros Hw Hk. induction w as [|c w IH].
  - rewrite append_nil_l. destruct rest as [|c rest]; [exact Hk|].
    cbn [star_match]. destruct (p c); [|exact Hk].
    destruct (star_match p k rest g); [discriminate | exact Hk].
  - cbn [all_chars] in Hw. apply andb_true_iff in Hw as [Hc Hw].
    rewrite append_cons. cbn [star_match]. rewrite Hc.
    specialize (IH Hw). destruct (star_match p k (w +:+ rest) g); [discriminate|].
    congruence.
Qed.

Lemma matches_star_all (p : ascii -> bool) (w : string) (g g' : gmap nat string) :
  matches (RStar p) w g g' -> all_chars p w = true /\ g' = g.
Proof.
  remember (RStar p) as r eqn:Hr. induction 1; try discriminate.
  - auto.
  - injection Hr as ->. cbn [all_chars]. destruct (IHmatches eq_refl) as [-> _].
    split; [apply andb_true_iff; auto | reflexivity].
Qed.

(** Whenever the pattern matches a text, and the rest of the pattern
    accepts what follows, the matcher finds a match. *)
Lemma re_match_complete (r : regex) (w : string) (g g' : gmap nat string) :
  matches r w g g' ->
  forall (k : string -> gmap nat string -> option A) (rest : string),
    k rest g' <> None -> re_match r k (w +:+ rest) g <> None.
Proof.
  induction 1 as [g|p c g Hc|r1 r2 w1 w2 g g1 g2 _ IH1 _ IH2|r1 r2 w g g' _ IH
                 |r1 r2 w g g' _ IH|p g|p c w g Hc Hm _|i r w g g' _ IH];
    intros k rest Hk.
  - exact Hk.
  - rewrite append_cons, append_nil_l. cbn [re_match]. rewrite Hc. exact Hk.
  - rewrite append_assoc. cbn [re_match]. apply IH1, IH2, Hk.
  - cbn [re_match]. specialize (IH k rest Hk).
    destruct (re_match r1 k (w +:+ rest) g); [discriminate | congruence].
  - cbn [re_match]. destruct (re_match r1 k (w +:+ rest) g); [discriminate|].
    apply IH, Hk.
  - cbn [re_match]. apply (star_match_complete p k "" rest g eq_refl Hk).
  - cbn [re_match]. apply star_match_complete; [|exact Hk].
    cbn [all_chars]. rewrite Hc. apply (matches_star_all _ _ _ _ Hm).
  - cbn [re_match]. apply IH. rewrite consumed_app. exact Hk.
Qed.

End Completeness.

(** A text that contains a match is found by the search. *)
Lemma re_search_complete (r : regex) (pre w post : string) (g : gmap nat string) :
  matches r w ∅ g -> re_search r (pre +:+ w +:+ post) <> None.
Proof.
  intros Hm.
  assert (Hhere : re_match_prefix r (w +:+ post) <> None).
  { unfold re_match_prefix. apply (re_match_complete r w ∅ g Hm). discriminate. }
  induction pre as [|c pre IH].
  - rewrite append_nil_l. destruct (re_match_prefix r (w +:+ post)) as [[rest g']|] eqn:H;
      [|congruence].
    rewrite (re_search_hit _ _ _ _ H). discriminate.
  - rewrite append_cons. cbn [re_search].
    destruct (re_match_prefix r (String c (pre +:+ w +:+ post))) as [[rest g']|];
      [discriminate | exact IH].
Qed.

(** ** The order in which the matcher tries *)

Section Priority.
Context {A : Type}.
Implicit Types (p : ascii -> bool) (k : string -> gmap nat string -> option A)
  (g : gmap nat string) (a : A).

(** A repetition fails only when the rest of the pattern fails after
    every run it can take. *)
Lemma star_match_none_inv p k (s : string) g :
  star_match p k s g = None ->
  forall w t, s = w +:+ t -> all_chars p w = true -> k t g = None.
Proof.
  induction s as [|c s IH]; intros H w t Hs Hw.
  - apply append_nil_inv in Hs as [-> ->]. exact H.
  - cbn [star_match] in H. destruct w as [|x w].
    + rewrite append_nil_l in Hs. subst t.
      destruct (p c); [destruct (star_match p k s g); [discriminate|]|]; exact H.
    + rewrite append_cons in Hs. injection Hs as <- Hs.
      cbn [all_chars] in Hw. apply andb_true_iff in Hw as [Hc Hw]. rewrite Hc in H.
      destruct (star_match p k s g) eqn:Hm; [discriminate|].
      exact (IH eq_refl w t Hs Hw).
Qed.

Lemma star_match_none_all p k (s : string) g :
  (forall w t, s = w +:+ t -> all_chars p w = true -> k t g = None) ->
  star_match p k s g = None.
Proof.
  induction s as [|c s IH]; intros H.
  - apply (H "" ""); reflexivity.
  - cbn [star_match]. destruct (p c) eqn:Hc; [|apply (H "" (String c s)); reflexivity].
    rewrite IH; [apply (H "" (String c s)); reflexivity|].
    intros w t -> Hw. apply (H (String c w) t); [reflexivity|].
    cbn [all_chars]. rewrite Hc. exact Hw.
Qed.

(** A repetition stops after the longest run after which the rest of the
    pattern succeeds. *)
Lemma star_match_longest p k (w t : string) g a :
  all_chars p w = true -> k t g = Some a ->
  (forall w' t', w +:+ t = w' +:+ t' -> all_chars p w' = true ->
     (String.length w < String.length w')%nat -> k t' g = None) ->
  star_match p k (w +:+ t) g = Some a.
Proof.
  induction w as [|c w IH]; intros Hw Hk Hmax.
  - rewrite append_nil_l in *. destruct t as [|c t]; [exact Hk|].
    cbn [star_match]. destruct (p c) eqn:Hc; [|exact Hk].
    rewrite star_match_none_all; [exact Hk|].
    intros w1 t1 -> Hw1. apply (Hmax (String c w1) t1); [reflexivity| |cbn; lia].
    cbn [all_chars]. rewrite Hc. exact Hw1.
  - cbn [all_chars] in Hw. apply andb_true_iff in Hw as [Hc Hw].
    rewrite append_cons. cbn [star_match]. rewrite Hc, IH; auto.
    intros w' t' H Hw' Hl. apply (Hmax (String c w') t').
    + rewrite !append_cons, H. reflexivity.
    + cbn [all_chars]. rewrite Hc. exact Hw'.
    + cbn. lia.
Qed.

Lemma star_match_inv p k (s : string) g a :
  star_match p k s g = Some a ->
  exists w t, s = w +:+ t /\ all_chars p w = true /\ k t g = Some a /\
    forall w' t', s = w' +:+ t' -> all_chars p w' = true ->
      (String.length w < String.length w')%nat -> k t' g = None.
Proof.
  induction s as [|c s IH]; cbn [star_match]; intros H.
  - exists "", "". repeat split; [exact H|].
    intros w' t' [-> ->]%append_nil_inv _ Hl. cbn in Hl. lia.
  - destruct (p c) eqn:Hc.
    + destruct (star_match p k s g) as [a'|] eqn:Hm.
      * injection H as ->. destruct (IH eq_refl) as (w & t & -> & Hw & Hk & Hmax).
        exists (String c w), t. repeat split.
        -- cbn [all_chars]. rewrite Hc. exact Hw.
        -- exact Hk.
        -- intros [|x w'] t' He Hw' Hl; [cbn in Hl; lia|].
           rewrite !append_cons in He. injection He as <- He.
           cbn [all_chars] in Hw'. apply andb_true_iff in Hw' as [_ Hw'].
           apply (Hmax w' t' He Hw'). cbn in Hl. lia.
      * exists "", (String c s). repeat split; [exact H|].
        intros [|x w'] t' He Hw' Hl; [cbn in Hl; lia|].
        rewrite append_cons in He. injection He as <- He.
        cbn [all_chars] in Hw'. apply andb_true_iff in Hw' as [_ Hw'].
        exact (star_match_none_inv p k s g Hm w' t' He Hw').
    + exists "", (String c s). repeat split; [exact H|].
      intros [|x w'] t' He Hw' Hl; [cbn in Hl; lia|].
      rewrite append_cons in He. injection He as <- He.
      cbn [all_chars] in Hw'. rewrite Hc in Hw'. discriminate.
Qed.

Lemma re_match_chr_inv (c : ascii) k (t : string) g a :
  re_match (chr c) k t g = Some a -> exists t', t = String c t' /\ k t' g = Some a.
Proof.
  cbn [chr re_match]. destruct t as [|x t]; [discriminate|].
  destruct (Ascii.eqb c x) eqn:Hx; [|discriminate].
  apply Ascii.eqb_eq in Hx as <-. eauto.
Qed.

Lemma re_match_lit_inv (l : string) k (t : string) g a :
  re_match (lit l) k t g = Some a -> exists t', t = l +:+ t' /\ k t' g = Some a.
Proof.
  revert k t. induction l as [|c l IH]; intros k t; cbn [lit re_match]; [eauto|].
  intros (t1 & -> & H)%re_match_chr_inv. apply IH in H as (t' & -> & H). eauto.
Qed.

Lemma re_match_many1_inv p k (t : string) g a :
  re_match (many1 p) k t g = Some a ->
  exists c t', t = String c t' /\ p c = true /\ star_match p k t' g = Some a.
Proof.
  cbn [many1 re_match]. destruct t as [|c t]; [discriminate|].
  destruct (p c) eqn:Hc; [|discriminate]. eauto.
Qed.

End Priority.

(** The search reports the match at the first position that has one. *)
Lemma re_search_first (r : regex) (pre t : string) :
  (forall w t', pre = w +:+ t' -> t' <> "" -> re_match_prefix r (t' +:+ t) = None) ->
  re_search r (pre +:+ t) = re_search r t.
Proof.
  induction pre as [|c pre IH]; intros H; [reflexivity|].
  rewrite append_cons.
  assert (H0 : re_match_prefix r (String c (pre +:+ t)) = None).
  { apply (H "" (String c pre)); [reflexivity | discriminate]. }
  cbn [re_search]. rewrite H0. apply IH.
  intros w t' -> Ht'. apply (H (String c w) t'); [reflexivity | exact Ht'].
Qed.

Lemma re_search_first_inv (r : regex) (s : string) (g : gmap nat string) :
  re_search r s = Some g ->
  exists pre t rest, s = pre +:+ t /\ re_match_prefix r t = Some (rest, g) /\
    forall w t', pre = w +:+ t' -> t' <> "" -> re_match_prefix r (t' +:+ t) = None.
Proof.
  induction s as [|c s IH]; cbn [re_search].
  - destruct (re_match_prefix r "") as [[rest g']|] eqn:H; [|discriminate].
    intros [= ->]. exists "", "", rest. repeat split; [exact H|].
    intros w t' [_ ->]%append_nil_inv Ht'. congruence.
  - destruct (re_match_prefix r (String c s)) as [[rest g']|] eqn:H.
    + intros [= ->]. exists "", (String c s), rest. repeat split; [exact H|].
      intros w t' [_ ->]%append_nil_inv Ht'. congruence.
    + intros (pre & t & rest & -> & Hm & Hfirst)%IH.
      exists (String c pre), t, rest. repeat split; [exact Hm|].
      intros [|x w] t' He Ht'.
      * rewrite append_nil_l in He. subst t'. exact H.
      * rewrite append_cons in He. injection He as <- He. exact (Hfirst w t' He Ht').
Qed.

(** ** The generator pattern *)

Lemma matches_chr_inv (c : ascii) (w : string) (g g' : gmap nat string) :
  matches (chr c) w g g' -> w = String c "" /\ g' = g.
Proof.
  inversion 1 as [|? x ? Hx| | | | | |]; subst.
  apply Ascii.eqb_eq in Hx as <-. auto.
Qed.

Lemma matches_lit_inv (s w : string) (g g' : gmap nat string) :
  matches (lit s) w g g' -> w = s /\ g' = g.
Proof.
  revert w g g'. induction s as [|c s IH]; intros w g g'; cbn [lit].
  - inversion 1; auto.
  - inversion 1 as [| |? ? w1 w2 ? g1 ? H1 H2| | | | |]; subst.
    apply matches_chr_inv in H1 as [-> ->]. apply IH in H2 as [-> ->]. auto.
Qed.

Lemma matches_lit_refl (s : string) (g : gmap nat string) : matches (lit s) s g g.
Proof.
  induction s as [|c s IH]; [constructor|].
  change (String c s) with (String c "" +:+ s). cbn [lit].
  econstructor; [|exact IH]. constructor. apply Ascii.eqb_refl.
Qed.

Lemma matches_star_refl (p : ascii -> bool) (w : string) (g : gmap nat string) :
  all_chars p w = true -> matches (RStar p) w g g.
Proof.
  induction w as [|c w IH]; [constructor|].
  cbn [all_chars]. intros [Hc Hw]%andb_true_iff. constructor; auto.
Qed.

Lemma matches_many1_refl (p : ascii -> bool) (w : string) (g : gmap nat string) :
  w <> "" -> all_chars p w = true -> matches (many1 p) w g g.
Proof.
  destruct w as [|c w]; [congruence|]. intros _.
  cbn [all_chars]. intros [Hc Hw]%andb_true_iff.
  change (String c w) with (String c "" +:+ w). unfold many1.
  econstructor; [constructor; exact Hc | apply matches_star_refl, Hw].
Qed.

Lemma matches_many1_all (p : ascii -> bool) (w : string) (g g' : gmap nat string) :
  matches (many1 p) w g g' -> w <> "" /\ all_chars p w = true /\ g' = g.
Proof.
  unfold many1. inversion 1 as [| |? ? w1 w2 ? g1 ? H1 H2| | | | |]; subst.
  inversion H1; subst. apply matches_star_all in H2 as [Hw ->].
  split; [discriminate|]. split; [|reflexivity].
  rewrite append_cons, append_nil_l. cbn [all_chars]. apply andb_true_iff. auto.
Qed.

(** The pattern matches exactly the texts [anchor_text url attrs name]
    with a [url] that is not empty and has no double quote, [attrs]
    without newline, and a [name] that is not empty and has no newline;
    the groups are [url] and [name]. *)
Lemma matches_anchor_text (url attrs name : string) :
  url <> "" -> no_char dquote url = true -> no_char newline attrs = true ->
  name <> "" -> no_char newline name = true ->
  matches anchor_re (anchor_text url attrs name) ∅ (<[2%nat := name]> (<[1%nat := url]> ∅)).
Proof.
  intros Hu Hq Ha Hn Hnl. unfold anchor_re, anchor_text. cbn [seqs].
  apply matches_seq with (g1 := ∅); [apply matches_lit_refl|].
  change (String dquote ?t) with (String dquote "" +:+ t).
  apply matches_seq with (g1 := ∅); [constructor; apply Ascii.eqb_refl|].
  apply matches_seq with (g1 := <[1%nat := url]> ∅).
  { constructor. apply matches_many1_refl; assumption. }
  change (String dquote ?t) with (String dquote "" +:+ t).
  apply matches_seq with (g1 := <[1%nat := url]> ∅); [constructor; apply Ascii.eqb_refl|].
  apply matches_seq with (g1 := <[1%nat := url]> ∅); [apply matches_star_refl, Ha|].
  change (String ">" ?t) with (String ">" "" +:+ t).
  apply matches_seq with (g1 := <[1%nat := url]> ∅); [constructor; reflexivity|].
  apply matches_seq with (g1 := <[2%nat := name]> (<[1%nat := url]> ∅)).
  { constructor. apply matches_many1_refl; assumption. }
  apply matches_lit_refl.
Qed.

Lemma matches_anchor_text_inv (w : string) (g : gmap nat string) :
  matches anchor_re w ∅ g ->
  exists url attrs name : string,
    url <> "" /\ no_char dquote url = true /\ no_char newline attrs = true /\
    name <> "" /\ no_char newline name = true /\
    w = anchor_text url attrs name /\
    g = <[2%nat := name]> (<[1%nat := url]> ∅).
Proof.
  unfold anchor_re. cbn [seqs]. intros H.
  repeat match goal with
    | H : matches (RSeq _ _) _ _ _ |- _ => inversion H; subst; clear H
    | H : matches (RGroup _ _) _ _ _ |- _ => inversion H; subst; clear H
    | H : matches (chr _) _ _ _ |- _ => apply matches_chr_inv in H as [-> ->]
    | H : matches (lit _) _ _ _ |- _ => apply matches_lit_inv in H as [-> ->]
    | H : matches (many1 _) _ _ _ |- _ => apply matches_many1_all in H as (? & ? & ->)
    | H : matches (RStar _) _ _ _ |- _ => apply matches_star_all in H as [? ->]
    | H : matches REps _ _ _ |- _ => inversion H; subst; clear H
    end.
  match goal with
  | Hu : ?u <> "", Hn : ?n <> "" |- context [?u +:+ String dquote "" +:+ ?m +:+ ">" +:+ ?n +:+ _] =>
      exists u, m, n
  end.
  repeat split; assumption || reflexivity.
Qed.

(** A search that succeeds has found an anchor in the text, and returns
    its link and its name. *)
Lemma re_search_anchor_in (s : string) (g : gmap nat string) :
  re_search anchor_re s = Some g -> anchor_in s (group g 1) (group g 2).
Proof.
  intros H. apply re_search_sound in H as (pre & w & post & -> & Hm).
  apply matches_anchor_text_inv in Hm
    as (url & attrs & name & Hu & Hq & Ha & Hn & Hnl & -> & ->).
  unfold group. rewrite lookup_insert_eq, lookup_insert_ne, lookup_insert_eq by discriminate.
  cbn [default from_option Datatypes.id].
  exists pre, attrs, post. repeat split; assumption.
Qed.

(** A text that contains an anchor is not missed. *)
Lemma re_search_anchor_found (s url name : string) :
  anchor_in s url name -> re_search anchor_re s <> None.
Proof.
  intros (pre & attrs & post & -> & Hu & Hq & Ha & Hn & Hnl).
  apply (re_search_complete _ _ _ _ _ (matches_anchor_text url attrs name Hu Hq Ha Hn Hnl)).
Qed.

(** ** The generator pattern on a single anchor *)

Section Anchors.
Context {A : Type}.
Implicit Types (k : string -> gmap nat string -> option A) (g : gmap nat string).

(** A text without [>] does not start with [</a>]. *)
Lemma lit_close_fails k (u : string) g :
  no_char ">" u = true -> re_match (lit "</a>") k u g = None.
Proof.
  intros Hu. destruct u as [|c1 [|c2 [|c3 [|c4 u]]]]; cbn [lit re_match chr];
    repeat match goal with
      | |- context [if Ascii.eqb ?a ?b then _ else _] => destruct (Ascii.eqb a b) eqn:?
      end; try reflexivity.
  exfalso. do 3 apply no_char_head in Hu as [_ Hu]. apply no_char_head in Hu as [Hc _].
  rewrite Ascii.eqb_sym in Hc. congruence.
Qed.

(** Nor does the rest of the pattern after [.*] match anywhere in it. *)
Lemma anchor_tail_no_gt k (u : string) g :
  no_char ">" u = true -> re_match anchor_tail k u g = None.
Proof.
  intros Hu. destruct u as [|c u]; [reflexivity|].
  apply no_char_head in Hu as [Hc _]. unfold anchor_tail. cbn [seqs re_match].
  apply re_match_chr_ne, Hc.
Qed.

Lemma anchor_tail_close k (post : string) g :
  no_char ">" post = true -> re_match anchor_tail k (String ">" post) g = None.
Proof.
  intros Hp. unfold anchor_tail. cbn [seqs re_match]. rewrite re_match_chr.
  destruct post as [|c post]; [reflexivity|]. cbn [many1 re_match].
  destruct (not_newline c); [|reflexivity].
  apply star_match_none. intros w s' Hw. apply lit_close_fails.
  apply no_char_head in Hp as [_ Hp]. rewrite Hw in Hp. exact (no_char_suffix _ _ _ Hp).
Qed.

(** After the name, the closing tag and a text without [>], the rest of
    the pattern matches nowhere. *)
Lemma anchor_tail_fails k (name post w s' : string) g :
  no_char ">" name = true -> no_char ">" post = true ->
  name +:+ "</a>" +:+ post = w +:+ s' ->
  re_match anchor_tail k s' g = None.
Proof.
  revert w. induction name as [|c name IH]; intros w Hn Hp Hw.
  - rewrite append_nil_l in Hw.
    destruct w as [|x1 w]; [rewrite ?append_nil_l in Hw; subst s'; reflexivity|].
    rewrite ?append_cons, ?append_nil_l in Hw; injection Hw as <- Hw.
    destruct w as [|x2 w]; [rewrite ?append_nil_l in Hw; subst s'; reflexivity|].
    rewrite ?append_cons, ?append_nil_l in Hw; injection Hw as <- Hw.
    destruct w as [|x3 w]; [rewrite ?append_nil_l in Hw; subst s'; reflexivity|].
    rewrite ?append_cons, ?append_nil_l in Hw; injection Hw as <- Hw.
    destruct w as [|x4 w];
      [rewrite ?append_nil_l in Hw; subst s'; apply anchor_tail_close, Hp|].
    rewrite ?append_cons, ?append_nil_l in Hw; injection Hw as <- Hw.
    apply anchor_tail_no_gt. rewrite Hw in Hp. exact (no_char_suffix _ _ _ Hp).
  - apply no_char_head in Hn as [Hc Hn].
    rewrite append_cons in Hw. destruct w as [|x w].
    + rewrite append_nil_l in Hw. subst s'. unfold anchor_tail. cbn [seqs re_match].
      apply re_match_chr_ne, Hc.
    + rewrite append_cons in Hw. injection Hw as -> Hw. eapply IH; eauto.
Qed.

(** The closing tag is the last one the name group can stop at. *)
Lemma close_tag_last k (f : string -> gmap nat string -> gmap nat string)
    (post : string) g :
  no_char ">" post = true ->
  star_match not_newline (fun s' g' => re_match (lit "</a>") k s' (f s' g'))
    ("</a>" +:+ post) g =
  k post (f ("</a>" +:+ post) g).
Proof.
  intros Hp. rewrite append_cons. rewrite star_match_skip.
  - rewrite <- append_cons. apply re_match_lit.
  - apply star_match_none. intros w s' Hw.
    destruct w as [|x1 w]; [rewrite ?append_nil_l in Hw; subst s'; reflexivity|].
    rewrite ?append_cons, ?append_nil_l in Hw; injection Hw as <- Hw.
    destruct w as [|x2 w]; [rewrite ?append_nil_l in Hw; subst s'; reflexivity|].
    rewrite ?append_cons, ?append_nil_l in Hw; injection Hw as <- Hw.
    destruct w as [|x3 w]; [rewrite ?append_nil_l in Hw; subst s'; reflexivity|].
    rewrite ?append_cons, ?append_nil_l in Hw; injection Hw as <- Hw.
    apply lit_close_fails. rewrite Hw in Hp. exact (no_char_suffix _ _ _ Hp).
Qed.

End Anchors.

Lemma anchor_text_app (url attrs name post : string) :
  anchor_text url attrs name +:+ post =
  "<a href=" +:+ String dquote (url +:+ String dquote
    (attrs +:+ String ">" (name +:+ ("</a>" +:+ post)))).
Proof.
  unfold anchor_text.
  rewrite append_assoc. f_equal. rewrite append_cons. f_equal.
  rewrite append_assoc. f_equal. rewrite append_cons. f_equal.
  rewrite append_assoc. f_equal. rewrite append_cons. f_equal.
  apply append_assoc.
Qed.

(** At the start of [<a href=Q url Q attrs>name</a>] followed by [post],
    the pattern takes [url] and [name], when [url] has no double quote,
    [attrs] neither [>] nor a newline, [name] neither [>] nor a newline,
    and [post] no [>]. *)
Lemma re_match_anchor_text (url attrs name post : string) :
  url <> "" -> no_char dquote url = true ->
  no_char ">" attrs = true -> no_char newline attrs = true ->
  name <> "" -> no_char ">" name = true -> no_char newline name = true ->
  no_char ">" post = true ->
  re_match_prefix anchor_re (anchor_text url attrs name +:+ post) =
  Some (post, <[2%nat := name]> (<[1%nat := url]> ∅)).
Proof.
  intros Hu Hq Hagt Hanl Hn Hgt Hnl Hp.
  rewrite anchor_text_app.
  destruct url as [|u0 url]; [congruence|]. destruct name as [|n0 name]; [congruence|].
  unfold no_char in Hq, Hnl. cbn [all_chars] in Hq, Hnl.
  apply andb_true_iff in Hq as [Hu0 Hq]. apply andb_true_iff in Hnl as [Hn0 Hnl].
  unfold re_match_prefix, anchor_re.
  change (seqs [lit "<a href="; chr dquote;
                RGroup 1 (many1 (fun c => negb (Ascii.eqb c dquote)));
                chr dquote; RStar not_newline; chr ">"; RGroup 2 (many1 not_newline);
                lit "</a>"])
    with (RSeq (lit "<a href=") (RSeq (chr dquote)
           (RSeq (RGroup 1 (many1 (fun c => negb (Ascii.eqb c dquote))))
              (RSeq (chr dquote) (RSeq (RStar not_newline) anchor_tail))))).
  cbn [re_match]. rewrite re_match_lit, re_match_chr.
  rewrite !append_cons, re_match_many1 by exact Hu0.
  apply star_match_app; [exact Hq|].
  rewrite star_match_stop by reflexivity.
  rewrite re_match_chr, consumed_cons_app.
  apply star_match_app; [exact Hanl|].
  rewrite star_match_skip.
  2:{ apply star_match_none. intros w s' Hw.
      apply (anchor_tail_fails _ (String n0 name) post w s'); [exact Hgt | exact Hp|].
      rewrite append_cons. exact Hw. }
  unfold anchor_tail. cbn [seqs re_match]. rewrite re_match_chr.
  rewrite re_match_many1 by exact Hn0.
  apply star_match_app; [exact Hnl|].
  change (String "<" (String "/" (String "a" (String ">" ("" +:+ post)))))
    with ("</a>" +:+ post).
  rewrite (close_tag_last _ (fun s' g' =>
    <[2%nat := consumed (String n0 (name +:+ ("</a>" +:+ post))) s']> g')) by exact Hp.
  rewrite consumed_cons_app. reflexivity.
Qed.

(** A text without [<] in front of the anchor is passed over. *)
Lemma re_search_skip (pre t : string) :
  no_char "<" pre = true -> re_search anchor_re (pre +:+ t) = re_search anchor_re t.
Proof.
  induction pre as [|c pre IH]; [reflexivity|].
  intros [Hc Hpre]%no_char_head. rewrite append_cons. cbn [re_search].
  replace (re_match_prefix anchor_re (String c (pre +:+ t))) with
    (@None (string * gmap nat string)); [exact (IH Hpre)|].
  symmetry. unfold re_match_prefix, anchor_re. cbn [seqs lit re_match].
  apply re_match_chr_ne. rewrite Ascii.eqb_sym. exact Hc.
Qed.

(** The first anchor of a text is the one the search reports, when there
    is no [<] before it and no [>] inside or after it but the tag's own. *)
Lemma re_search_anchor_text (pre url attrs name post : string) :
  no_char "<" pre = true ->
  url <> "" -> no_char dquote url = true ->
  no_char ">" attrs = true -> no_char newline attrs = true ->
  name <> "" -> no_char ">" name = true -> no_char newline name = true ->
  no_char ">" post = true ->
  re_search anchor_re (pre +:+ anchor_text url attrs name +:+ post) =
  Some (<[2%nat := name]> (<[1%nat := url]> ∅)).
Proof.
  intros Hpre Hu Hq Hagt Hanl Hn Hgt Hnl Hp.
  rewrite re_search_skip by exact Hpre.
  apply (re_search_hit _ _ post). apply re_match_anchor_text; assumption.
Qed.

(** ** The reading the generator pattern reports *)

Lemma matches_anchor_tail (name : string) (g : gmap nat string) :
  name <> "" -> no_char newline name = true ->
  matches anchor_tail (String ">" (name +:+ "</a>")) g (<[2%nat := name]> g).
Proof.
  intros Hn Hnl. unfold anchor_tail. cbn [seqs].
  change (String ">" ?t) with (String ">" "" +:+ t).
  apply matches_seq with (g1 := g); [constructor; reflexivity|].
  apply matches_seq with (g1 := <[2%nat := name]> g); [|apply matches_lit_refl].
  constructor. apply matches_many1_refl; assumption.
Qed.

Lemma anchor_tail_found (name rest : string) (g : gmap nat string) :
  name <> "" -> no_char newline name = true ->
  re_match anchor_tail (fun rest g => Some (rest, g))
    (String ">" (name +:+ ("</a>" +:+ rest))) g <> None.
Proof.
  intros Hn Hnl.
  replace (String ">" (name +:+ ("</a>" +:+ rest)))
    with (String ">" (name +:+ "</a>") +:+ rest)
    by (rewrite append_cons, append_assoc; reflexivity).
  apply (re_match_complete _ _ _ _ (matches_anchor_tail name g Hn Hnl)). discriminate.
Qed.

(** After [.*]: the name runs to the last [</a>] it can reach. *)
Lemma anchor_tail_first (name rest : string) (g : gmap nat string) :
  name <> "" -> no_char newline name = true ->
  (forall name' rest', no_char newline name' = true ->
     name +:+ ("</a>" +:+ rest) = name' +:+ ("</a>" +:+ rest') ->
     (String.length name' <= String.length name)%nat) ->
  re_match anchor_tail (fun rest g => Some (rest, g))
    (String ">" (name +:+ ("</a>" +:+ rest))) g = Some (rest, <[2%nat := name]> g).
Proof.
  intros Hn Hnl Hmax. destruct name as [|n0 name]; [congruence|].
  apply no_char_head in Hnl as Hnl'. destruct Hnl' as [Hn0 Hnt].
  unfold anchor_tail. cbn [seqs re_match]. rewrite re_match_chr.
  rewrite append_cons, re_match_many1 by (unfold not_newline; rewrite Hn0; reflexivity).
  apply star_match_longest; [exact Hnt| |].
  - rewrite re_match_lit, consumed_cons_app. reflexivity.
  - intros w' t' He Hw' Hl.
    destruct (re_match (lit "</a>") _ t' _) as [a|] eqn:Hm; [|reflexivity].
    apply re_match_lit_inv in Hm as (rest' & -> & _).
    assert (String.length (String n0 w') <= String.length (String n0 name))%nat.
    { apply (Hmax (String n0 w') rest').
      - unfold no_char. cbn [all_chars].
        apply andb_true_iff. split; [apply negb_true_iff, Hn0 | exact Hw'].
      - change (String n0 (name +:+ ("</a>" +:+ rest)) =
                String n0 (w' +:+ ("</a>" +:+ rest'))).
        f_equal. exact He. }
    cbn in *. lia.
Qed.

Lemma anchor_tail_first_inv (t rest : string) (g g' : gmap nat string) :
  re_match anchor_tail (fun rest g => Some (rest, g)) t g = Some (rest, g') ->
  exists name, t = String ">" (name +:+ ("</a>" +:+ rest)) /\
    name <> "" /\ no_char newline name = true /\ g' = <[2%nat := name]> g /\
    forall name' rest', no_char newline name' = true ->
      name +:+ ("</a>" +:+ rest) = name' +:+ ("</a>" +:+ rest') ->
      (String.length name' <= String.length name)%nat.
Proof.
  unfold anchor_tail. cbn [seqs re_match].
  intros (t1 & -> & H)%re_match_chr_inv.
  apply re_match_many1_inv in H as (n0 & t2 & -> & Hn0 & H).
  apply star_match_inv in H as (nt & t3 & -> & Hnt & H & Hmax).
  apply re_match_lit_inv in H as (rest' & -> & H).
  rewrite consumed_cons_app in H. injection H as -> <-.
  assert (Hnl : no_char newline (String n0 nt) = true).
  { unfold no_char. cbn [all_chars]. apply andb_true_iff. split; assumption. }
  exists (String n0 nt). repeat split; [discriminate | exact Hnl|].
  intros name' rest' Hnl' He.
  destruct (Nat.le_gt_cases (String.length name') (String.length (String n0 nt)))
    as [Hle|Hgt]; [exact Hle|exfalso].
  destruct name' as [|n0' nt']; [cbn in Hgt; lia|].
  rewrite !append_cons in He. injection He as <- He.
  apply no_char_head in Hnl' as [_ Hnt'].
  assert (Hl : (String.length nt < String.length nt')%nat) by (cbn in Hgt; lia).
  specialize (Hmax nt' ("</a>" +:+ rest') He Hnt' Hl).
  rewrite re_match_lit in Hmax. discriminate Hmax.
Qed.

(** After the link: [.*] runs to the last [>] after which a name and
    [</a>] follow, and the name to the last [</a>] it can reach. *)
Lemma anchor_attrs_first (attrs name rest : string) (g : gmap nat string) :
  no_char newline attrs = true -> name <> "" -> no_char newline name = true ->
  (forall attrs' name' rest',
     no_char newline attrs' = true -> name' <> "" -> no_char newline name' = true ->
     attrs +:+ String ">" (name +:+ ("</a>" +:+ rest)) =
       attrs' +:+ String ">" (name' +:+ ("</a>" +:+ rest')) ->
     (String.length attrs' <= String.length attrs)%nat /\
     (attrs' = attrs -> (String.length name' <= String.length name)%nat)) ->
  star_match not_newline (re_match anchor_tail (fun rest g => Some (rest, g)))
    (attrs +:+ String ">" (name +:+ ("</a>" +:+ rest))) g =
  Some (rest, <[2%nat := name]> g).
Proof.
  intros Ha Hn Hnl Hmax. apply star_match_longest; [exact Ha| |].
  - apply anchor_tail_first; [exact Hn | exact Hnl|].
    intros name' rest' Hnl' He.
    destruct name' as [|n0' nt']; [cbn; lia|].
    apply (Hmax attrs (String n0' nt') rest'); try assumption; try discriminate;
      [rewrite He|]; reflexivity.
  - intros w' t' He Hw' Hl.
    destruct (re_match anchor_tail _ t' g) as [[rest' g']|] eqn:Hm; [|reflexivity].
    apply anchor_tail_first_inv in Hm as (name' & -> & Hn' & Hnl' & _ & _).
    destruct (Hmax w' name' rest' Hw' Hn' Hnl' He) as [Hle _]. lia.
Qed.

Lemma anchor_attrs_first_inv (t rest : string) (g g' : gmap nat string) :
  star_match not_newline (re_match anchor_tail (fun rest g => Some (rest, g))) t g =
    Some (rest, g') ->
  exists attrs name,
    t = attrs +:+ String ">" (name +:+ ("</a>" +:+ rest)) /\
    no_char newline attrs = true /\ name <> "" /\ no_char newline name = true /\
    g' = <[2%nat := name]> g /\
    forall attrs' name' rest',
      no_char newline attrs' = true -> name' <> "" -> no_char newline name' = true ->
      attrs +:+ String ">" (name +:+ ("</a>" +:+ rest)) =
        attrs' +:+ String ">" (name' +:+ ("</a>" +:+ rest')) ->
      (String.length attrs' <= String.length attrs)%nat /\
      (attrs' = attrs -> (String.length name' <= String.length name)%nat).
Proof.
  intros (attrs & t1 & -> & Ha & H & Hmax)%star_match_inv.
  apply anchor_tail_first_inv in H as (name & -> & Hn & Hnl & -> & Hlast).
  exists attrs, name. do 5 (split; [assumption || reflexivity|]).
  intros attrs' name' rest' Ha' Hn' Hnl' He. split.
  - destruct (Nat.le_gt_cases (String.length attrs') (String.length attrs))
      as [Hle|Hgt]; [exact Hle|exfalso].
    apply (anchor_tail_found name' rest' g); [assumption..|].
    apply (Hmax attrs'); assumption.
  - intros ->. apply append_inv_head in He. injection He as He.
    apply (Hlast name' rest'); assumption.
Qed.

Lemma anchor_text_inj (url attrs name post url' attrs' name' post' : string) :
  no_char dquote url = true -> no_char dquote url' = true ->
  anchor_text url attrs name +:+ post = anchor_text url' attrs' name' +:+ post' ->
  url' = url /\
  attrs +:+ String ">" (name +:+ ("</a>" +:+ post)) =
    attrs' +:+ String ">" (name' +:+ ("</a>" +:+ post')).
Proof.
  intros Hq Hq'. rewrite !anchor_text_app. intros H.
  apply append_inv_head in H. injection H as H.
  destruct (no_char_run _ _ _ _ _ Hq Hq' H) as [-> ->]. auto.
Qed.

(** At a start position: the link runs to the next double quote, [.*]
    to the last [>] that a name and [</a>] follow, the name to the last
    [</a>]. *)
Lemma re_match_anchor_first (url attrs name post : string) :
  url <> "" -> no_char dquote url = true -> no_char newline attrs = true ->
  name <> "" -> no_char newline name = true ->
  (forall attrs' name' post',
     no_char newline attrs' = true -> name' <> "" -> no_char newline name' = true ->
     attrs +:+ String ">" (name +:+ ("</a>" +:+ post)) =
       attrs' +:+ String ">" (name' +:+ ("</a>" +:+ post')) ->
     (String.length attrs' <= String.length attrs)%nat /\
     (attrs' = attrs -> (String.length name' <= String.length name)%nat)) ->
  re_match_prefix anchor_re (anchor_text url attrs name +:+ post) =
  Some (post, <[2%nat := name]> (<[1%nat := url]> ∅)).
Proof.
  intros Hu Hq Ha Hn Hnl Hmax. rewrite anchor_text_app.
  destruct url as [|u0 url]; [congruence|].
  apply no_char_head in Hq as [Hu0 Hq].
  unfold re_match_prefix, anchor_re.
  change (seqs [lit "<a href="; chr dquote;
                RGroup 1 (many1 (fun c => negb (Ascii.eqb c dquote)));
                chr dquote; RStar not_newline; chr ">"; RGroup 2 (many1 not_newline);
                lit "</a>"])
    with (RSeq (lit "<a href=") (RSeq (chr dquote)
           (RSeq (RGroup 1 (many1 (fun c => negb (Ascii.eqb c dquote))))
              (RSeq (chr dquote) (RSeq (RStar not_newline) anchor_tail))))).
  cbn [re_match]. rewrite re_match_lit, re_match_chr.
  rewrite append_cons, re_match_many1 by (rewrite Hu0; reflexivity).
  apply star_match_app; [exact Hq|].
  rewrite star_match_stop by reflexivity.
  rewrite re_match_chr, consumed_cons_app.
  apply anchor_attrs_first; assumption.
Qed.

Lemma re_match_anchor_first_inv (t rest : string) (g : gmap nat string) :
  re_match_prefix anchor_re t = Some (rest, g) ->
  exists url attrs name,
    t = anchor_text url attrs name +:+ rest /\
    url <> "" /\ no_char dquote url = true /\ no_char newline attrs = true /\
    name <> "" /\ no_char newline name = true /\
    g = <[2%nat := name]> (<[1%nat := url]> ∅) /\
    forall attrs' name' post',
      no_char newline attrs' = true -> name' <> "" -> no_char newline name' = true ->
      attrs +:+ String ">" (name +:+ ("</a>" +:+ rest)) =
        attrs' +:+ String ">" (name' +:+ ("</a>" +:+ post')) ->
      (String.length attrs' <= String.length attrs)%nat /\
      (attrs' = attrs -> (String.length name' <= String.length name)%nat).
Proof.
  unfold re_match_prefix, anchor_re.
  change (seqs [lit "<a href="; chr dquote;
                RGroup 1 (many1 (fun c => negb (Ascii.eqb c dquote)));
                chr dquote; RStar not_newline; chr ">"; RGroup 2 (many1 not_newline);
                lit "</a>"])
    with (RSeq (lit "<a href=") (RSeq (chr dquote)
           (RSeq (RGroup 1 (many1 (fun c => negb (Ascii.eqb c dquote))))
              (RSeq (chr dquote) (RSeq (RStar not_newline) anchor_tail))))).
  cbn [re_match].
  intros (t1 & -> & H)%re_match_lit_inv.
  apply re_match_chr_inv in H as (t2 & -> & H).
  apply re_match_many1_inv in H as (u0 & t3 & -> & Hu0 & H).
  apply star_match_inv in H as (ut & t4 & -> & Hut & H & _).
  apply re_match_chr_inv in H as (t5 & -> & H).
  rewrite consumed_cons_app in H.
  apply anchor_attrs_first_inv in H as (attrs & name & -> & Ha & Hn & Hnl & -> & Hmax).
  exists (String u0 ut), attrs, name.
  split; [rewrite anchor_text_app; reflexivity|].
  split; [discriminate|].
  split; [unfold no_char; cbn [all_chars]; rewrite Hu0; exact Hut|].
  auto.
Qed.

(** The search reports the first reading of an anchor in the text. *)
Lemma re_search_first_anchor (s url name : string) :
  first_anchor s url name ->
  re_search anchor_re s = Some (<[2%nat := name]> (<[1%nat := url]> ∅)).
Proof.
  intros (pre & attrs & post & (-> & Hu & Hq & Ha & Hn & Hnl) & Hmin).
  rewrite re_search_first.
  - apply (re_search_hit _ _ post). apply re_match_anchor_first; try assumption.
    intros attrs' name' post' Ha' Hn' Hnl' He.
    apply (Hmin pre url attrs' name' post'); [|reflexivity].
    repeat split; try assumption.
    f_equal. rewrite !anchor_text_app, He. reflexivity.
  - intros w t' -> Ht'.
    destruct (re_match_prefix anchor_re _) as [[rest g]|] eqn:Hm; [exfalso|reflexivity].
    apply re_match_prefix_sound in Hm as (w0 & Hw0 & Hm).
    apply matches_anchor_text_inv in Hm
      as (url' & attrs' & name' & Hu' & Hq' & Ha' & Hn' & Hnl' & -> & _).
    destruct (Hmin w url' attrs' name' rest) as [Hle _].
    + repeat split; try assumption. rewrite append_assoc, Hw0. reflexivity.
    + rewrite length_append in Hle. destruct t'; [congruence|]. cbn in Hle. lia.
Qed.

Lemma re_search_first_anchor_inv (s : string) (g : gmap nat string) :
  re_search anchor_re s = Some g ->
  exists url name, first_anchor s url name /\ g = <[2%nat := name]> (<[1%nat := url]> ∅).
Proof.
  intros (pre & t & rest & -> & Hm & Hfirst)%re_search_first_inv.
  apply re_match_anchor_first_inv in Hm
    as (url & attrs & name & -> & Hu & Hq & Ha & Hn & Hnl & -> & Hmax).
  exists url, name. split; [|reflexivity].
  exists pre, attrs, rest. split; [repeat split; assumption|].
  intros pre' url' attrs' name' post' (He & Hu' & Hq' & Ha' & Hn' & Hnl'). split.
  - destruct (Nat.le_gt_cases (String.length pre) (String.length pre'))
      as [Hle|Hgt]; [exact Hle|exfalso].
    destruct (append_split _ _ _ _ He) as (e & -> & He'); [lia|].
    assert (Hne : e <> "").
    { intros ->. rewrite length_append in Hgt. cbn in Hgt. lia. }
    specialize (Hfirst pre' e eq_refl Hne). rewrite <- He' in Hfirst.
    revert Hfirst. unfold re_match_prefix.
    apply (re_match_complete _ _ _ _ (matches_anchor_text url' attrs' name' Hu' Hq' Ha' Hn' Hnl')).
    discriminate.
  - intros ->. apply append_inv_head in He.
    destruct (anchor_text_inj _ _ _ _ _ _ _ _ Hq Hq' He) as [-> He'].
    apply (Hmax attrs' name' post'); assumption.
Qed.

Lemma group_anchor (url name : string) :
  group (<[2%nat := name]> (<[1%nat := url]> ∅)) 1 = url /\
  group (<[2%nat := name]> (<[1%nat := url]> ∅)) 2 = name.
Proof.
  unfold group. rewrite lookup_insert_eq, lookup_insert_ne, lookup_insert_eq by discriminate.
  auto.
Qed.

(** ** Induction on nested values *)

Lemma json_size_item (l : list json) (x : json) :
  x ∈ l -> (json_size x < json_size (JList l))%nat.
Proof. induction 1; cbn in *; lia. Qed.

Lemma json_size_lookup (m : gmap string json) (k : string) (x : json) :
  m !! k = Some x -> (json_size x < json_size (JDict m))%nat.
Proof.
  intros H. cbn. rewrite <- (insert_delete_id m k x) by assumption.
  rewrite map_fold_insert_L.
  - lia.
  - intros. lia.
  - apply lookup_delete_eq.
Qed.

Lemma json_ind' (P : json -> Prop) :
  P JNull -> (forall b, P (JBool b)) -> (forall z, P (JInt z)) ->
  (forall f, P (JFloat f)) -> (forall s, P (JStr s)) ->
  (forall l, Forall P l -> P (JList l)) ->
  (forall m, map_Forall (fun _ => P) m -> P (JDict m)) ->
  forall v, P v.
Proof.
  intros HN HB HI HF HS HL HD v.
  induction v as [v IH] using (induction_ltof1 _ json_size). unfold ltof in IH.
  destruct v as [| | | | |l|m]; auto.
  - apply HL, Forall_forall. intros x Hx. apply IH, json_size_item, Hx.
  - apply HD. intros k x Hx. eapply IH, json_size_lookup, Hx.
Qed.

(** ** Trimmed values *)

Lemma trim_nulls_dict (m : gmap string json) :
  trim_nulls (JDict m) = JDict (omap trim_entry m).
Proof. reflexivity. Qed.

Lemma trim_nulls_list (l : list json) :
  trim_nulls (JList l) = JList (filter (fun x => is_null x = false) (trim_nulls <$> l)).
Proof. reflexivity. Qed.

Lemma trimmed_lookup (m : gmap string json) (k : string) (x : json) :
  trimmed (JDict m) -> m !! k = Some x -> is_null x = false /\ trimmed x.
Proof. inversion 1 as [| | | | | |? Hm]; subst. intros Hk. exact (Hm k x Hk). Qed.

Lemma trimmed_item (l : list json) (x : json) :
  trimmed (JList l) -> x ∈ l -> is_null x = false /\ trimmed x.
Proof.
  inversion 1 as [| | | | |? Hl|]; subst. intros Hx.
  rewrite Forall_forall in Hl. auto.
Qed.

Lemma trim_entry_Some (x y : json) :
  trim_entry x = Some y -> y = trim_nulls x /\ is_null y = false.
Proof.
  unfold trim_entry. cbv zeta. destruct (is_null (trim_nulls x)) eqn:E; [discriminate|].
  intros [= <-]. auto.
Qed.

(** What [trim_nulls] returns is trimmed. *)
Lemma trim_nulls_trimmed (v : json) : trimmed (trim_nulls v).
Proof.
  induction v as [| | | | |l IH|m IH] using json_ind'; try solve [constructor].
  - rewrite trim_nulls_list. constructor.
    apply Forall_forall. intros x Hx.
    apply list_elem_of_filter in Hx as [Hnull Hx].
    apply list_elem_of_fmap in Hx as (y & -> & Hy).
    rewrite Forall_forall in IH. auto.
  - rewrite trim_nulls_dict. constructor.
    intros k x Hx. rewrite lookup_omap in Hx.
    destruct (m !! k) as [y|] eqn:Hy; [|discriminate].
    cbn in Hx. apply trim_entry_Some in Hx as [-> Hn].
    split; [assumption|]. exact (IH k y Hy).
Qed.

(** A trimmed value is left as it is. *)
Lemma trim_nulls_id (v : json) : trimmed v -> trim_nulls v = v.
Proof.
  induction v as [| | | | |l IH|m IH] using json_ind'; try reflexivity; intros Ht.
  - rewrite trim_nulls_list. f_equal.
    assert (Hmap : trim_nulls <$> l = l).
    { rewrite <- (list_fmap_id l) at 2. apply list_fmap_ext.
      intros i x Hx. rewrite Forall_forall in IH.
      apply list_elem_of_lookup_2 in Hx. apply IH; [assumption|].
      apply (trimmed_item l x Ht Hx). }
    rewrite Hmap. 
    inversion Ht as [| | | | |? Hl|]; subst. clear -Hl.
    induction Hl as [|x l [Hx _] _ IHl]; [reflexivity|].
    rewrite filter_cons_True by assumption. f_equal. exact IHl.
  - rewrite trim_nulls_dict. f_equal. apply map_eq. intros k.
    rewrite lookup_omap. destruct (m !! k) as [x|] eqn:Hx; [|reflexivity].
    cbn. destruct (trimmed_lookup m k x Ht Hx) as [Hn Hx'].
    unfold trim_entry. cbv zeta. rewrite (IH k x Hx Hx'), Hn. reflexivity.
Qed.

Lemma trim_entry_trimmed (v : json) :
  trimmed v -> is_null v = false -> trim_entry v = Some v.
Proof.
  intros Ht Hn. unfold trim_entry. cbv zeta. rewrite (trim_nulls_id v Ht), Hn. reflexivity.
Qed.

Lemma trimmed_insert (m : gmap string json) (k : string) (x : json) :
  is_null x = false -> trimmed x -> trimmed (JDict m) -> trimmed (JDict (<[k := x]> m)).
Proof.
  intros Hn Hx Hm. constructor. apply map_Forall_insert_2; [auto|].
  inversion Hm; assumption.
Qed.

Lemma trimmed_empty : trimmed (JDict ∅).
Proof. constructor. apply map_Forall_empty. Qed.

Lemma trimmed_singleton (k : string) (x : json) :
  is_null x = false -> trimmed x -> trimmed (JDict {[ k := x ]}).
Proof. intros. rewrite <- insert_empty. apply trimmed_insert; auto using trimmed_empty. Qed.

Lemma trimmed_list_1 (x : json) : is_null x = false -> trimmed x -> trimmed (JList [x]).
Proof. intros. constructor. repeat constructor; assumption. Qed.

Lemma trimmed_union (a b : gmap string json) :
  trimmed (JDict a) -> trimmed (JDict b) -> trimmed (JDict (a ∪ b)).
Proof.
  intros Ha Hb. constructor. intros k x Hx.
  apply lookup_union_Some_raw in Hx as [Hx | [_ Hx]].
  - exact (trimmed_lookup a k x Ha Hx).
  - exact (trimmed_lookup b k x Hb Hx).
Qed.

Lemma is_null_insert (m : gmap string json) (k : string) (x : json) :
  is_null (JDict (<[k := x]> m)) = false.
Proof. cbn. apply bool_decide_eq_false_2, insert_non_empty. Qed.

Lemma is_null_singleton (k : string) (x : json) : is_null (JDict {[ k := x ]}) = false.
Proof. rewrite <- insert_empty. apply is_null_insert. Qed.

Lemma is_null_str (s : string) : s <> "" -> is_null (JStr s) = false.
Proof. destruct s; [congruence | reflexivity]. Qed.

(** ** Unfolding the recursion of [tweet_to_object] *)

Section Unfolding.
Context {src : Source} {rp : PyRepr}.

Lemma tweet_to_object_fix (tweet : json) :
  tweet_to_object tweet =
  tweet_to_object_with
    (match tweet with
     | JDict m => default (Ok []) ((convert_retweets tweet_to_object <$> m) !! "retweets")
     | _ => Raise AttributeError
     end) tweet.
Proof. destruct tweet; reflexivity. Qed.

(** The recursion is the list comprehension of the source:
    [[self.retweet_to_object(r) for r in tweet.get('retweets', [])]]. *)
Lemma tweet_to_object_unfold (tweet : json) :
  tweet_to_object tweet =
  tweet_to_object_with
    (rts ← py_get tweet "retweets" (JList []);
     rs ← py_iter rts;
     mapM retweet_to_object rs) tweet.
Proof.
  rewrite tweet_to_object_fix.
  destruct tweet as [| | | | | |m]; try reflexivity.
  f_equal. cbn [py_get]. rewrite bind_Ok, lookup_fmap.
  destruct (m !! "retweets") as [rts|]; [|reflexivity].
  cbn [fmap option_fmap option_map default].
  destruct rts as [| | | |s|l|d]; try reflexivity.
  - cbn [convert_retweets py_iter]. rewrite !bind_Ok.
    apply mapM_ext_Forall. induction s; constructor; auto.
  - cbn [convert_retweets py_iter]. rewrite !bind_Ok.
    apply mapM_ext_Forall. apply Forall_fmap, Forall_true. intro; reflexivity.
Qed.

(** The first steps of [tweet_to_object]: the id, then the timestamp. *)

Lemma tweet_to_object_with_no_id (shares : result (list json)) (m : gmap string json) :
  truthy (default JNull (m !! "id_str")) = false ->
  tweet_to_object_with shares (JDict m) = Ok (JDict ∅).
Proof.
  intros Hid. unfold tweet_to_object_with. py_simpl. rewrite Hid. reflexivity.
Qed.

Lemma tweet_to_object_no_id (m : gmap string json) :
  truthy (default JNull (m !! "id_str")) = false ->
  tweet_to_object (JDict m) = Ok (JDict ∅).
Proof. intros. rewrite tweet_to_object_unfold. now apply tweet_to_object_with_no_id. Qed.

(** A timestamp that [rfc2822_to_iso8601] refuses makes the object
    conversion fail with the same exception. *)
Lemma tweet_to_object_bad_created_at (m : gmap string json) (id created : json) (e : exn) :
  m !! "id_str" = Some id -> truthy id = true ->
  m !! "created_at" = Some created ->
  rfc2822_to_iso8601 created = Raise e ->
  tweet_to_object (JDict m) = Raise e.
Proof.
  intros Hid Ht Hc He. rewrite tweet_to_object_unfold.
  unfold tweet_to_object_with. py_simpl.
  rewrite Hid, Hc. py_simpl. rewrite Ht. py_simpl. rewrite He. reflexivity.
Qed.

(** What [tweet_to_object] returns is the empty dict or a trimmed dict. *)

Lemma tweet_to_object_with_Ok (shares : result (list json)) (tweet v : json) :
  tweet_to_object_with shares tweet = Ok v ->
  v = JDict ∅ \/ exists object : gmap string json, v = trim_nulls (JDict object).
Proof.
  unfold tweet_to_object_with. intros H.
  apply bind_Ok_inv in H as (id & _ & H).
  destruct (negb (truthy id)); [injection H as <-; now left|].
  right.
  repeat (apply bind_Ok_inv in H as (? & _ & H)).
  injection H as <-. eauto.
Qed.

Lemma tweet_to_object_Ok_dict (tweet v : json) :
  tweet_to_object tweet = Ok v -> exists d : gmap string json, v = JDict d.
Proof.
  rewrite tweet_to_object_unfold. intros H.
  apply tweet_to_object_with_Ok in H as [-> | [object ->]]; eauto.
Qed.

End Unfolding.

(** ** Substitution of the offset *)

Lemma re_sub_from_nomatch (r : regex) (repl : string) (c : ascii) (s : string) :
  re_match_prefix r (String c s) = None ->
  re_sub_from r repl 0 (String c s) = String c (re_sub_from r repl 0 s).
Proof. intros H. cbn [re_sub_from]. rewrite H. reflexivity. Qed.

Lemma re_sub_from_match (r : regex) (repl : string) (c : ascii) (s rest : string)
    (g : gmap nat string) (n : nat) :
  re_match_prefix r (String c s) = Some (rest, g) ->
  (String.length (String c s) - String.length rest)%nat = S n ->
  re_sub_from r repl 0 (String c s) = repl +:+ re_sub_from r repl n s.
Proof. intros H Hn. cbn [re_sub_from]. rewrite H, Hn. reflexivity. Qed.

(** The offset pattern matches a blank, a sign, four digits and a blank. *)
Lemma utc_offset_match (sign d1 d2 d3 d4 : ascii) (rest : string) :
  sign = "+"%char \/ sign = "-"%char ->
  is_digit d1 = true -> is_digit d2 = true -> is_digit d3 = true -> is_digit d4 = true ->
  re_match_prefix utc_offset_re
    (String " " (String sign (String d1 (String d2 (String d3 (String d4 (String " " rest)))))))
  = Some (rest, ∅).
Proof.
  intros Hs H1 H2 H3 H4. unfold re_match_prefix, utc_offset_re.
  cbn [seqs re_match chr digit]. rewrite H1, H2, H3, H4.
  destruct Hs as [-> | ->]; reflexivity.
Qed.

(** Whatever the offset, the text parsed is the text without it. *)
Lemma re_sub_utc_offset (sign d1 d2 d3 d4 : ascii) :
  sign = "+"%char \/ sign = "-"%char ->
  is_digit d1 = true -> is_digit d2 = true -> is_digit d3 = true -> is_digit d4 = true ->
  re_sub utc_offset_re " "
    ("Wed May 23 06:01:13 " +:+
       String sign (String d1 (String d2 (String d3 (String d4 " 2007")))))
  = "Wed May 23 06:01:13 2007".
Proof.
  intros Hs H1 H2 H3 H4. unfold re_sub.
  change ("Wed May 23 06:01:13 " +:+
            String sign (String d1 (String d2 (String d3 (String d4 " 2007")))))
    with ("Wed May 23 06:01:13" +:+
            String " " (String sign (String d1 (String d2 (String d3 (String d4
                 (String " " "2007"))))))).
  repeat (rewrite append_cons, re_sub_from_nomatch by reflexivity).
  rewrite append_nil_l.
  rewrite (re_sub_from_match _ _ _ _ "2007" ∅ 6); [reflexivity | | reflexivity].
  apply utc_offset_match; assumption.
Qed.

(** ** The conversions of the sample records *)

Lemma sample_actor_eq :
  @user_to_actor sample_source sample_repr (JDict sample_user) = Ok (JDict sample_actor).
Proof. vm_compute. reflexivity. Qed.

Lemma sample_share_eq :
  @retweet_to_object sample_source sample_repr (JDict sample_retweet) = Ok sample_share.
Proof. vm_compute. reflexivity. Qed.

Lemma sample_object_eq :
  @tweet_to_object sample_source sample_repr (JDict sample_tweet) = Ok (JDict sample_object).
Proof. vm_compute. reflexivity. Qed.

Lemma sample_activity_eq :
  @tweet_to_activity sample_source sample_repr (JDict sample_tweet) = Ok (JDict sample_activity).
Proof. vm_compute. reflexivity. Qed.

Lemma sample_client_activity_eq :
  @tweet_to_activity sample_source sample_repr (JDict sample_client_tweet) =
    Ok (JDict sample_client_activity).
Proof. vm_compute. reflexivity. Qed.

Lemma sample_links_activity_eq :
  @tweet_to_activity sample_source sample_repr (JDict sample_links_tweet) =
    Ok (JDict sample_links_activity).
Proof. vm_compute. reflexivity. Qed.

Lemma sample_plain_activity_eq :
  @tweet_to_activity sample_source sample_repr (JDict sample_plain_tweet) =
    Ok (JDict sample_plain_activity).
Proof. vm_compute. reflexivity. Qed.

(** ** Timestamps *)

(** C3: [rfc2822_to_iso8601] maps an absent input ([None] or the empty
    string) to [None], and maps ["Wed May 23 06:01:13 +0000 2007"] to
    ["2007-05-23T06:01:13"]: the offset token is removed from the text
    before parsing (the text parsed is ["Wed May 23 06:01:13 2007"]), and
    the hour and minute are those of the input whatever the offset says:
    every offset (a sign and four digits) in place of [+0000] gives the
    same result. *)
Theorem rfc2822_to_iso8601_example :
  rfc2822_to_iso8601 JNull = Ok JNull /\
  rfc2822_to_iso8601 (JStr "") = Ok JNull /\
  rfc2822_to_iso8601 (JStr "Wed May 23 06:01:13 +0000 2007") = Ok (JStr "2007-05-23T06:01:13") /\
  re_sub utc_offset_re " " "Wed May 23 06:01:13 +0000 2007" = "Wed May 23 06:01:13 2007" /\
  (forall sign d1 d2 d3 d4 : ascii,
     sign = "+"%char \/ sign = "-"%char ->
     is_digit d1 = true -> is_digit d2 = true -> is_digit d3 = true -> is_digit d4 = true ->
     rfc2822_to_iso8601
       (JStr ("Wed May 23 06:01:13 " +:+
                String sign (String d1 (String d2 (String d3 (String d4 " 2007"))))))
     = Ok (JStr "2007-05-23T06:01:13")).
Proof.
  do 4 (split; [vm_compute; reflexivity|]).
  intros sign d1 d2 d3 d4 Hs H1 H2 H3 H4.
  change (rfc2822_to_iso8601 (JStr (?s))) with
    (dt ← strptime (re_sub utc_offset_re " " s); Ok (JStr (isoformat dt))).
  rewrite (re_sub_utc_offset sign d1 d2 d3 d4 Hs H1 H2 H3 H4).
  vm_compute. reflexivity.
Qed.

(** [rfc2822_to_iso8601_example] on the offset [-0700]. *)
Lemma rfc2822_to_iso8601_example_witness :
  rfc2822_to_iso8601 (JStr "Wed May 23 06:01:13 -0700 2007") = Ok (JStr "2007-05-23T06:01:13").
Proof.
  apply (proj2 (proj2 (proj2 (proj2 rfc2822_to_iso8601_example))) "-" "0" "7" "0" "0")%char;
    solve [right; reflexivity | reflexivity].
Defined.

(** C9: there is a non-empty timestamp, ["yesterday"], that does not fit
    the layout after offset stripping and on which [rfc2822_to_iso8601]
    raises [ValueError]; every tweet with an id and that ['created_at']
    makes [tweet_to_object] raise [ValueError] as well, instead of leaving
    ['published'] out. *)
Theorem bad_timestamp_raises :
  exists s : string,
    s <> "" /\
    re_match_prefix strptime_re (re_sub utc_offset_re " " s) = None /\
    rfc2822_to_iso8601 (JStr s) = Raise ValueError /\
    forall (src : Source) (rp : PyRepr) (m : gmap string json) (id : json),
      m !! "id_str" = Some id -> truthy id = true ->
      m !! "created_at" = Some (JStr s) ->
      tweet_to_object (JDict m) = Raise ValueError.
Proof.
  exists "yesterday". split; [discriminate|].
  split; [vm_compute; reflexivity|].
  assert (H : rfc2822_to_iso8601 (JStr "yesterday") = Raise ValueError)
    by (vm_compute; reflexivity).
  split; [exact H|]. intros src' rp' m id Hid Ht Hc.
  eapply tweet_to_object_bad_created_at; eauto.
Qed.

(** ** Records without an id *)

Section NoId.
Context {src : Source} {rp : PyRepr}.

(** C1 (amended): for a record without ['id_str'], [tweet_to_object]
    returns the empty mapping; [tweet_to_activity] raises nothing either
    when ['source'] is absent or a string, and returns a mapping that has
    [verb = "post"] and none of [id], [url], [published], [actor] and
    [object]. *)
Theorem no_id_conversions (m : gmap string json) :
  m !! "id_str" = None ->
  tweet_to_object (JDict m) = Ok (JDict ∅) /\
  ((m !! "source" = None \/ exists s, m !! "source" = Some (JStr s)) ->
   exists activity : gmap string json,
     tweet_to_activity (JDict m) = Ok (JDict activity) /\
     activity !! "verb" = Some (JStr "post") /\
     activity !! "id" = None /\ activity !! "url" = None /\
     activity !! "published" = None /\ activity !! "actor" = None /\
     activity !! "object" = None).
Proof.
  intros Hid.
  assert (Hobj : tweet_to_object (JDict m) = Ok (JDict ∅)).
  { apply tweet_to_object_no_id. rewrite Hid. reflexivity. }
  split; [exact Hobj|]. intros Hsrc.
  unfold tweet_to_activity, tweet_to_activity_dict.
  rewrite Hobj. py_simpl. rewrite !lookup_empty. py_simpl.
  assert (Hs : exists parsed, search_groups anchor_re (default (JStr "") (m !! "source")) = Ok parsed).
  { destruct Hsrc as [-> | [s ->]]; cbn; eauto. }
  destruct Hs as [parsed ->]. py_simpl. unfold postprocess_activity.
  rewrite trim_nulls_dict. eexists. split; [reflexivity|].
  rewrite !lookup_omap.
  unfold set_generator, set_context.
  destruct parsed as [[url name]|];
    destruct (truthy (default JNull (m !! "in_reply_to_status_id")) &&
              truthy (default JNull (m !! "in_reply_to_screen_name")));
    repeat split; simplify_map_eq; reflexivity.
Qed.

End NoId.

(** C1, as stated, fails for the activity conversion: the empty record
    has no ['id_str'], and its activity is not the empty mapping. *)
Lemma no_id_activity_not_empty :
  @tweet_to_activity sample_source sample_repr (JDict ∅) = Ok (JDict {[ "verb" := JStr "post" ]}) /\
  @tweet_to_activity sample_source sample_repr (JDict ∅) <> Ok (JDict ∅).
Proof. split; [vm_compute; reflexivity | vm_compute; discriminate]. Qed.

(** [no_id_conversions] on a record that has only a text. *)
Lemma no_id_conversions_witness :
  @tweet_to_object sample_source sample_repr (JDict {[ "text" := JStr "hi" ]}) = Ok (JDict ∅) /\
  exists activity : gmap string json,
     @tweet_to_activity sample_source sample_repr (JDict {[ "text" := JStr "hi" ]}) = Ok (JDict activity) /\
     activity !! "verb" = Some (JStr "post") /\
     activity !! "id" = None /\ activity !! "url" = None /\
     activity !! "published" = None /\ activity !! "actor" = None /\
     activity !! "object" = None.
Proof.
  destruct (@no_id_conversions sample_source sample_repr {[ "text" := JStr "hi" ]}) as [H1 H2].
  - reflexivity.
  - split; [exact H1|]. apply H2. left. reflexivity.
Defined.

(** ** Actors *)

Section Actors.
Context {src : Source} {rp : PyRepr}.

(** C8 (amended): for every user mapping whose ['screen_name'] is missing
    or empty, the empty mapping included, [user_to_actor] returns the
    empty mapping without raising; for a user with a screen name,
    [user_to_actor] returns when the ['created_at'] timestamp converts, and
    the [url] of the result is [http://twitter.com/<username>]. *)
Theorem user_to_actor_spec (user : gmap string json) :
  (truthy (default JNull (user !! "screen_name")) = false ->
   user_to_actor (JDict user) = Ok (JDict ∅)) /\
  (forall username : string,
     user !! "screen_name" = Some (JStr username) -> username <> "" ->
     (is_Ok (rfc2822_to_iso8601 (default JNull (user !! "created_at"))) ->
      is_Ok (user_to_actor (JDict user))) /\
     (forall actor : gmap string json,
        user_to_actor (JDict user) = Ok (JDict actor) ->
        actor !! "url" = Some (JStr ("http://twitter.com/" +:+ username)))).
Proof.
  split.
  - intros Hn. unfold user_to_actor. py_simpl. rewrite Hn. reflexivity.
  - intros username Hu Hne.
    assert (Ht : truthy (JStr username) = true).
    { destruct username; [congruence | reflexivity]. }
    unfold user_to_actor. py_simpl. rewrite Hu. py_simpl. rewrite Ht. py_simpl.
    split.
    + intros [published ->]. py_simpl. eexists. reflexivity.
    + intros actor.
      destruct (rfc2822_to_iso8601 _) as [published|e]; [|discriminate].
      py_simpl. rewrite trim_nulls_dict. intros [= <-].
      rewrite lookup_omap. simplify_map_eq. reflexivity.
Qed.

End Actors.

(** C8, as stated, fails for an absent user: [None] has no [get]. *)
Lemma user_to_actor_absent_raises :
  @user_to_actor sample_source sample_repr JNull = Raise AttributeError.
Proof. reflexivity. Qed.

(** [user_to_actor_spec] on the empty user and on [sample_user]. *)
Lemma user_to_actor_spec_witness :
  @user_to_actor sample_source sample_repr (JDict ∅) = Ok (JDict ∅) /\
  is_Ok (@user_to_actor sample_source sample_repr (JDict sample_user)) /\
  sample_actor !! "url" = Some (JStr "http://twitter.com/alice").
Proof.
  split.
  - apply (proj1 (@user_to_actor_spec sample_source sample_repr ∅)). reflexivity.
  - destruct (proj2 (@user_to_actor_spec sample_source sample_repr sample_user) "alice")
      as [H1 H2].
    + reflexivity.
    + discriminate.
    + split.
      * apply H1. eexists. vm_compute. reflexivity.
      * apply H2. exact sample_actor_eq.
Defined.

(** ** Shares *)

Section Shares.
Context {src : Source} {rp : PyRepr}.

Lemma retweet_to_object_Ok (retweet : gmap string json) (orig share : json) :
  retweet !! "retweeted_status" = Some orig -> truthy orig = true ->
  retweet_to_object (JDict retweet) = Ok share ->
  exists (wrapper o u : gmap string json),
    tweet_to_object (JDict retweet) = Ok (JDict wrapper) /\
    orig = JDict o /\ default (JDict ∅) (o !! "user") = JDict u /\
    share = JDict (share_fields (default JNull (u !! "screen_name"))
                                (default JNull (o !! "id_str")) ∪ wrapper).
Proof.
  intros Ho Ht. unfold retweet_to_object, retweet_to_object_with. py_simpl.
  rewrite Ho. py_simpl. rewrite Ht. py_simpl. intros H.
  apply bind_Ok_inv in H as (w & Hw & H).
  destruct (tweet_to_object_Ok_dict _ _ Hw) as [wrapper ->].
  destruct orig as [| | | | | |o]; try discriminate H.
  py_simpl in H.
  destruct (default (JDict ∅) (o !! "user")) as [| | | | | |u] eqn:Hu; try discriminate H.
  py_simpl in H. cbn [py_update] in H. injection H as <-.
  exists wrapper, o, u. auto.
Qed.

(** C5: [retweet_to_object] returns [None] when the record has no
    ['retweeted_status'] (or an empty one).  When it has one (a mapping
    whose ['user'], if any, is a mapping), the conversion is that of the
    wrapper, overwritten with the share fields, so it returns whenever
    the wrapper converts; and whenever it returns, the result has
    [objectType = "activity"], [verb = "share"],
    [content = "retweeted this."] and [object = {url: status URL of the
    original's author and id}]; for author [alice] and id [42] that URL is
    [http://twitter.com/alice/status/42]. *)
Theorem retweet_to_object_spec (retweet : gmap string json) :
  (truthy (default JNull (retweet !! "retweeted_status")) = false ->
   retweet_to_object (JDict retweet) = Ok JNull) /\
  (forall o u : gmap string json,
     retweet !! "retweeted_status" = Some (JDict o) -> o <> ∅ ->
     default (JDict ∅) (o !! "user") = JDict u ->
     retweet_to_object (JDict retweet) =
       (wrapper ← tweet_to_object (JDict retweet);
        py_update wrapper (share_fields (default JNull (u !! "screen_name"))
                                        (default JNull (o !! "id_str"))))) /\
  (forall orig share : json,
     retweet !! "retweeted_status" = Some orig -> truthy orig = true ->
     retweet_to_object (JDict retweet) = Ok share ->
     exists d o u : gmap string json,
       share = JDict d /\ orig = JDict o /\ default (JDict ∅) (o !! "user") = JDict u /\
       d !! "objectType" = Some (JStr "activity") /\
       d !! "verb" = Some (JStr "share") /\
       d !! "content" = Some (JStr "retweeted this.") /\
       d !! "object" =
         Some (JDict {[ "url" := JStr (status_url (default JNull (u !! "screen_name"))
                                                  (default JNull (o !! "id_str"))) ]})) /\
  status_url (JStr "alice") (JStr "42") = "http://twitter.com/alice/status/42".
Proof.
  split; [|split; [|split; [|reflexivity]]].
  - intros Hn. unfold retweet_to_object, retweet_to_object_with. py_simpl.
    rewrite Hn. reflexivity.
  - intros o u Ho Hne Hu. unfold retweet_to_object, retweet_to_object_with. py_simpl.
    rewrite Ho. py_simpl.
    assert (Ht : truthy (JDict o) = true).
    { cbn. rewrite bool_decide_eq_false_2; [reflexivity | assumption]. }
    rewrite Ht. py_simpl. rewrite Hu. py_simpl. reflexivity.
  - intros orig share Ho Ht H.
    destruct (retweet_to_object_Ok _ _ _ Ho Ht H) as (w & o & u & _ & -> & Hu & ->).
    exists (share_fields (default JNull (u !! "screen_name")) (default JNull (o !! "id_str")) ∪ w), o, u.
    repeat split; try assumption;
      (erewrite lookup_union_Some_l; [reflexivity | unfold share_fields; simplify_map_eq; reflexivity]).
Qed.

(** C10: a retweet record that carries a nested ['retweeted_status'] (a
    non-empty mapping whose ['user'], if any, is a mapping) and has no
    ['id_str'] is converted to exactly the four share fields: the empty
    result of [tweet_to_object] does not make the share empty. *)
Theorem retweet_without_id (retweet orig : gmap string json) :
  retweet !! "id_str" = None ->
  retweet !! "retweeted_status" = Some (JDict orig) -> orig <> ∅ ->
  (orig !! "user" = None \/ exists u : gmap string json, orig !! "user" = Some (JDict u)) ->
  exists screen_name : json,
    retweet_to_object (JDict retweet) =
      Ok (JDict {[ "objectType" := JStr "activity";
                   "verb" := JStr "share";
                   "object" := JDict {[ "url" := JStr (status_url screen_name
                                                   (default JNull (orig !! "id_str"))) ]};
                   "content" := JStr "retweeted this." ]}) /\
    retweet_to_object (JDict retweet) <> Ok (JDict ∅).
Proof.
  intros Hid Ho Hne Hu.
  assert (Hobj : tweet_to_object (JDict retweet) = Ok (JDict ∅)).
  { apply tweet_to_object_no_id. rewrite Hid. reflexivity. }
  assert (Hu' : exists u : gmap string json, default (JDict ∅) (orig !! "user") = JDict u).
  { destruct Hu as [-> | [u ->]]; cbn; eauto. }
  destruct Hu' as [u Hu'].
  exists (default JNull (u !! "screen_name")).
  assert (Heq : retweet_to_object (JDict retweet) =
                Ok (JDict (share_fields (default JNull (u !! "screen_name"))
                                        (default JNull (orig !! "id_str"))))).
  { unfold retweet_to_object, retweet_to_object_with. rewrite Hobj. py_simpl.
    rewrite Ho. py_simpl.
    assert (Ht : truthy (JDict orig) = true).
    { cbn. rewrite bool_decide_eq_false_2; [reflexivity | assumption]. }
    rewrite Ht. py_simpl. rewrite Hu'. py_simpl. cbn [py_update].
    rewrite (right_id_L ∅ (∪)). reflexivity. }
  split; [exact Heq|].
  rewrite Heq. intros H.
  apply (f_equal (fun r => match r with Ok (JDict d) => d !! "verb" | _ => None end)) in H.
  unfold share_fields in H. simplify_map_eq.
Qed.

End Shares.

(** [retweet_to_object_spec] on [sample_retweet], whose original is the
    status [42] of [alice]. *)
Lemma retweet_to_object_spec_witness :
  @retweet_to_object sample_source sample_repr (JDict ∅) = Ok JNull /\
  exists d o u : gmap string json,
    sample_share = JDict d /\ JDict sample_orig = JDict o /\
    default (JDict ∅) (o !! "user") = JDict u /\
    d !! "objectType" = Some (JStr "activity") /\
    d !! "verb" = Some (JStr "share") /\
    d !! "content" = Some (JStr "retweeted this.") /\
    d !! "object" =
      Some (JDict {[ "url" := JStr (@status_url sample_repr (default JNull (u !! "screen_name"))
                                               (default JNull (o !! "id_str"))) ]}).
Proof.
  split.
  - apply (proj1 (@retweet_to_object_spec sample_source sample_repr ∅)). reflexivity.
  - apply (proj1 (proj2 (proj2 (@retweet_to_object_spec sample_source sample_repr sample_retweet)))
             (JDict sample_orig) sample_share).
    + vm_compute. reflexivity.
    + vm_compute. reflexivity.
    + exact sample_share_eq.
Defined.

(** [retweet_without_id] on a retweet of the same original that has no
    ['id_str']. *)
Lemma retweet_without_id_witness :
  exists screen_name : json,
    @retweet_to_object sample_source sample_repr
      (JDict {[ "retweeted_status" := JDict sample_orig ]}) =
      Ok (JDict {[ "objectType" := JStr "activity";
                   "verb" := JStr "share";
                   "object" := JDict {[ "url" := JStr (@status_url sample_repr screen_name
                                                   (default JNull (sample_orig !! "id_str"))) ]};
                   "content" := JStr "retweeted this." ]}) /\
    @retweet_to_object sample_source sample_repr
      (JDict {[ "retweeted_status" := JDict sample_orig ]}) <> Ok (JDict ∅).
Proof.
  apply (@retweet_without_id sample_source sample_repr
           {[ "retweeted_status" := JDict sample_orig ]} sample_orig).
  - vm_compute. reflexivity.
  - vm_compute. reflexivity.
  - intros H. apply (f_equal (fun m : gmap string json => m !! "id_str")) in H.
    vm_compute in H. discriminate H.
  - right. exists sample_user. vm_compute. reflexivity.
Defined.

(** ** Activities *)

Section Activities.
Context {src : Source} {rp : PyRepr}.

(** The activity dict before trimming, for a converted object. *)
Lemma tweet_to_activity_Ok (tweet : gmap string json) (out : json) :
  tweet_to_activity (JDict tweet) = Ok out ->
  exists (object : gmap string json) (parsed : option (string * string)),
    tweet_to_object (JDict tweet) = Ok (JDict object) /\
    search_groups anchor_re (default (JStr "") (tweet !! "source")) = Ok parsed /\
    out = trim_nulls (JDict
      (set_generator parsed
        (set_context (default JNull (tweet !! "in_reply_to_status_id"))
                     (default JNull (tweet !! "in_reply_to_screen_name"))
           {[ "verb" := JStr "post";
              "published" := default JNull (object !! "published");
              "id" := default JNull (object !! "id");
              "url" := default JNull (object !! "url");
              "actor" := default JNull (object !! "author");
              "object" := JDict object ]}))).
Proof.
  unfold tweet_to_activity, tweet_to_activity_dict. intros H.
  apply bind_Ok_inv in H as (act & Hact & H).
  apply bind_Ok_inv in Hact as (obj & Hobj & Hact).
  destruct (tweet_to_object_Ok_dict _ _ Hobj) as [object ->].
  py_simpl in Hact.
  apply bind_Ok_inv in Hact as (parsed & Hparsed & Hact).
  injection Hact as <-. injection H as <-.
  exists object, parsed. repeat split; auto.
Qed.

Lemma tweet_to_activity_is_Ok (tweet : gmap string json) (s : string) :
  default (JStr "") (tweet !! "source") = JStr s ->
  is_Ok (tweet_to_object (JDict tweet)) -> is_Ok (tweet_to_activity (JDict tweet)).
Proof.
  intros Hs [obj Hobj]. destruct (tweet_to_object_Ok_dict _ _ Hobj) as [object ->].
  unfold tweet_to_activity, tweet_to_activity_dict. rewrite Hobj. py_simpl.
  rewrite Hs. cbn [search_groups]. py_simpl. eexists. reflexivity.
Qed.

Lemma set_generator_lookup_ne (parsed : option (string * string))
    (activity : gmap string json) (k : string) :
  k <> "generator" -> set_generator parsed activity !! k = activity !! k.
Proof.
  intros Hk. destruct parsed as [[url name]|]; [|reflexivity].
  cbn. rewrite lookup_insert_ne; auto.
Qed.

Lemma status_url_neq (username id : json) : status_url username id <> "".
Proof. discriminate. Qed.

(** C6: when the activity conversion returns, its result has a
    [context] exactly when the reply-to status id and the reply-to screen
    name are both present (truthy): the context is then [inReplyTo] with
    the single parent [{objectType: note, id: tag URI, url: status URL}],
    and there is no [context] key when either one is missing. *)
Theorem reply_context (tweet activity : gmap string json) :
  tweet_to_activity (JDict tweet) = Ok (JDict activity) ->
  (truthy (default JNull (tweet !! "in_reply_to_status_id")) = true ->
   truthy (default JNull (tweet !! "in_reply_to_screen_name")) = true ->
   tag_uri (default JNull (tweet !! "in_reply_to_status_id")) <> "" ->
   activity !! "context" =
     Some (JDict {[ "inReplyTo" := JList [JDict {[
       "objectType" := JStr "note";
       "id" := JStr (tag_uri (default JNull (tweet !! "in_reply_to_status_id")));
       "url" := JStr (status_url (default JNull (tweet !! "in_reply_to_screen_name"))
                                 (default JNull (tweet !! "in_reply_to_status_id"))) ]}] ]})) /\
  (truthy (default JNull (tweet !! "in_reply_to_status_id")) = false \/
   truthy (default JNull (tweet !! "in_reply_to_screen_name")) = false ->
   activity !! "context" = None).
Proof.
  intros H. apply tweet_to_activity_Ok in H as (object & parsed & _ & _ & H).
  rewrite trim_nulls_dict in H. injection H as ->.
  rewrite lookup_omap, set_generator_lookup_ne by discriminate.
  unfold set_context. split.
  - intros Hid Hsn Htag. rewrite Hid, Hsn. cbn [andb].
    rewrite lookup_insert_eq. cbn [mbind option_bind].
    apply trim_entry_trimmed; [|apply is_null_singleton].
    apply trimmed_singleton; [reflexivity|].
    apply trimmed_list_1; [apply is_null_insert|].
    repeat first [ apply trimmed_insert | apply trimmed_singleton ];
      auto using trimmed_str, trimmed_empty, is_null_str, status_url_neq.
  - intros Hf.
    assert (Hb : truthy (default JNull (tweet !! "in_reply_to_status_id")) &&
                 truthy (default JNull (tweet !! "in_reply_to_screen_name")) = false).
    { destruct Hf as [-> | ->]; [reflexivity | apply andb_false_r]. }
    rewrite Hb. simplify_map_eq. reflexivity.
Qed.

(** The generator of a converted tweet is what the search finds in the
    ['source'] string. *)
Lemma generator_parsed (tweet activity : gmap string json) (s : string) :
  default (JStr "") (tweet !! "source") = JStr s ->
  tweet_to_activity (JDict tweet) = Ok (JDict activity) ->
  activity !! "generator" =
    match re_search anchor_re s with
    | Some g => Some (JDict {[ "displayName" := JStr (group g 2); "url" := JStr (group g 1) ]})
    | None => None
    end.
Proof.
  intros Hs H.
  apply tweet_to_activity_Ok in H as (object & parsed & _ & Hp & H).
  rewrite trim_nulls_dict in H. injection H as ->.
  rewrite Hs in Hp. cbn [search_groups] in Hp. injection Hp as <-.
  rewrite lookup_omap.
  destruct (re_search anchor_re s) as [g|] eqn:Hg.
  - apply re_search_anchor_in in Hg as (_ & _ & _ & _ & Hu & _ & _ & Hn & _).
    cbn [set_generator]. rewrite lookup_insert_eq. cbn [mbind option_bind].
    apply trim_entry_trimmed; [|apply is_null_insert].
    repeat apply trimmed_insert; auto using trimmed_str, trimmed_empty, is_null_str.
  - cbn [set_generator]. unfold set_context.
    destruct (truthy _ && truthy _); simplify_map_eq; reflexivity.
Qed.

(** C7: for a tweet whose generator string is [s] (the empty string when
    ['source'] is absent), the generator step raises nothing: the
    activity conversion returns whenever the object conversion does.
    When it returns, the result has no [generator] key exactly when no
    part of [s] reads as an anchor [<a href=Q url Q attrs>name</a>] (Q
    the double quote; [url] not empty and without double quote, [name]
    not empty, [attrs] and [name] without newline).  Otherwise
    [generator] is [{displayName: name, url: url}] for the first such
    reading of [s], the one [re.search] reports: leftmost start, then
    longest [attrs], then longest [name].  In particular, when [s] is
    [pre], one anchor and [post], with no [<] in [pre] and no [>] in
    [attrs], [name] and [post], the generator has that anchor's [url]
    and [name]; and when [s] has no [<] at all, there is no [generator]
    key. *)
Theorem generator_field (tweet : gmap string json) (s : string) :
  default (JStr "") (tweet !! "source") = JStr s ->
  (is_Ok (tweet_to_object (JDict tweet)) -> is_Ok (tweet_to_activity (JDict tweet))) /\
  (forall activity : gmap string json,
     tweet_to_activity (JDict tweet) = Ok (JDict activity) ->
     (activity !! "generator" = None <-> ~ exists url name : string, anchor_in s url name) /\
     (forall gen : json,
        activity !! "generator" = Some gen ->
        exists url name : string,
          first_anchor s url name /\
          gen = JDict {[ "displayName" := JStr name; "url" := JStr url ]}) /\
     (forall url name : string,
        first_anchor s url name ->
        activity !! "generator" =
          Some (JDict {[ "displayName" := JStr name; "url" := JStr url ]})) /\
     (forall pre url attrs name post : string,
        s = pre +:+ anchor_text url attrs name +:+ post ->
        no_char "<" pre = true ->
        url <> "" -> no_char dquote url = true ->
        no_char ">" attrs = true -> no_char newline attrs = true ->
        name <> "" -> no_char ">" name = true -> no_char newline name = true ->
        no_char ">" post = true ->
        activity !! "generator" =
          Some (JDict {[ "displayName" := JStr name; "url" := JStr url ]})) /\
     (no_char "<" s = true -> activity !! "generator" = None)).
Proof.
  intros Hs. split; [apply (tweet_to_activity_is_Ok tweet s Hs)|].
  intros activity H. rewrite (generator_parsed tweet activity s Hs H).
  split; [|split; [|split; [|split]]].
  - destruct (re_search anchor_re s) as [g|] eqn:Hg.
    + split; [discriminate|]. intros Hno. exfalso. apply Hno.
      exists (group g 1), (group g 2). apply re_search_anchor_in, Hg.
    + split; [|reflexivity]. intros _ (url & name & Hin).
      exact (re_search_anchor_found s url name Hin Hg).
  - intros gen Hgen. destruct (re_search anchor_re s) as [g|] eqn:Hg; [|discriminate].
    injection Hgen as <-.
    apply re_search_first_anchor_inv in Hg as (url & name & Hfirst & ->).
    destruct (group_anchor url name) as [-> ->]. eauto.
  - intros url name Hfirst. rewrite (re_search_first_anchor s url name Hfirst).
    destruct (group_anchor url name) as [-> ->]. reflexivity.
  - intros pre url attrs name post -> Hpre Hu Hq Hagt Hanl Hn Hgt Hnl Hp.
    rewrite re_search_anchor_text by assumption.
    destruct (group_anchor url name) as [-> ->]. reflexivity.
  - intros Hlt. destruct (re_search anchor_re s) as [g|] eqn:Hg; [exfalso|reflexivity].
    apply re_search_anchor_in in Hg as (pre & attrs & post & -> & _).
    apply no_char_suffix in Hlt. discriminate Hlt.
Qed.

End Activities.

(** [reply_context] on [sample_tweet], a reply to the status [7] of [bob]. *)
Lemma reply_context_witness :
    sample_activity !! "context" =
      Some (JDict {[ "inReplyTo" := JList [JDict {[
        "objectType" := JStr "note";
        "id" := JStr "tag:twitter.com:7";
        "url" := JStr "http://twitter.com/bob/status/7" ]}] ]}).
Proof.
  apply (proj1 (@reply_context sample_source sample_repr sample_tweet _ sample_activity_eq)).
  - vm_compute. reflexivity.
  - vm_compute. reflexivity.
  - vm_compute. discriminate.
Defined.

(** A generator dict determines its link and its name. *)
Lemma generator_dict_inj (url name url' name' : string) :
  JDict {[ "displayName" := JStr name; "url" := JStr url ]} =
    JDict {[ "displayName" := JStr name'; "url" := JStr url' ]} ->
  url = url' /\ name = name'.
Proof.
  intros H.
  assert (Hm : forall k : string,
    ({[ "displayName" := JStr name; "url" := JStr url ]} : gmap string json) !! k =
    ({[ "displayName" := JStr name'; "url" := JStr url' ]} : gmap string json) !! k)
    by (intros k; congruence).
  pose proof (Hm "url") as H1. pose proof (Hm "displayName") as H2.
  simplify_map_eq. auto.
Qed.

(** [generator_field] on four tweets: [sample_tweet], whose generator is
    the string of the example; one with text around an anchor that has a
    [rel] attribute; one with two anchors, where the link comes from the
    first and the name from the second; one without anchor. *)
Lemma generator_field_witness :
  anchor_text "http://x.io/app" "" "MyApp" = sample_generator /\
  is_Ok (@tweet_to_activity sample_source sample_repr (JDict sample_tweet)) /\
  sample_activity !! "generator" =
      Some (JDict {[ "displayName" := JStr "MyApp"; "url" := JStr "http://x.io/app" ]}) /\
  sample_client_activity !! "generator" =
      Some (JDict {[ "displayName" := JStr "Twitter Web Client";
                     "url" := JStr "http://twitter.com" ]}) /\
  first_anchor sample_links "http://a.io" "B" /\
  sample_plain_activity !! "generator" = None.
Proof.
  destruct (@generator_field sample_source sample_repr sample_tweet sample_generator
              ltac:(vm_compute; reflexivity)) as [H1 H2].
  destruct (@generator_field sample_source sample_repr sample_client_tweet sample_client
              ltac:(vm_compute; reflexivity)) as [_ H3].
  destruct (@generator_field sample_source sample_repr sample_links_tweet sample_links
              ltac:(vm_compute; reflexivity)) as [_ H4].
  destruct (@generator_field sample_source sample_repr sample_plain_tweet "web"
              ltac:(vm_compute; reflexivity)) as [_ H5].
  split; [reflexivity|]. split; [|split; [|split; [|split]]].
  - apply H1. eexists. vm_compute. reflexivity.
  - apply (proj1 (proj2 (proj2 (proj2 (H2 sample_activity sample_activity_eq))))
             "" "http://x.io/app" "" "MyApp" "");
      solve [discriminate | reflexivity].
  - apply (proj1 (proj2 (proj2 (proj2 (H3 sample_client_activity sample_client_activity_eq))))
             "via " "http://twitter.com"
             (" rel=" +:+ String dquote "nofollow" +:+ String dquote "")
             "Twitter Web Client" "!");
      solve [discriminate | reflexivity].
  - destruct (proj1 (proj2 (H4 sample_links_activity sample_links_activity_eq))
                (JDict {[ "displayName" := JStr "B"; "url" := JStr "http://a.io" ]}) eq_refl)
      as (url & name & Hfirst & Hgen).
    apply generator_dict_inj in Hgen as [<- <-]. exact Hfirst.
  - apply (proj2 (proj2 (proj2 (proj2 (H5 sample_plain_activity sample_plain_activity_eq))))).
    reflexivity.
Defined.

(** ** Every conversion returns a trimmed value *)

Section Trimming.
Context {src : Source} {rp : PyRepr}.

Lemma share_fields_trimmed (screen_name id_str : json) :
  trimmed (JDict (share_fields screen_name id_str)).
Proof.
  unfold share_fields.
  repeat apply trimmed_insert;
    auto using trimmed_str, trimmed_empty, trimmed_singleton, is_null_singleton,
               is_null_str, status_url_neq.
Qed.

Lemma user_to_actor_trimmed (user out : json) :
  user_to_actor user = Ok out -> trimmed out.
Proof.
  unfold user_to_actor. intros H.
  apply bind_Ok_inv in H as (username & _ & H).
  destruct (negb (truthy username)); [injection H as <-; apply trimmed_empty|].
  repeat (apply bind_Ok_inv in H as (? & _ & H)).
  injection H as <-. apply (trim_nulls_trimmed (JDict _)).
Qed.

Lemma tweet_to_object_trimmed (tweet out : json) :
  tweet_to_object tweet = Ok out -> trimmed out.
Proof.
  rewrite tweet_to_object_unfold. intros H.
  apply tweet_to_object_with_Ok in H as [-> | [object ->]].
  - apply trimmed_empty.
  - apply trim_nulls_trimmed.
Qed.

Lemma retweet_to_object_trimmed (retweet out : json) :
  retweet_to_object retweet = Ok out -> trimmed out.
Proof.
  unfold retweet_to_object, retweet_to_object_with. intros H.
  apply bind_Ok_inv in H as (orig & _ & H).
  destruct (negb (truthy orig)); [injection H as <-; constructor|].
  apply bind_Ok_inv in H as (share & Hshare & H).
  apply bind_Ok_inv in H as (user & _ & H).
  apply bind_Ok_inv in H as (screen_name & _ & H).
  apply bind_Ok_inv in H as (id_str & _ & H).
  pose proof (tweet_to_object_trimmed _ _ Hshare) as Ht.
  destruct share; try discriminate H. injection H as <-.
  apply trimmed_union; [apply share_fields_trimmed | exact Ht].
Qed.

Lemma tweet_to_activity_trimmed (tweet out : json) :
  tweet_to_activity tweet = Ok out -> trimmed out.
Proof.
  unfold tweet_to_activity, postprocess_activity. intros H.
  apply bind_Ok_inv in H as (activity & _ & H). injection H as <-.
  apply (trim_nulls_trimmed (JDict _)).
Qed.

(** C2: whatever [user_to_actor], [tweet_to_object], [tweet_to_activity]
    or [retweet_to_object] returns for a record is trimmed: no mapping in
    it, at any depth, has a key whose value is null, the empty string, an
    empty list or an empty mapping. *)
Theorem conversions_trimmed (record out : json) :
  user_to_actor record = Ok out \/ tweet_to_object record = Ok out \/
  tweet_to_activity record = Ok out \/ retweet_to_object record = Ok out ->
  trimmed out.
Proof.
  intros [H | [H | [H | H]]];
    eauto using user_to_actor_trimmed, tweet_to_object_trimmed,
                tweet_to_activity_trimmed, retweet_to_object_trimmed.
Qed.

End Trimming.

(** [conversions_trimmed] on the activity of [sample_tweet] and on the
    share of [sample_retweet]. *)
Lemma conversions_trimmed_witness :
  trimmed (JDict sample_activity) /\ trimmed sample_share.
Proof.
  split.
  - apply (@conversions_trimmed sample_source sample_repr (JDict sample_tweet)).
    right. right. left. exact sample_activity_eq.
  - apply (@conversions_trimmed sample_source sample_repr (JDict sample_retweet)).
    right. right. right. exact sample_share_eq.
Defined.

(** ** Entity tags *)

Section Tags.
Context {src : Source} {rp : PyRepr}.

Lemma tag_of_fields (entity t : gmap string json) :
  tag_of (JDict entity) t ->
  t !! "indices" = Some (default JNull (entity !! "indices")) /\
  (exists kind : string, kind <> "" /\ t !! "objectType" = Some (JStr kind)) /\
  t !! "startIndex" = None /\ t !! "length" = None.
Proof.
  intros [H | [H | H]].
  - unfold mention_tag in H. py_simpl in H. injection H as <-.
    split; [|split; [exists "person"; split; [discriminate|] | split]];
      simplify_map_eq; reflexivity.
  - unfold hashtag_tag in H. py_simpl in H.
    apply bind_Ok_inv in H as (url & _ & H). py_simpl in H. injection H as <-.
    split; [|split; [exists "hashtag"; split; [discriminate|] | split]];
      simplify_map_eq; reflexivity.
  - unfold url_tag in H. py_simpl in H. injection H as <-.
    split; [|split; [exists "article"; split; [discriminate|] | split]];
      simplify_map_eq; reflexivity.
Qed.

Lemma tag_of_objectType (x : json) (t : gmap string json) :
  tag_of x t -> exists kind : string, kind <> "" /\ t !! "objectType" = Some (JStr kind).
Proof.
  intros H. assert (exists entity, x = JDict entity) as [entity ->].
  { destruct x; try (destruct H as [H | [H | H]]; discriminate H). eauto. }
  apply tag_of_fields in H. tauto.
Qed.

(** The span rewrite keeps every key but [indices]. *)
Lemma rewrite_span_lookup (t t' : gmap string json) (k : string) :
  rewrite_span t = Ok t' ->
  k <> "indices" -> k <> "startIndex" -> k <> "length" -> t' !! k = t !! k.
Proof.
  unfold rewrite_span. intros H Hk1 Hk2 Hk3.
  destruct (truthy _); [|apply Ok_inj in H as <-; reflexivity].
  repeat (apply bind_Ok_inv in H as (? & _ & H)). apply Ok_inj in H as <-.
  rewrite lookup_delete_ne by congruence.
  rewrite lookup_union_r; [reflexivity|].
  rewrite lookup_insert_ne, lookup_singleton_ne by congruence. reflexivity.
Qed.

(** The span rewrite of a tag that carries the span [[s, e]]. *)
Lemma rewrite_span_indices (t : gmap string json) (s e : Z) :
  t !! "indices" = Some (JList [JInt s; JInt e]) ->
  exists t' : gmap string json,
    rewrite_span t = Ok t' /\
    t' !! "startIndex" = Some (JInt s) /\
    t' !! "length" = Some (JInt (e - s)) /\
    t' !! "indices" = None.
Proof.
  intros H. unfold rewrite_span. rewrite H. cbn. eexists. split; [reflexivity|].
  repeat split.
  - rewrite lookup_delete_ne by discriminate.
    apply lookup_union_Some_l. simplify_map_eq. reflexivity.
  - rewrite lookup_delete_ne by discriminate.
    apply lookup_union_Some_l. simplify_map_eq. reflexivity.
  - apply lookup_delete_eq.
Qed.

Lemma tweet_to_object_with_tags (shares : result (list json))
    (tweet : gmap string json) (out : json) :
  truthy (default JNull (tweet !! "id_str")) = true ->
  tweet_to_object_with shares (JDict tweet) = Ok out ->
  exists (mentions hashtags urls tags : list (gmap string json)) (retweets : list json)
         (object : gmap string json),
    entity_tags mention_tag (default (JDict ∅) (tweet !! "entities")) "user_mentions" = Ok mentions /\
    entity_tags hashtag_tag (default (JDict ∅) (tweet !! "entities")) "hashtags" = Ok hashtags /\
    entity_tags url_tag (default (JDict ∅) (tweet !! "entities")) "urls" = Ok urls /\
    mapM rewrite_span (mentions ++ hashtags ++ urls) = Ok tags /\
    object !! "tags" = Some (JList ((JDict <$> tags) ++ retweets)) /\
    out = trim_nulls (JDict object).
Proof.
  intros Hid. unfold tweet_to_object_with. py_simpl. rewrite Hid. py_simpl. intros H.
  apply bind_Ok_inv in H as (published & _ & H). py_simpl in H.
  apply bind_Ok_inv in H as (object & _ & H). py_simpl in H.
  apply bind_Ok_inv in H as (media & _ & H).
  apply bind_Ok_inv in H as (media0 & _ & H).
  apply bind_Ok_inv in H as (media_url & _ & H).
  apply bind_Ok_inv in H as (mentions & Hm & H).
  apply bind_Ok_inv in H as (hashtags & Hh & H).
  apply bind_Ok_inv in H as (urls & Hu & H).
  apply bind_Ok_inv in H as (tags & Ht & H).
  apply bind_Ok_inv in H as (retweets & _ & H). py_simpl in H.
  apply bind_Ok_inv in H as (object' & Hobj & H).
  apply Ok_inj in H as <-.
  exists mentions, hashtags, urls, tags, retweets, object'.
  repeat split; try assumption.
  destruct (truthy (default JNull (tweet !! "place"))).
  - py_simpl in Hobj. apply bind_Ok_inv in Hobj as (full_name & _ & Hobj).
    apply bind_Ok_inv in Hobj as (place_id & _ & Hobj).
    apply bind_Ok_inv in Hobj as (location & _ & Hobj).
    apply Ok_inj in Hobj as <-.
    rewrite lookup_insert_ne by discriminate. apply lookup_insert_eq.
  - apply Ok_inj in Hobj as <-. apply lookup_insert_eq.
Qed.

Lemma entity_tags_Forall2 (tag : json -> result (gmap string json))
    (entities : gmap string json) (key : string) (l : list (gmap string json)) :
  entity_tags tag (JDict entities) key = Ok l ->
  Forall2 (fun x t => tag x = Ok t) (entity_list entities key) l.
Proof.
  unfold entity_tags, entity_list. py_simpl. intros H.
  apply bind_Ok_inv in H as (ts & -> & H). apply mapM_Ok_Forall2, H.
Qed.

Lemma tag_not_null (t : gmap string json) :
  (exists kind : string, kind <> "" /\ t !! "objectType" = Some (JStr kind)) ->
  is_null (trim_nulls (JDict t)) = false.
Proof.
  intros (kind & Hk & Ht). rewrite trim_nulls_dict. cbn [is_null].
  apply bool_decide_eq_false_2. intros He.
  apply (f_equal (fun m : gmap string json => m !! "objectType")) in He.
  rewrite lookup_omap, Ht, lookup_empty in He. cbn in He.
  rewrite trim_entry_trimmed in He; [discriminate | constructor | apply is_null_str, Hk].
Qed.

(** C4: in the object made of a tweet that has an id, the tag of an
    entity (the [i]-th of the mentions, hashtags and urls, in that order)
    that carries the span [[s, e]] is the [i]-th of the emitted [tags]; it
    has [startIndex = s] and [length = e - s], and no [indices] key. *)
Theorem span_rewrite (tweet entities out entity : gmap string json) (i : nat) (s e : Z) :
  tweet_to_object (JDict tweet) = Ok (JDict out) ->
  truthy (default JNull (tweet !! "id_str")) = true ->
  default (JDict ∅) (tweet !! "entities") = JDict entities ->
  (entity_list entities "user_mentions" ++ entity_list entities "hashtags" ++
   entity_list entities "urls")%list !! i = Some (JDict entity) ->
  entity !! "indices" = Some (JList [JInt s; JInt e]) ->
  exists (tags : list json) (tag : gmap string json),
    out !! "tags" = Some (JList tags) /\
    tags !! i = Some (JDict tag) /\
    tag !! "startIndex" = Some (JInt s) /\
    tag !! "length" = Some (JInt (e - s)) /\
    tag !! "indices" = None.
Proof.
  intros H Hid He Hi Hspan. rewrite tweet_to_object_unfold in H.
  apply (tweet_to_object_with_tags _ _ _ Hid) in H
    as (mentions & hashtags & urls & tags & retweets & object & Hm & Hh & Hu & Ht & Hobj & Hout).
  rewrite He in Hm, Hh, Hu.
  apply entity_tags_Forall2 in Hm, Hh, Hu. apply mapM_Ok_Forall2 in Ht.
  assert (Hsrc : Forall2 tag_of
            (entity_list entities "user_mentions" ++ entity_list entities "hashtags" ++
             entity_list entities "urls") (mentions ++ hashtags ++ urls)).
  { repeat apply Forall2_app;
      (eapply Forall2_impl; [eassumption|]); intros x t Hx; unfold tag_of; auto. }
  destruct (Forall2_lookup_l _ _ _ _ _ Hsrc Hi) as (t & Hti & Htag).
  destruct (Forall2_lookup_l _ _ _ _ _ Ht Hti) as (t' & Ht'i & Hrw).
  destruct (tag_of_fields _ _ Htag) as (Hind & _).
  rewrite Hspan in Hind. cbn in Hind.
  destruct (rewrite_span_indices t s e Hind) as (t'' & Hrw' & Hstart & Hlen & Hno).
  rewrite Hrw in Hrw'. apply Ok_inj in Hrw' as <-.
  assert (Hkinds : Forall (fun x => is_null x = false) (trim_nulls <$> (JDict <$> tags))).
  { apply Forall_fmap, Forall_fmap, Forall_forall. intros z Hz. cbn.
    apply list_elem_of_lookup in Hz as [j Hj].
    destruct (Forall2_lookup_r _ _ _ _ _ Ht Hj) as (y & Hy & Hyz).
    destruct (Forall2_lookup_r _ _ _ _ _ Hsrc Hy) as (x & _ & Hxy).
    apply tag_not_null. destruct (tag_of_objectType _ _ Hxy) as (kind & Hk & Hkind).
    exists kind. split; [exact Hk|].
    rewrite (rewrite_span_lookup _ _ "objectType" Hyz) by discriminate. exact Hkind. }
  assert (Hlook : filter (fun x => is_null x = false)
                    (trim_nulls <$> ((JDict <$> tags) ++ retweets)%list) !! i
                  = Some (trim_nulls (JDict t'))).
  { rewrite fmap_app. apply filter_prefix_lookup; [exact Hkinds|].
    rewrite !list_lookup_fmap, Ht'i. reflexivity. }
  rewrite trim_nulls_dict in Hout.
  assert (Hout' : out = omap trim_entry object) by congruence. subst out. clear Hout.
  exists (filter (fun x => is_null x = false)
            (trim_nulls <$> ((JDict <$> tags) ++ retweets)%list)), (omap trim_entry t').
  split; [|split; [exact Hlook|]].
  - rewrite lookup_omap, Hobj. cbn [mbind option_bind]. unfold trim_entry. cbv zeta.
    rewrite trim_nulls_list.
    destruct (filter _ _) as [|x l] eqn:Hf; [discriminate Hlook | reflexivity].
  - rewrite !lookup_omap, Hstart, Hlen, Hno. repeat split.
Qed.

End Tags.

(** [span_rewrite] on the mention of [sample_tweet], whose span is
    [[6, 10]]. *)
Lemma span_rewrite_witness :
  exists (tags : list json) (tag : gmap string json),
    sample_object !! "tags" = Some (JList tags) /\
    tags !! 0%nat = Some (JDict tag) /\
    tag !! "startIndex" = Some (JInt 6) /\
    tag !! "length" = Some (JInt (10 - 6)) /\
    tag !! "indices" = None.
Proof.
  apply (@span_rewrite sample_source sample_repr sample_tweet sample_entities
           sample_object sample_mention 0 6 10);
    [exact sample_object_eq | vm_compute; reflexivity ..].
Defined.
(** * Further properties of the conversions *)

(** ** The steps of the object conversion *)

Lemma bind_assoc {A B C} (m : result A) (f : A -> result B) (g : B -> result C) :
  (y ← (x ← m; f x); g y) = (x ← m; y ← f x; g y).
Proof. destruct m; reflexivity. Qed.

Section StepsOk.
Context {src : Source} {rp : PyRepr}.

(** [tweet_to_object] is its steps in sequence. *)
Lemma tweet_to_object_with_steps (shares : result (list json)) (tweet : json) :
  tweet_to_object_with shares tweet =
  (id ← py_get tweet "id_str" JNull;
   if negb (truthy id) then Ok (JDict ∅)
   else
     created_at ← py_get tweet "created_at" JNull;
     published ← rfc2822_to_iso8601 created_at;
     text ← py_get tweet "text" JNull;
     object ← author_step tweet id
       {[ "objectType" := JStr "note";
          "published" := published;
          "content" := text;
          "attachments" := JList [] ]};
     entities ← py_get tweet "entities" (JDict ∅);
     object ← media_step entities object;
     object ← tags_step shares entities object;
     object ← location_step tweet object;
     Ok (trim_nulls (JDict object))).
Proof.
  unfold tweet_to_object_with, author_step, media_step, tags_step, location_step.
  destruct tweet as [| | | | | |m]; try reflexivity.
  py_simpl. destruct (negb _); [reflexivity|].
  destruct (rfc2822_to_iso8601 _) as [published|e]; [|reflexivity]. py_simpl.
  match goal with |- mbind _ ?m = _ => destruct m as [object|e]; [|reflexivity] end.
  py_simpl. rewrite !bind_assoc.
  repeat match goal with
    | |- mbind _ ?m = mbind _ ?m =>
        destruct m; [|reflexivity]; py_simpl; rewrite ?bind_assoc
    end.
  reflexivity.
Qed.

(** Each step leaves the other keys alone. *)
Lemma author_step_frame (tweet id : json) (object object' : gmap string json) (k : string) :
  author_step tweet id object = Ok object' ->
  k <> "author" -> k <> "id" -> k <> "url" -> object' !! k = object !! k.
Proof.
  unfold author_step. intros H Ha Hi Hu.
  apply bind_Ok_inv in H as (user & _ & H).
  destruct (truthy user); [|apply Ok_inj in H as <-; reflexivity].
  apply bind_Ok_inv in H as (author & _ & H).
  apply bind_Ok_inv in H as (username & _ & H).
  destruct (truthy username); apply Ok_inj in H as <-;
    rewrite ?lookup_insert_ne by congruence; reflexivity.
Qed.

Lemma media_step_frame (entities : json) (object object' : gmap string json) (k : string) :
  media_step entities object = Ok object' ->
  k <> "attachments" -> k <> "image" -> object' !! k = object !! k.
Proof.
  unfold media_step. intros H Ha Hi.
  repeat (apply bind_Ok_inv in H as (? & _ & H)).
  apply Ok_inj in H as <-.
  destruct (truthy _); rewrite ?lookup_insert_ne by congruence; reflexivity.
Qed.

Lemma tags_step_frame (shares : result (list json)) (entities : json)
    (object object' : gmap string json) (k : string) :
  tags_step shares entities object = Ok object' ->
  k <> "tags" -> object' !! k = object !! k.
Proof.
  unfold tags_step. intros H Hk.
  repeat (apply bind_Ok_inv in H as (? & _ & H)).
  apply Ok_inj in H as <-. rewrite lookup_insert_ne by congruence. reflexivity.
Qed.

Lemma location_step_frame (tweet : json) (object object' : gmap string json) (k : string) :
  location_step tweet object = Ok object' ->
  k <> "location" -> object' !! k = object !! k.
Proof.
  unfold location_step. intros H Hk.
  apply bind_Ok_inv in H as (place & _ & H).
  destruct (truthy place); [|apply Ok_inj in H as <-; reflexivity].
  repeat (apply bind_Ok_inv in H as (? & _ & H)).
  apply Ok_inj in H as <-. rewrite lookup_insert_ne by congruence. reflexivity.
Qed.

(** A conversion that returned went through every step. *)
Lemma tweet_to_object_steps_Ok (tweet out : gmap string json) :
  truthy (default JNull (tweet !! "id_str")) = true ->
  tweet_to_object (JDict tweet) = Ok (JDict out) ->
  exists (published : json) (o1 o2 o3 o4 : gmap string json),
    rfc2822_to_iso8601 (default JNull (tweet !! "created_at")) = Ok published /\
    author_step (JDict tweet) (default JNull (tweet !! "id_str"))
      {[ "objectType" := JStr "note";
         "published" := published;
         "content" := default JNull (tweet !! "text");
         "attachments" := JList [] ]} = Ok o1 /\
    media_step (default (JDict ∅) (tweet !! "entities")) o1 = Ok o2 /\
    tags_step (rts ← py_get (JDict tweet) "retweets" (JList []);
               rs ← py_iter rts; mapM retweet_to_object rs)
      (default (JDict ∅) (tweet !! "entities")) o2 = Ok o3 /\
    location_step (JDict tweet) o3 = Ok o4 /\
    out = omap trim_entry o4.
Proof.
  intros Hid. rewrite tweet_to_object_unfold, tweet_to_object_with_steps.
  py_simpl. rewrite Hid. py_simpl. intros H.
  apply bind_Ok_inv in H as (published & Hp & H).
  apply bind_Ok_inv in H as (o1 & H1 & H).
  apply bind_Ok_inv in H as (o2 & H2 & H).
  apply bind_Ok_inv in H as (o3 & H3 & H).
  apply bind_Ok_inv in H as (o4 & H4 & H).
  rewrite trim_nulls_dict in H. apply Ok_inj in H.
  exists published, o1, o2, o3, o4. repeat split; try assumption. congruence.
Qed.

End StepsOk.

(** ** Fields carried over *)

Lemma JDict_inj (a b : gmap string json) : JDict a = JDict b -> a = b.
Proof. intros H. injection H as H. exact H. Qed.

Lemma carries_plain (record : gmap string json) (k : string) :
  carries record k (fun v => v) (trim_entry (default JNull (record !! k))).
Proof.
  split.
  - intros v -> Hne. apply trim_entry_trimmed; [constructor | apply is_null_str, Hne].
  - intros ->. reflexivity.
Qed.

Lemma carries_nested (record : gmap string json) (k k' : string) :
  carries record k (fun v => JDict {[ k' := v ]})
    (trim_entry (JDict {[ k' := default JNull (record !! k) ]})).
Proof.
  split.
  - intros v -> Hne. apply trim_entry_trimmed; [|apply is_null_singleton].
    apply trimmed_singleton; [apply is_null_str, Hne | constructor].
  - intros ->. unfold trim_entry. cbv zeta. rewrite trim_nulls_dict, omap_singleton.
    reflexivity.
Qed.

(** ** The conversions of the other sample records *)

Lemma sample_photo_object_eq :
  @tweet_to_object sample_source sample_repr (JDict sample_photo_tweet) =
  Ok (JDict sample_photo_object).
Proof. vm_compute. reflexivity. Qed.


(** ** The identity of an object *)

Lemma isoformat_not_empty (dt : datetime) : isoformat dt <> "".
Proof.
  unfold isoformat. destruct (pad 4 (year dt)); [discriminate|].
  rewrite append_cons. discriminate.
Qed.

Lemma lookup_not_empty (m : gmap string json) (k : string) (v : json) :
  m !! k = Some v -> m <> ∅.
Proof. intros H ->. rewrite lookup_empty in H. discriminate. Qed.

Lemma truthy_dict (m : gmap string json) : m <> ∅ -> truthy (JDict m) = true.
Proof. intros H. cbn. rewrite bool_decide_eq_false_2; [reflexivity | assumption]. Qed.

Lemma truthy_str (s : string) : s <> "" -> truthy (JStr s) = true.
Proof. destruct s; [congruence | reflexivity]. Qed.

Section ObjectIdentity.
Context {src : Source} {rp : PyRepr}.

Lemma user_to_actor_Ok_dict (user out : json) :
  user_to_actor user = Ok out -> exists a : gmap string json, out = JDict a.
Proof.
  unfold user_to_actor. intros H.
  apply bind_Ok_inv in H as (username & _ & H).
  destruct (negb (truthy username)); [apply Ok_inj in H as <-; eauto|].
  repeat (apply bind_Ok_inv in H as (? & _ & H)).
  apply Ok_inj in H as <-. rewrite trim_nulls_dict. eauto.
Qed.

Lemma user_to_actor_username (user actor : gmap string json) (name : string) :
  user !! "screen_name" = Some (JStr name) -> name <> "" ->
  user_to_actor (JDict user) = Ok (JDict actor) ->
  actor !! "username" = Some (JStr name).
Proof.
  intros Hu Hne. unfold user_to_actor. py_simpl. rewrite Hu. py_simpl.
  rewrite (truthy_str name Hne). py_simpl.
  destruct (rfc2822_to_iso8601 _) as [published|e]; [|discriminate].
  py_simpl. rewrite trim_nulls_dict. intros [= <-].
  rewrite lookup_omap. simplify_map_eq.
  apply trim_entry_trimmed; [constructor | apply is_null_str, Hne].
Qed.

(** What the author block leaves in the object. *)
Lemma author_step_named (tweet user : gmap string json) (id : json) (name : string)
    (object object' : gmap string json) :
  tweet !! "user" = Some (JDict user) ->
  user !! "screen_name" = Some (JStr name) -> name <> "" ->
  author_step (JDict tweet) id object = Ok object' ->
  exists author : gmap string json,
    user_to_actor (JDict user) = Ok (JDict author) /\
    object' !! "author" = Some (JDict author) /\
    object' !! "id" = Some (JStr (tag_uri id)) /\
    object' !! "url" = Some (JStr (status_url (JStr name) id)).
Proof.
  intros Hu Hs Hne. unfold author_step. py_simpl. rewrite Hu. py_simpl.
  rewrite (truthy_dict user (lookup_not_empty _ _ _ Hs)). intros H.
  apply bind_Ok_inv in H as (author & Ha & H).
  destruct (user_to_actor_Ok_dict _ _ Ha) as [a ->].
  py_simpl in H. rewrite (user_to_actor_username _ _ _ Hs Hne Ha) in H.
  py_simpl in H. rewrite (truthy_str name Hne) in H. apply Ok_inj in H as <-.
  exists a. repeat split; [assumption | | |]; simplify_map_eq; reflexivity.
Qed.

Lemma author_step_anonymous (tweet : gmap string json) (id : json)
    (object object' : gmap string json) :
  truthy (default JNull (tweet !! "user")) = false \/
  (exists u : gmap string json,
     tweet !! "user" = Some (JDict u) /\ truthy (default JNull (u !! "screen_name")) = false) ->
  author_step (JDict tweet) id object = Ok object' ->
  object' !! "id" = object !! "id" /\ object' !! "url" = object !! "url" /\
  (object' !! "author" = object !! "author" \/ object' !! "author" = Some (JDict ∅)).
Proof.
  unfold author_step. py_simpl. intros [Hf | (u & Hu & Hs)].
  - rewrite Hf. intros H. apply Ok_inj in H as <-. auto.
  - rewrite Hu. py_simpl. destruct (truthy (JDict u)).
    + unfold user_to_actor. py_simpl. rewrite Hs. py_simpl. rewrite lookup_empty. py_simpl.
      intros H. apply Ok_inj in H as <-.
      rewrite !lookup_insert_ne by discriminate. rewrite lookup_insert_eq. auto.
    + intros H. apply Ok_inj in H as <-. auto.
Qed.

(** The keys of the finished object that the later steps do not touch. *)
Lemma object_key_of_author_step (tweet o1 o2 o3 o4 : gmap string json)
    (shares : result (list json)) (entities : json) (k : string) :
  media_step entities o1 = Ok o2 -> tags_step shares entities o2 = Ok o3 ->
  location_step (JDict tweet) o3 = Ok o4 ->
  k <> "attachments" -> k <> "image" -> k <> "tags" -> k <> "location" ->
  omap trim_entry o4 !! k = o1 !! k ≫= trim_entry.
Proof.
  intros H2 H3 H4 ? ? ? ?. rewrite lookup_omap.
  rewrite (location_step_frame _ _ _ k H4), (tags_step_frame _ _ _ _ k H3),
    (media_step_frame _ _ _ k H2) by assumption. reflexivity.
Qed.

(** The identity of the object of a tweet whose user has a screen
    name. *)
Lemma tweet_to_object_named (tweet out user : gmap string json) (id : json) (name : string) :
  tweet_to_object (JDict tweet) = Ok (JDict out) ->
  tweet !! "id_str" = Some id -> truthy id = true ->
  tweet !! "user" = Some (JDict user) ->
  user !! "screen_name" = Some (JStr name) -> name <> "" ->
  out !! "url" = Some (JStr ("http://twitter.com/" +:+ name +:+ "/status/" +:+ py_str id)) /\
  (tag_uri id <> "" -> out !! "id" = Some (JStr (tag_uri id))) /\
  exists author : gmap string json,
    user_to_actor (JDict user) = Ok (JDict author) /\
    out !! "author" = Some (JDict author).
Proof.
  intros H Hid Ht Hu Hs Hne.
  assert (Hid' : truthy (default JNull (tweet !! "id_str")) = true) by (rewrite Hid; exact Ht).
  apply (tweet_to_object_steps_Ok _ _ Hid') in H
    as (published & o1 & o2 & o3 & o4 & _ & H1 & H2 & H3 & H4 & ->).
  rewrite Hid in H1. cbn [default from_option Datatypes.id] in H1.
  destruct (author_step_named _ _ _ _ _ _ Hu Hs Hne H1) as (author & Ha & Hau & Hi & Hurl).
  rewrite !(object_key_of_author_step _ _ _ _ _ _ _ _ H2 H3 H4) by discriminate.
  rewrite Hau, Hi, Hurl. cbn [mbind option_bind]. split; [|split].
  - apply trim_entry_trimmed; [constructor | reflexivity].
  - intros Htag. apply trim_entry_trimmed; [constructor | apply is_null_str, Htag].
  - exists author. split; [exact Ha|].
    apply trim_entry_trimmed; [exact (user_to_actor_trimmed _ _ Ha)|].
    cbn. apply bool_decide_eq_false_2.
    apply (lookup_not_empty _ "username" (JStr name)).
    exact (user_to_actor_username _ _ _ Hs Hne Ha).
Qed.

(** The timestamp of the object of a tweet. *)
Lemma tweet_to_object_published (tweet out : gmap string json) :
  tweet_to_object (JDict tweet) = Ok (JDict out) ->
  truthy (default JNull (tweet !! "id_str")) = true ->
  exists published : json,
    rfc2822_to_iso8601 (default JNull (tweet !! "created_at")) = Ok published /\
    out !! "published" =
      if truthy (default JNull (tweet !! "created_at")) then Some published else None.
Proof.
  intros H Hid.
  apply (tweet_to_object_steps_Ok _ _ Hid) in H
    as (published & o1 & o2 & o3 & o4 & Hp & H1 & H2 & H3 & H4 & ->).
  rewrite !(object_key_of_author_step _ _ _ _ _ _ _ _ H2 H3 H4) by discriminate.
  rewrite !(author_step_frame _ _ _ _ _ H1) by discriminate.
  exists published. split; [exact Hp|]. simplify_map_eq.
  unfold rfc2822_to_iso8601 in Hp.
  destruct (truthy (default JNull (tweet !! "created_at"))); cbn [negb] in Hp.
  - destruct (default JNull (tweet !! "created_at")); try discriminate.
    apply bind_Ok_inv in Hp as (dt & _ & Hp). apply Ok_inj in Hp as <-.
    apply trim_entry_trimmed; [constructor | apply is_null_str, isoformat_not_empty].
  - apply Ok_inj in Hp as <-. reflexivity.
Qed.

(** X1: the object of a tweet whose user has a screen name carries that
    user as [author], the tag URI of the tweet id as [id] and
    [http://twitter.com/<name>/status/<id>] as [url]; without a user, or
    with a user that has no screen name, the object has none of the
    three. *)
Theorem object_identity (tweet out : gmap string json) (id : json) :
  tweet_to_object (JDict tweet) = Ok (JDict out) ->
  tweet !! "id_str" = Some id -> truthy id = true ->
  (forall (user : gmap string json) (name : string),
     tweet !! "user" = Some (JDict user) ->
     user !! "screen_name" = Some (JStr name) -> name <> "" ->
     out !! "url" = Some (JStr ("http://twitter.com/" +:+ name +:+ "/status/" +:+ py_str id)) /\
     (tag_uri id <> "" -> out !! "id" = Some (JStr (tag_uri id))) /\
     exists author : gmap string json,
       user_to_actor (JDict user) = Ok (JDict author) /\
       out !! "author" = Some (JDict author)) /\
  (truthy (default JNull (tweet !! "user")) = false \/
   (exists u : gmap string json,
      tweet !! "user" = Some (JDict u) /\
      truthy (default JNull (u !! "screen_name")) = false) ->
   out !! "author" = None /\ out !! "id" = None /\ out !! "url" = None).
Proof.
  intros H Hid Ht. split.
  - intros user name. apply (tweet_to_object_named _ _ _ _ _ H Hid Ht).
  - assert (Hid' : truthy (default JNull (tweet !! "id_str")) = true)
      by (rewrite Hid; exact Ht).
    apply (tweet_to_object_steps_Ok _ _ Hid') in H
      as (published & o1 & o2 & o3 & o4 & _ & H1 & H2 & H3 & H4 & ->).
    intros Hanon.
    destruct (author_step_anonymous _ _ _ _ Hanon H1) as (Hi & Hurl & Hau).
    rewrite !(object_key_of_author_step _ _ _ _ _ _ _ _ H2 H3 H4) by discriminate.
    rewrite Hi, Hurl. split; [|split; simplify_map_eq; reflexivity].
    destruct Hau as [-> | ->]; [simplify_map_eq; reflexivity | reflexivity].
Qed.

End ObjectIdentity.

(** [object_identity] on [sample_tweet], posted by [alice] with the id
    [42]. *)
Lemma object_identity_witness :
  sample_object !! "url" = Some (JStr "http://twitter.com/alice/status/42") /\
  sample_object !! "id" = Some (JStr "tag:twitter.com:42") /\
  sample_object !! "author" = Some (JDict sample_actor).
Proof.
  destruct (@object_identity sample_source sample_repr sample_tweet sample_object
              (JStr "42") sample_object_eq eq_refl eq_refl) as [H _].
  destruct (H sample_user "alice" eq_refl eq_refl) as (Hurl & Hid & author & Ha & Hauthor).
  - discriminate.
  - split; [exact Hurl|]. split; [apply Hid; discriminate|].
    rewrite sample_actor_eq in Ha. injection Ha as <-. exact Hauthor.
Defined.

(** ** Text, timestamp and media *)

Section ObjectMedia.
Context {src : Source} {rp : PyRepr}.

(** X2: the object of a tweet that has an id is a [note]; its [content]
    is the text of the tweet and its [published] the converted
    [created_at]; a tweet without text or without [created_at] gives an
    object without the key. *)
Theorem object_fields (tweet out : gmap string json) :
  tweet_to_object (JDict tweet) = Ok (JDict out) ->
  truthy (default JNull (tweet !! "id_str")) = true ->
  out !! "objectType" = Some (JStr "note") /\
  (forall t : string, tweet !! "text" = Some (JStr t) -> t <> "" ->
     out !! "content" = Some (JStr t)) /\
  (tweet !! "text" = None -> out !! "content" = None) /\
  exists published : json,
    rfc2822_to_iso8601 (default JNull (tweet !! "created_at")) = Ok published /\
    out !! "published" =
      if truthy (default JNull (tweet !! "created_at")) then Some published else None.
Proof.
  intros H Hid. pose proof (tweet_to_object_published _ _ H Hid) as Hpub.
  split; [|split; [|split; [|exact Hpub]]];
    apply (tweet_to_object_steps_Ok _ _ Hid) in H
      as (published & o1 & o2 & o3 & o4 & Hp & H1 & H2 & H3 & H4 & ->);
    rewrite !(object_key_of_author_step _ _ _ _ _ _ _ _ H2 H3 H4) by discriminate;
    rewrite !(author_step_frame _ _ _ _ _ H1) by discriminate.
  - simplify_map_eq. reflexivity.
  - intros t Ht Hne. rewrite Ht. simplify_map_eq.
    apply trim_entry_trimmed; [constructor | apply is_null_str, Hne].
  - intros Ht. rewrite Ht. simplify_map_eq. reflexivity.
Qed.

(** What the media block does to the object. *)
Lemma media_step_first (e m0 : gmap string json) (rest : list json) (u : json)
    (object : gmap string json) :
  e !! "media" = Some (JList (JDict m0 :: rest)) ->
  m0 !! "media_url" = Some u -> truthy u = true ->
  media_step (JDict e) object =
  Ok (<["attachments" := JList [JDict {[ "objectType" := JStr "image";
                                         "image" := JDict {[ "url" := u ]} ]}]]>
        (<["image" := JDict {[ "url" := u ]}]> object)).
Proof.
  intros He Hm Hu. unfold media_step. py_simpl. rewrite He. cbn. rewrite Hm. cbn.
  rewrite Hu. reflexivity.
Qed.

Lemma media_step_none (e object : gmap string json) :
  e !! "media" = None -> media_step (JDict e) object = Ok object.
Proof.
  intros He. unfold media_step. py_simpl. rewrite He. cbn. rewrite lookup_empty. reflexivity.
Qed.

Lemma media_step_empty (e object : gmap string json) :
  e !! "media" = Some (JList []) -> media_step (JDict e) object = Raise IndexError.
Proof. intros He. unfold media_step. py_simpl. rewrite He. reflexivity. Qed.

Lemma object_key_of_media_step (tweet o2 o3 o4 : gmap string json)
    (shares : result (list json)) (entities : json) (k : string) :
  tags_step shares entities o2 = Ok o3 ->
  location_step (JDict tweet) o3 = Ok o4 ->
  k <> "tags" -> k <> "location" ->
  omap trim_entry o4 !! k = o2 !! k ≫= trim_entry.
Proof.
  intros H3 H4 ? ?. rewrite lookup_omap.
  rewrite (location_step_frame _ _ _ k H4), (tags_step_frame _ _ _ _ k H3) by assumption.
  reflexivity.
Qed.

(** X3: the first entry of the media list of a tweet, when it has a
    [media_url], becomes the [image] of the object and its only
    attachment, whatever follows it in the list; a tweet without a media
    list gives an object with neither [image] nor [attachments]. *)
Theorem object_media (tweet e out : gmap string json) :
  tweet_to_object (JDict tweet) = Ok (JDict out) ->
  truthy (default JNull (tweet !! "id_str")) = true ->
  default (JDict ∅) (tweet !! "entities") = JDict e ->
  (forall (m0 : gmap string json) (rest : list json) (u : string),
     e !! "media" = Some (JList (JDict m0 :: rest)) ->
     m0 !! "media_url" = Some (JStr u) -> u <> "" ->
     out !! "image" = Some (JDict {[ "url" := JStr u ]}) /\
     out !! "attachments" =
       Some (JList [JDict {[ "objectType" := JStr "image";
                             "image" := JDict {[ "url" := JStr u ]} ]}])) /\
  (e !! "media" = None -> out !! "image" = None /\ out !! "attachments" = None).
Proof.
  intros H Hid He.
  apply (tweet_to_object_steps_Ok _ _ Hid) in H
    as (published & o1 & o2 & o3 & o4 & Hp & H1 & H2 & H3 & H4 & ->).
  rewrite He in H2.
  rewrite !(object_key_of_media_step _ _ _ _ _ _ _ H3 H4) by discriminate.
  split.
  - intros m0 rest u Hm Hu Hne.
    rewrite (media_step_first _ _ _ _ _ Hm Hu (truthy_str u Hne)) in H2.
    apply Ok_inj in H2 as <-.
    assert (Hurl : trimmed (JDict {[ "url" := JStr u ]})).
    { apply trimmed_singleton; [apply is_null_str, Hne | constructor]. }
    split; simplify_map_eq.
    + apply trim_entry_trimmed; [exact Hurl | apply is_null_singleton].
    + apply trim_entry_trimmed; [|reflexivity].
      apply trimmed_list_1; [apply is_null_insert|].
      apply trimmed_insert; [reflexivity | constructor|].
      apply trimmed_singleton; [apply is_null_singleton | exact Hurl].
  - intros Hm. rewrite (media_step_none _ _ Hm) in H2. apply Ok_inj in H2 as <-.
    rewrite !(author_step_frame _ _ _ _ _ H1) by discriminate.
    split; simplify_map_eq; reflexivity.
Qed.

(** X4: a tweet with an id whose media list is empty cannot be
    converted: indexing the list fails, and with it the conversion into
    an object and into an activity. *)
Theorem empty_media_fails (tweet e : gmap string json) :
  truthy (default JNull (tweet !! "id_str")) = true ->
  tweet !! "entities" = Some (JDict e) ->
  e !! "media" = Some (JList []) ->
  ~ is_Ok (tweet_to_object (JDict tweet)) /\
  ~ is_Ok (tweet_to_activity (JDict tweet)) /\
  (tweet !! "created_at" = None -> tweet !! "user" = None ->
   tweet_to_object (JDict tweet) = Raise IndexError /\
   tweet_to_activity (JDict tweet) = Raise IndexError).
Proof.
  intros Hid He Hm.
  assert (Hno : forall out, tweet_to_object (JDict tweet) <> Ok out).
  { intros out H.
    destruct (tweet_to_object_Ok_dict _ _ H) as [o ->].
    apply (tweet_to_object_steps_Ok _ _ Hid) in H
      as (published & o1 & o2 & o3 & o4 & Hp & H1 & H2 & H3 & H4 & _).
    rewrite He in H2. cbn [default from_option Datatypes.id] in H2.
    rewrite (media_step_empty _ _ Hm) in H2. discriminate. }
  split; [|split].
  - intros [out H]. exact (Hno out H).
  - intros [out H]. unfold tweet_to_activity, tweet_to_activity_dict in H.
    destruct (tweet_to_object (JDict tweet)) as [o|] eqn:Ho; [|discriminate].
    exact (Hno o eq_refl).
  - intros Hc Hu.
    assert (Ho : tweet_to_object (JDict tweet) = Raise IndexError).
    { rewrite tweet_to_object_unfold, tweet_to_object_with_steps.
      py_simpl. rewrite Hid, Hc, He. py_simpl. cbn [rfc2822_to_iso8601 truthy negb].
      py_simpl. unfold author_step. py_simpl. rewrite Hu. py_simpl.
      cbn [truthy]. py_simpl. rewrite (media_step_empty _ _ Hm). reflexivity. }
    split; [exact Ho|]. unfold tweet_to_activity, tweet_to_activity_dict.
    rewrite Ho. reflexivity.
Qed.

End ObjectMedia.

(** [object_fields] on [sample_tweet]. *)
Lemma object_fields_witness :
  sample_object !! "objectType" = Some (JStr "note") /\
  sample_object !! "content" = Some (JStr "hello @bob #x").
Proof.
  destruct (@object_fields sample_source sample_repr sample_tweet sample_object
              sample_object_eq eq_refl) as (Htype & Hcontent & _).
  split; [exact Htype|]. apply Hcontent; [reflexivity | discriminate].
Defined.

(** [object_media] on [sample_photo_tweet], whose media list has two
    entries. *)
Lemma object_media_witness :
  sample_photo_object !! "image" = Some (JDict {[ "url" := JStr "http://p.io/1.jpg" ]}) /\
  sample_photo_object !! "attachments" =
    Some (JList [JDict {[ "objectType" := JStr "image";
                          "image" := JDict {[ "url" := JStr "http://p.io/1.jpg" ]} ]}]).
Proof.
  destruct (@object_media sample_source sample_repr sample_photo_tweet sample_photo_entities
              sample_photo_object sample_photo_object_eq eq_refl eq_refl) as [H _].
  apply (H {[ "media_url" := JStr "http://p.io/1.jpg" ]}
           [JDict {[ "media_url" := JStr "http://p.io/2.jpg" ]}] "http://p.io/1.jpg");
    [reflexivity | reflexivity | discriminate].
Defined.

(** [empty_media_fails] on a tweet that has only an id and an empty
    media list. *)
Lemma empty_media_fails_witness :
  @tweet_to_object sample_source sample_repr (JDict sample_empty_media_tweet) =
  Raise IndexError.
Proof.
  destruct (@empty_media_fails sample_source sample_repr sample_empty_media_tweet
              sample_empty_media eq_refl eq_refl eq_refl) as (_ & _ & H).
  apply H; reflexivity.
Defined.

(** ** Location *)

Section ObjectLocation.
Context {src : Source} {rp : PyRepr}.

(** What the location block writes. *)
Lemma location_step_place (tweet p object object' : gmap string json) :
  tweet !! "place" = Some (JDict p) -> p <> ∅ ->
  location_step (JDict tweet) object = Ok object' ->
  exists location : gmap string json,
    object' !! "location" = Some (JDict location) /\
    location !! "displayName" = Some (default JNull (p !! "full_name")) /\
    location !! "id" = Some (default JNull (p !! "id")) /\
    (truthy (default JNull (tweet !! "geo")) = false -> location !! "url" = None) /\
    (forall (g : gmap string json) (coords : json),
       tweet !! "geo" = Some (JDict g) -> g !! "coordinates" = Some coords ->
       truthy coords = true ->
       exists url : string, maps_url coords = Ok url /\ location !! "url" = Some (JStr url)).
Proof.
  intros Hp Hne. unfold location_step. py_simpl. rewrite Hp. py_simpl.
  rewrite (truthy_dict p Hne). intros H.
  apply bind_Ok_inv in H as (location & Hl & H). apply Ok_inj in H as <-.
  exists location. split; [apply lookup_insert_eq|].
  destruct (truthy (default JNull (tweet !! "geo"))) eqn:Hg.
  - apply bind_Ok_inv in Hl as (coords & Hc & Hl).
    destruct (truthy coords) eqn:Htc.
    + apply bind_Ok_inv in Hl as (url & Hurl & Hl). apply Ok_inj in Hl as <-.
      split; [|split; [|split]]; [simplify_map_eq; reflexivity .. | discriminate |].
      intros g coords' Hgeo Hco _. rewrite Hgeo in Hc. py_simpl in Hc. rewrite Hco in Hc.
      py_simpl in Hc. apply Ok_inj in Hc as <-. exists url. split; [exact Hurl | apply lookup_insert_eq].
    + apply Ok_inj in Hl as <-.
      split; [|split; [|split]]; [simplify_map_eq; reflexivity .. | discriminate |].
      intros g coords' Hgeo Hco Hco'. rewrite Hgeo in Hc. py_simpl in Hc. rewrite Hco in Hc.
      py_simpl in Hc. apply Ok_inj in Hc as <-. congruence.
  - apply Ok_inj in Hl as <-.
    split; [|split; [|split]]; [simplify_map_eq; reflexivity .. | |].
    + intros _. simplify_map_eq. reflexivity.
    + intros g coords Hgeo Hco _. rewrite Hgeo in Hg. cbn [default from_option Datatypes.id] in Hg.
      rewrite (truthy_dict g (lookup_not_empty _ _ _ Hco)) in Hg. discriminate.
Qed.

Lemma location_step_no_place (tweet object object' : gmap string json) :
  truthy (default JNull (tweet !! "place")) = false ->
  location_step (JDict tweet) object = Ok object' -> object' = object.
Proof.
  intros Hp. unfold location_step. py_simpl. rewrite Hp. intros H.
  apply Ok_inj in H. congruence.
Qed.

Lemma maps_url_Ok (coords : json) (url : string) :
  maps_url coords = Ok url ->
  url <> "" /\
  forall cs : list json, coords = JList cs ->
    exists lat lon : json,
      cs = [lat; lon] /\
      url = "https://maps.google.com/maps?q=" +:+ py_str lat +:+ "," +:+ py_str lon.
Proof.
  unfold maps_url. intros H. apply bind_Ok_inv in H as (cs & Hcs & H).
  destruct cs as [|lat [|lon [|? ?]]]; try discriminate.
  apply Ok_inj in H as <-. split; [rewrite append_cons; discriminate|].
  intros cs' ->. cbn in Hcs. apply Ok_inj in Hcs as ->. eauto.
Qed.

(** X5: the object of a tweet with a place has a [location] with the
    full name of the place as [displayName] and its [id]; when the tweet
    also has a pair of coordinates, the location has the map link
    [https://maps.google.com/maps?q=<lat>,<lon>] as [url], and a list of
    coordinates that is not a pair cannot be converted.  Without a place
    there is no location, coordinates or not. *)
Theorem object_location (tweet out : gmap string json) :
  tweet_to_object (JDict tweet) = Ok (JDict out) ->
  truthy (default JNull (tweet !! "id_str")) = true ->
  (truthy (default JNull (tweet !! "place")) = false -> out !! "location" = None) /\
  (forall (p : gmap string json) (name : string),
     tweet !! "place" = Some (JDict p) ->
     p !! "full_name" = Some (JStr name) -> name <> "" ->
     exists location : gmap string json,
       out !! "location" = Some (JDict location) /\
       location !! "displayName" = Some (JStr name) /\
       (forall i : string, p !! "id" = Some (JStr i) -> i <> "" ->
          location !! "id" = Some (JStr i)) /\
       (p !! "id" = None -> location !! "id" = None) /\
       (truthy (default JNull (tweet !! "geo")) = false -> location !! "url" = None) /\
       (forall (g : gmap string json) (cs : list json),
          tweet !! "geo" = Some (JDict g) ->
          g !! "coordinates" = Some (JList cs) -> cs <> [] ->
          exists lat lon : json,
            cs = [lat; lon] /\
            location !! "url" =
              Some (JStr ("https://maps.google.com/maps?q=" +:+ py_str lat +:+ "," +:+
                          py_str lon)))).
Proof.
  intros H Hid.
  apply (tweet_to_object_steps_Ok _ _ Hid) in H
    as (published & o1 & o2 & o3 & o4 & Hp & H1 & H2 & H3 & H4 & ->).
  split.
  - intros Hpl. rewrite (location_step_no_place _ _ _ Hpl H4).
    rewrite lookup_omap, (tags_step_frame _ _ _ _ _ H3), (media_step_frame _ _ _ _ H2),
      (author_step_frame _ _ _ _ _ H1) by discriminate.
    simplify_map_eq. reflexivity.
  - intros p name Hpl Hname Hne.
    destruct (location_step_place _ _ _ _ Hpl (lookup_not_empty _ _ _ Hname) H4)
      as (location & Hloc & Hd & Hi & Hnogeo & Hgeo).
    rewrite Hname in Hd. cbn [default from_option Datatypes.id] in Hd.
    assert (Hdn : omap trim_entry location !! "displayName" = Some (JStr name)).
    { rewrite lookup_omap, Hd. apply trim_entry_trimmed; [constructor | apply is_null_str, Hne]. }
    exists (omap trim_entry location). split; [|split; [exact Hdn | split; [|split; [|split]]]].
    + rewrite lookup_omap, Hloc. cbn [mbind option_bind]. unfold trim_entry. cbv zeta.
      rewrite trim_nulls_dict. cbn [is_null].
      rewrite bool_decide_eq_false_2; [reflexivity|].
      exact (lookup_not_empty _ _ _ Hdn).
    + intros i Hpi Hine. rewrite lookup_omap, Hi, Hpi.
      apply trim_entry_trimmed; [constructor | apply is_null_str, Hine].
    + intros Hpi. rewrite lookup_omap, Hi, Hpi. reflexivity.
    + intros Hg. rewrite lookup_omap, (Hnogeo Hg). reflexivity.
    + intros g cs Hg Hcs Hcne.
      destruct (Hgeo g (JList cs) Hg Hcs) as (url & Hurl & Hlurl).
      { destruct cs; [congruence | reflexivity]. }
      destruct (maps_url_Ok _ _ Hurl) as (Hune & Hshape).
      destruct (Hshape cs eq_refl) as (lat & lon & -> & ->).
      exists lat, lon. split; [reflexivity|].
      rewrite lookup_omap, Hlurl.
      apply trim_entry_trimmed; [constructor | apply is_null_str, Hune].
Qed.

End ObjectLocation.

(** [object_location] on [sample_photo_tweet], sent from Paris at the
    coordinates 48 and 2. *)
Lemma object_location_witness :
  exists location : gmap string json,
    sample_photo_object !! "location" = Some (JDict location) /\
    location !! "displayName" = Some (JStr "Paris") /\
    location !! "url" = Some (JStr "https://maps.google.com/maps?q=48,2").
Proof.
  destruct (@object_location sample_source sample_repr sample_photo_tweet sample_photo_object
              sample_photo_object_eq eq_refl) as [_ H].
  destruct (H sample_place "Paris" eq_refl eq_refl) as (location & Hl & Hd & _ & _ & _ & Hgeo).
  - discriminate.
  - exists location. split; [exact Hl|]. split; [exact Hd|].
    destruct (Hgeo {[ "coordinates" := JList [JInt 48; JInt 2] ]} [JInt 48; JInt 2]
                eq_refl eq_refl) as (lat & lon & Hc & Hurl).
    + discriminate.
    + injection Hc as <- <-. exact Hurl.
Defined.

(** ** The list of tags *)

Section ObjectTags.
Context {src : Source} {rp : PyRepr}.

(** What the tags block went through when it returned. *)
Lemma tags_step_Ok (shares : result (list json)) (e object object' : gmap string json) :
  tags_step shares (JDict e) object = Ok object' ->
  exists (mentions hashtags urls tags : list (gmap string json)) (retweets : list json),
    Forall2 (fun x t => mention_tag x = Ok t) (entity_list e "user_mentions") mentions /\
    Forall2 (fun x t => hashtag_tag x = Ok t) (entity_list e "hashtags") hashtags /\
    Forall2 (fun x t => url_tag x = Ok t) (entity_list e "urls") urls /\
    Forall2 (fun t t' => rewrite_span t = Ok t') (mentions ++ hashtags ++ urls)%list tags /\
    shares = Ok retweets /\
    object' = <["tags" := JList ((JDict <$> tags) ++ retweets)]> object.
Proof.
  unfold tags_step. intros H.
  apply bind_Ok_inv in H as (mentions & Hm & H).
  apply bind_Ok_inv in H as (hashtags & Hh & H).
  apply bind_Ok_inv in H as (urls & Hu & H).
  apply bind_Ok_inv in H as (tags & Ht & H).
  apply bind_Ok_inv in H as (retweets & Hr & H).
  apply Ok_inj in H as <-.
  exists mentions, hashtags, urls, tags, retweets.
  auto 10 using entity_tags_Forall2, mapM_Ok_Forall2.
Qed.

Lemma rewrite_span_short (t : gmap string json) (x : json) :
  t !! "indices" = Some (JList [x]) -> rewrite_span t = Raise IndexError.
Proof. intros H. unfold rewrite_span. rewrite H. reflexivity. Qed.

Lemma hashtag_tag_no_text (h : gmap string json) :
  h !! "text" = None -> hashtag_tag (JDict h) = Raise TypeError.
Proof. intros H. unfold hashtag_tag. py_simpl. rewrite H. reflexivity. Qed.

(** X6: a tweet with an id cannot be converted when one of its
    hashtags has no [text], or when one of its mentions, hashtags or urls
    has a span of a single offset: building the tag fails in the first
    case, rewriting the span in the second. *)
Theorem malformed_entity_fails (tweet e ent : gmap string json) (key : string) :
  truthy (default JNull (tweet !! "id_str")) = true ->
  tweet !! "entities" = Some (JDict e) ->
  key = "user_mentions" \/ key = "hashtags" \/ key = "urls" ->
  JDict ent ∈ entity_list e key ->
  (key = "hashtags" /\ ent !! "text" = None) \/
  (exists x : json, ent !! "indices" = Some (JList [x])) ->
  ~ is_Ok (tweet_to_object (JDict tweet)) /\ ~ is_Ok (tweet_to_activity (JDict tweet)).
Proof.
  intros Hid He Hkey Hin Hbad.
  assert (Hno : forall out, tweet_to_object (JDict tweet) <> Ok out).
  { intros out H.
    destruct (tweet_to_object_Ok_dict _ _ H) as [o ->].
    apply (tweet_to_object_steps_Ok _ _ Hid) in H
      as (published & o1 & o2 & o3 & o4 & Hp & H1 & H2 & H3 & H4 & _).
    rewrite He in H3. cbn [default from_option Datatypes.id] in H3.
    apply tags_step_Ok in H3
      as (mentions & hashtags & urls & tags & retweets & Hm & Hh & Hu & Ht & _).
    apply list_elem_of_lookup in Hin as [i Hi].
    destruct Hbad as [[-> Htext] | [x Hx]].
    - destruct (Forall2_lookup_l _ _ _ _ _ Hh Hi) as (t & _ & Htag).
      rewrite (hashtag_tag_no_text _ Htext) in Htag. discriminate.
    - assert (Hsrc : exists t, t ∈ (mentions ++ hashtags ++ urls)%list /\ tag_of (JDict ent) t).
      { destruct Hkey as [-> | [-> | ->]].
        - destruct (Forall2_lookup_l _ _ _ _ _ Hm Hi) as (t & Ht' & Htag).
          exists t. split; [|left; exact Htag].
          apply list_elem_of_lookup_2 in Ht'. set_solver.
        - destruct (Forall2_lookup_l _ _ _ _ _ Hh Hi) as (t & Ht' & Htag).
          exists t. split; [|right; left; exact Htag].
          apply list_elem_of_lookup_2 in Ht'. set_solver.
        - destruct (Forall2_lookup_l _ _ _ _ _ Hu Hi) as (t & Ht' & Htag).
          exists t. split; [|right; right; exact Htag].
          apply list_elem_of_lookup_2 in Ht'. set_solver. }
      destruct Hsrc as (t & Htin & Htag).
      apply list_elem_of_lookup in Htin as [j Hj].
      destruct (Forall2_lookup_l _ _ _ _ _ Ht Hj) as (t' & _ & Hrw).
      destruct (tag_of_fields _ _ Htag) as (Hind & _).
      rewrite Hx in Hind. cbn [default from_option Datatypes.id] in Hind.
      rewrite (rewrite_span_short _ _ Hind) in Hrw. discriminate. }
  split.
  - intros [out H]. exact (Hno out H).
  - intros [out H]. unfold tweet_to_activity, tweet_to_activity_dict in H.
    destruct (tweet_to_object (JDict tweet)) as [o|] eqn:Ho; [|discriminate].
    exact (Hno o eq_refl).
Qed.

(** The tags of the entities survive the trimming, each as a mapping. *)
Lemma filter_trim_tags (tags : list (gmap string json)) :
  Forall (fun t : gmap string json =>
            exists kind : string, kind <> "" /\ t !! "objectType" = Some (JStr kind)) tags ->
  filter (fun x => is_null x = false) (trim_nulls <$> (JDict <$> tags)) =
  JDict <$> (omap trim_entry <$> tags).
Proof.
  induction 1 as [|t tags Ht _ IH]; [reflexivity|].
  cbn [fmap list_fmap]. rewrite filter_cons_True by (apply tag_not_null, Ht).
  rewrite trim_nulls_dict. f_equal. exact IH.
Qed.

Lemma filter_trim_shares (rs shares : list json) :
  Forall2 (fun r s => retweet_to_object r = Ok s) rs shares ->
  filter (fun x => is_null x = false) (trim_nulls <$> shares) =
  filter (fun x => is_null x = false) shares.
Proof.
  intros H. f_equal. rewrite <- (list_fmap_id shares) at 2. apply list_fmap_ext.
  intros i s Hs. destruct (Forall2_lookup_r _ _ _ _ _ H Hs) as (r & _ & Hr).
  apply trim_nulls_id, (retweet_to_object_trimmed _ _ Hr).
Qed.

Lemma trim_entry_list (l : list json) :
  default (JList []) (trim_entry (JList l)) =
    JList (filter (fun x => is_null x = false) (trim_nulls <$> l)) /\
  (trim_entry (JList l) = None <-> filter (fun x => is_null x = false) (trim_nulls <$> l) = []).
Proof.
  unfold trim_entry. cbv zeta. rewrite trim_nulls_list.
  destruct (filter _ _) as [|x k]; cbn [is_null default from_option Datatypes.id];
    split; try reflexivity; split; congruence.
Qed.

(** The tags of a converted tweet, before and after the trimming: the
    tags of the entities, each built and then rewritten, followed by the
    shares. *)
Lemma tweet_to_object_tags (tweet e out : gmap string json) :
  tweet_to_object (JDict tweet) = Ok (JDict out) ->
  truthy (default JNull (tweet !! "id_str")) = true ->
  default (JDict ∅) (tweet !! "entities") = JDict e ->
  exists (tm th tu : list (gmap string json)) (rs shares : list json),
    Forall2 (fun x t' => exists t, mention_tag x = Ok t /\ rewrite_span t = Ok t')
      (entity_list e "user_mentions") tm /\
    Forall2 (fun x t' => exists t, hashtag_tag x = Ok t /\ rewrite_span t = Ok t')
      (entity_list e "hashtags") th /\
    Forall2 (fun x t' => exists t, url_tag x = Ok t /\ rewrite_span t = Ok t')
      (entity_list e "urls") tu /\
    py_iter (default (JList []) (tweet !! "retweets")) = Ok rs /\
    Forall2 (fun r s => retweet_to_object r = Ok s) rs shares /\
    let tags := ((JDict <$> (@omap (gmap string) _ json json trim_entry <$> (tm ++ th ++ tu))) ++
                 filter (fun s => is_null s = false) shares)%list in
    default (JList []) (out !! "tags") = JList tags /\
    (out !! "tags" = None <-> tags = []).
Proof.
  intros H Hid He.
  apply (tweet_to_object_steps_Ok _ _ Hid) in H
    as (published & o1 & o2 & o3 & o4 & Hp & H1 & H2 & H3 & H4 & ->).
  rewrite He in H3. py_simpl in H3.
  apply tags_step_Ok in H3
    as (mentions & hashtags & urls & tags & shares & Hm & Hh & Hu & Ht & Hsh & ->).
  apply bind_Ok_inv in Hsh as (rs & Hrs & Hsh). apply mapM_Ok_Forall2 in Hsh.
  apply Forall2_app_inv_l in Ht as (tm & tr & Htm & Ht & ->).
  apply Forall2_app_inv_l in Ht as (th & tu & Hth & Htu & ->).
  exists tm, th, tu, rs, shares.
  assert (Hcomp : forall (tag : json -> result (gmap string json)) xs ts ts',
            Forall2 (fun x t => tag x = Ok t) xs ts ->
            Forall2 (fun t t' => rewrite_span t = Ok t') ts ts' ->
            Forall2 (fun x t' => exists t, tag x = Ok t /\ rewrite_span t = Ok t') xs ts').
  { intros tag xs ts ts' Hx. revert ts'.
    induction Hx as [|x t xs ts Hxt _ IH]; intros ts' Hts; inversion Hts; subst;
      constructor; eauto. }
  split; [exact (Hcomp _ _ _ _ Hm Htm)|].
  split; [exact (Hcomp _ _ _ _ Hh Hth)|].
  split; [exact (Hcomp _ _ _ _ Hu Htu)|].
  split; [exact Hrs|]. split; [exact Hsh|]. cbv zeta.
  assert (Hkinds : Forall (fun t : gmap string json =>
                     exists kind : string, kind <> "" /\ t !! "objectType" = Some (JStr kind))
                     (tm ++ th ++ tu)%list).
  { assert (Hk : forall (tag : json -> result (gmap string json)) xs ts ts',
              (forall x t, tag x = Ok t -> tag_of x t) ->
              Forall2 (fun x t => tag x = Ok t) xs ts ->
              Forall2 (fun t t' => rewrite_span t = Ok t') ts ts' ->
              Forall (fun t : gmap string json =>
                        exists kind : string,
                          kind <> "" /\ t !! "objectType" = Some (JStr kind)) ts').
    { intros tag xs ts ts' Htag Hx Hts. apply Forall_forall. intros t' Ht'.
      apply list_elem_of_lookup in Ht' as [i Hi].
      destruct (Forall2_lookup_r _ _ _ _ _ Hts Hi) as (t & Ht & Hrw).
      destruct (Forall2_lookup_r _ _ _ _ _ Hx Ht) as (x & _ & Hxt).
      destruct (tag_of_objectType _ _ (Htag x t Hxt)) as (kind & Hkind & Hko).
      exists kind. split; [exact Hkind|].
      rewrite (rewrite_span_lookup _ _ "objectType" Hrw) by discriminate. exact Hko. }
    repeat apply Forall_app_2.
    - apply (Hk mention_tag _ _ _ (fun x t H => or_introl H) Hm Htm).
    - apply (Hk hashtag_tag _ _ _ (fun x t H => or_intror (or_introl H)) Hh Hth).
    - apply (Hk url_tag _ _ _ (fun x t H => or_intror (or_intror H)) Hu Htu). }
  assert (Htags : omap trim_entry o4 !! "tags" =
                  trim_entry (JList ((JDict <$> (tm ++ th ++ tu)) ++ shares)%list)).
  { rewrite lookup_omap, (location_step_frame _ _ _ _ H4) by discriminate.
    rewrite lookup_insert_eq. reflexivity. }
  rewrite Htags. destruct (trim_entry_list ((JDict <$> (tm ++ th ++ tu)) ++ shares)%list) as [-> ->].
  rewrite fmap_app, filter_app, (filter_trim_tags _ Hkinds), (filter_trim_shares _ _ Hsh).
  split; reflexivity.
Qed.

(** A key of a rewritten and trimmed tag that the rewrite leaves alone. *)
Lemma tag_key (t t' : gmap string json) (k : string) :
  rewrite_span t = Ok t' -> k <> "indices" -> k <> "startIndex" -> k <> "length" ->
  omap trim_entry t' !! k = t !! k ≫= trim_entry.
Proof.
  intros Hrw ? ? ?. rewrite lookup_omap, (rewrite_span_lookup _ _ k Hrw) by assumption.
  reflexivity.
Qed.

Lemma Forall2_fmap_kind (P : json -> gmap string json -> Prop) (kind : string)
    (xs : list json) (ts : list (gmap string json)) :
  (forall x t', P x t' -> omap trim_entry t' !! "objectType" = Some (JStr kind)) ->
  Forall2 P xs ts ->
  length (@omap (gmap string) _ json json trim_entry <$> ts) = length xs /\
  Forall (fun t : gmap string json => t !! "objectType" = Some (JStr kind))
    (@omap (gmap string) _ json json trim_entry <$> ts).
Proof.
  intros HP H. split; [rewrite length_fmap; symmetry; exact (Forall2_length _ _ _ H)|].
  apply Forall_fmap, Forall_forall. intros t' Ht'. apply list_elem_of_lookup in Ht' as [i Hi].
  destruct (Forall2_lookup_r _ _ _ _ _ H Hi) as (x & _ & Hx). exact (HP x t' Hx).
Qed.

Lemma mention_tag_fields (x : json) (t : gmap string json) :
  mention_tag x = Ok t ->
  exists ent : gmap string json,
    x = JDict ent /\
    t !! "objectType" = Some (JStr "person") /\
    t !! "id" = Some (JStr (tag_uri (default JNull (ent !! "screen_name")))) /\
    t !! "url" = Some (JStr (user_url (default JNull (ent !! "screen_name")))) /\
    t !! "displayName" = Some (default JNull (ent !! "name")).
Proof.
  destruct x as [| | | | | |ent]; try discriminate. unfold mention_tag. py_simpl.
  intros H. apply Ok_inj in H as <-. exists ent.
  repeat split; simplify_map_eq; reflexivity.
Qed.

Lemma hashtag_tag_fields (x : json) (t : gmap string json) :
  hashtag_tag x = Ok t ->
  exists (ent : gmap string json) (text : string),
    x = JDict ent /\ ent !! "text" = Some (JStr text) /\
    t !! "objectType" = Some (JStr "hashtag") /\
    t !! "url" = Some (JStr ("https://twitter.com/search?q=%23" +:+ text)).
Proof.
  destruct x as [| | | | | |ent]; try discriminate. unfold hashtag_tag. py_simpl.
  intros H. apply bind_Ok_inv in H as (url & Hurl & H). py_simpl in H.
  apply Ok_inj in H as <-.
  destruct (ent !! "text") as [[| | | |text| |]|] eqn:Htext; try discriminate Hurl.
  cbn in Hurl. apply Ok_inj in Hurl as <-. exists ent, text.
  split; [reflexivity|]. split; [exact Htext|]. split; simplify_map_eq; reflexivity.
Qed.

Lemma url_tag_fields (x : json) (t : gmap string json) :
  url_tag x = Ok t ->
  exists ent : gmap string json,
    x = JDict ent /\
    t !! "objectType" = Some (JStr "article") /\
    t !! "url" = Some (default JNull (ent !! "expanded_url")).
Proof.
  destruct x as [| | | | | |ent]; try discriminate. unfold url_tag. py_simpl.
  intros H. apply Ok_inj in H as <-. exists ent.
  repeat split; simplify_map_eq; reflexivity.
Qed.

Lemma trim_entry_note (kind : string) : kind <> "" -> trim_entry (JStr kind) = Some (JStr kind).
Proof. intros H. apply trim_entry_trimmed; [constructor | apply is_null_str, H]. Qed.

(** X7: the [tags] of the object of a tweet are one [person] tag per
    mention, then one [hashtag] tag per hashtag, then one [article] tag
    per url, each list in the order of the tweet, followed by the shares
    of the retweets attached to the tweet, in their order, those that are
    [None] left out.  The object has no [tags] key exactly when that list
    is empty. *)
Theorem object_tags (tweet e out : gmap string json) (rs : list json) :
  tweet_to_object (JDict tweet) = Ok (JDict out) ->
  truthy (default JNull (tweet !! "id_str")) = true ->
  default (JDict ∅) (tweet !! "entities") = JDict e ->
  default (JList []) (tweet !! "retweets") = JList rs ->
  exists (ms hs us : list (gmap string json)) (shares : list json),
    length ms = length (entity_list e "user_mentions") /\
    length hs = length (entity_list e "hashtags") /\
    length us = length (entity_list e "urls") /\
    Forall (fun t : gmap string json => t !! "objectType" = Some (JStr "person")) ms /\
    Forall (fun t : gmap string json => t !! "objectType" = Some (JStr "hashtag")) hs /\
    Forall (fun t : gmap string json => t !! "objectType" = Some (JStr "article")) us /\
    Forall2 (fun r s => retweet_to_object r = Ok s) rs shares /\
    default (JList []) (out !! "tags") =
      JList ((JDict <$> (ms ++ hs ++ us)) ++ filter (fun s => is_null s = false) shares)%list /\
    (out !! "tags" = None <->
     ((JDict <$> (ms ++ hs ++ us)) ++ filter (fun s => is_null s = false) shares)%list = []).
Proof.
  intros H Hid He Hrs.
  destruct (tweet_to_object_tags _ _ _ H Hid He)
    as (tm & th & tu & rs' & shares & Hm & Hh & Hu & Hrs' & Hsh & Htags & Hnone).
  rewrite Hrs in Hrs'. cbn [py_iter] in Hrs'. apply Ok_inj in Hrs' as <-.
  assert (KHm : forall (x : json) (t' : gmap string json),
            (exists t, mention_tag x = Ok t /\ rewrite_span t = Ok t') ->
            omap trim_entry t' !! "objectType" = Some (JStr "person")).
  { intros x t' (t & Ht & Hrw). destruct (mention_tag_fields _ _ Ht) as (ent & _ & Ho & _).
    rewrite (tag_key _ _ _ Hrw), Ho by discriminate. apply trim_entry_note. discriminate. }
  destruct (Forall2_fmap_kind _ _ _ _ KHm Hm) as [Hlm Hkm].
  assert (KHh : forall (x : json) (t' : gmap string json),
            (exists t, hashtag_tag x = Ok t /\ rewrite_span t = Ok t') ->
            omap trim_entry t' !! "objectType" = Some (JStr "hashtag")).
  { intros x t' (t & Ht & Hrw).
    destruct (hashtag_tag_fields _ _ Ht) as (ent & text & _ & _ & Ho & _).
    rewrite (tag_key _ _ _ Hrw), Ho by discriminate. apply trim_entry_note. discriminate. }
  destruct (Forall2_fmap_kind _ _ _ _ KHh Hh) as [Hlh Hkh].
  assert (KHu : forall (x : json) (t' : gmap string json),
            (exists t, url_tag x = Ok t /\ rewrite_span t = Ok t') ->
            omap trim_entry t' !! "objectType" = Some (JStr "article")).
  { intros x t' (t & Ht & Hrw). destruct (url_tag_fields _ _ Ht) as (ent & _ & Ho & _).
    rewrite (tag_key _ _ _ Hrw), Ho by discriminate. apply trim_entry_note. discriminate. }
  destruct (Forall2_fmap_kind _ _ _ _ KHu Hu) as [Hlu Hku].
  exists (@omap (gmap string) _ json json trim_entry <$> tm),
    (@omap (gmap string) _ json json trim_entry <$> th),
    (@omap (gmap string) _ json json trim_entry <$> tu), shares.
  do 6 (split; [assumption|]). split; [exact Hsh|].
  rewrite <- !fmap_app. split; [exact Htags | exact Hnone].
Qed.

(** X8: in the [tags] of the object of a tweet, the tag of the
    [j]-th mention has the profile URL [http://twitter.com/<screen
    name>] as [url], the tag URI of the screen name as [id] and the name
    as [displayName]; the tag of the [j]-th hashtag, which comes after
    the tags of all mentions, has the search link
    [https://twitter.com/search?q=%23<text>] as [url]; the tag of the
    [j]-th url, after the tags of all hashtags, has the expanded URL as
    [url]. *)
Theorem tag_fields (tweet e out ent : gmap string json) (j : nat) :
  tweet_to_object (JDict tweet) = Ok (JDict out) ->
  truthy (default JNull (tweet !! "id_str")) = true ->
  default (JDict ∅) (tweet !! "entities") = JDict e ->
  exists tags : list json,
    default (JList []) (out !! "tags") = JList tags /\
    (entity_list e "user_mentions" !! j = Some (JDict ent) ->
     exists tag : gmap string json,
       tags !! j = Some (JDict tag) /\
       tag !! "objectType" = Some (JStr "person") /\
       tag !! "url" =
         Some (JStr ("http://twitter.com/" +:+ py_str (default JNull (ent !! "screen_name")))) /\
       (tag_uri (default JNull (ent !! "screen_name")) <> "" ->
        tag !! "id" = Some (JStr (tag_uri (default JNull (ent !! "screen_name"))))) /\
       carries ent "name" (fun v => v) (tag !! "displayName")) /\
    (entity_list e "hashtags" !! j = Some (JDict ent) ->
     exists (tag : gmap string json) (text : string),
       tags !! (length (entity_list e "user_mentions") + j)%nat = Some (JDict tag) /\
       ent !! "text" = Some (JStr text) /\
       tag !! "objectType" = Some (JStr "hashtag") /\
       tag !! "url" = Some (JStr ("https://twitter.com/search?q=%23" +:+ text))) /\
    (entity_list e "urls" !! j = Some (JDict ent) ->
     exists tag : gmap string json,
       tags !! (length (entity_list e "user_mentions") +
                length (entity_list e "hashtags") + j)%nat = Some (JDict tag) /\
       tag !! "objectType" = Some (JStr "article") /\
       carries ent "expanded_url" (fun v => v) (tag !! "url")).
Proof.
  intros H Hid He.
  destruct (tweet_to_object_tags _ _ _ H Hid He)
    as (tm & th & tu & rs & shares & Hm & Hh & Hu & _ & _ & Htags & _).
  eexists. split; [exact Htags|].
  pose proof (Forall2_length _ _ _ Hm) as Hlm. pose proof (Forall2_length _ _ _ Hh) as Hlh.
  assert (Hat : forall (i : nat) (t' : gmap string json),
            (tm ++ th ++ tu)%list !! i = Some t' ->
            ((JDict <$> (@omap (gmap string) _ json json trim_entry <$> (tm ++ th ++ tu))) ++
             filter (fun s => is_null s = false) shares)%list !! i =
            Some (JDict (omap trim_entry t'))).
  { intros i t' Hi. apply lookup_app_l_Some. rewrite !list_lookup_fmap, Hi. reflexivity. }
  split; [|split].
  - intros Hj. destruct (Forall2_lookup_l _ _ _ _ _ Hm Hj) as (t' & Ht' & t & Ht & Hrw).
    destruct (mention_tag_fields _ _ Ht) as (ent' & Hent & Ho & Hi & Hurl & Hd).
    apply JDict_inj in Hent as <-.
    exists (omap trim_entry t'). split; [apply Hat, lookup_app_l_Some, Ht'|].
    rewrite !(tag_key _ _ _ Hrw) by discriminate. rewrite Ho, Hi, Hurl, Hd.
    cbn [mbind option_bind]. split; [apply trim_entry_note; discriminate|].
    split; [apply trim_entry_note; discriminate|].
    split; [intros Hne; apply trim_entry_note, Hne | apply carries_plain].
  - intros Hj. destruct (Forall2_lookup_l _ _ _ _ _ Hh Hj) as (t' & Ht' & t & Ht & Hrw).
    destruct (hashtag_tag_fields _ _ Ht) as (ent' & text & Hent & Htext & Ho & Hurl).
    apply JDict_inj in Hent as <-.
    exists (omap trim_entry t'), text. split.
    { apply Hat. rewrite Hlm, lookup_app_r by lia.
      replace (length tm + j - length tm)%nat with j by lia.
      apply lookup_app_l_Some, Ht'. }
    rewrite !(tag_key _ _ _ Hrw) by discriminate. rewrite Ho, Hurl.
    cbn [mbind option_bind]. split; [exact Htext|].
    split; apply trim_entry_note; [discriminate | rewrite append_cons; discriminate].
  - intros Hj. destruct (Forall2_lookup_l _ _ _ _ _ Hu Hj) as (t' & Ht' & t & Ht & Hrw).
    destruct (url_tag_fields _ _ Ht) as (ent' & Hent & Ho & Hurl).
    apply JDict_inj in Hent as <-.
    exists (omap trim_entry t'). split.
    { apply Hat. rewrite Hlm, Hlh, lookup_app_r by lia.
      replace (length tm + length th + j - length tm)%nat with (length th + j)%nat by lia.
      rewrite lookup_app_r by lia.
      replace (length th + j - length th)%nat with j by lia. exact Ht'. }
    rewrite !(tag_key _ _ _ Hrw) by discriminate. rewrite Ho, Hurl.
    cbn [mbind option_bind]. split; [apply trim_entry_note; discriminate | apply carries_plain].
Qed.

End ObjectTags.

(** [malformed_entity_fails] on a tweet whose hashtag has no text. *)
Lemma malformed_entity_fails_witness :
  ~ is_Ok (@tweet_to_object sample_source sample_repr (JDict sample_bad_hashtag_tweet)).
Proof.
  apply (@malformed_entity_fails sample_source sample_repr sample_bad_hashtag_tweet
           sample_bad_hashtags ∅ "hashtags").
  - reflexivity.
  - reflexivity.
  - right. left. reflexivity.
  - apply list_elem_of_here.
  - left. split; reflexivity.
Defined.

(** [object_tags] on [sample_tweet]: a mention, a hashtag and a
    retweet. *)
Lemma object_tags_witness :
  exists (ms hs us : list (gmap string json)) (shares : list json),
    length ms = 1%nat /\ length hs = 1%nat /\ length us = 0%nat /\
    Forall2 (fun r s => @retweet_to_object sample_source sample_repr r = Ok s)
      [JDict sample_retweet] shares /\
    default (JList []) (sample_object !! "tags") =
      JList ((JDict <$> (ms ++ hs ++ us)) ++ filter (fun s => is_null s = false) shares)%list.
Proof.
  destruct (@object_tags sample_source sample_repr sample_tweet sample_entities sample_object
              [JDict sample_retweet] sample_object_eq eq_refl eq_refl eq_refl)
    as (ms & hs & us & shares & Hm & Hh & Hu & _ & _ & _ & Hs & Ht & _).
  exists ms, hs, us, shares. auto.
Defined.

(** [tag_fields] on the mention of [sample_tweet]. *)
Lemma tag_fields_witness :
  exists (tags : list json) (tag : gmap string json),
    default (JList []) (sample_object !! "tags") = JList tags /\
    tags !! 0%nat = Some (JDict tag) /\
    tag !! "objectType" = Some (JStr "person") /\
    tag !! "url" = Some (JStr "http://twitter.com/bob").
Proof.
  destruct (@tag_fields sample_source sample_repr sample_tweet sample_entities sample_object
              sample_mention 0 sample_object_eq eq_refl eq_refl) as (tags & Ht & H & _).
  destruct (H eq_refl) as (tag & Htag & Hkind & Hurl & _).
  exists tags, tag. auto.
Defined.

(** ** The fields of actors and activities *)

Section ActorFields.
Context {src : Source} {rp : PyRepr}.

(** X9: the actor of a user with a screen name has that name as
    [username] and its tag URI as [id]; the user's [name] and
    [description] are carried over as [displayName] and [description],
    the profile image and the location nested as [{url: ...}] and
    [{displayName: ...}], and a field the user lacks is left out of the
    actor; [published] is the converted [created_at]. *)
Theorem actor_fields (user actor : gmap string json) (name : string) :
  user !! "screen_name" = Some (JStr name) -> name <> "" ->
  user_to_actor (JDict user) = Ok (JDict actor) ->
  actor !! "username" = Some (JStr name) /\
  (tag_uri (JStr name) <> "" -> actor !! "id" = Some (JStr (tag_uri (JStr name)))) /\
  carries user "name" (fun v => v) (actor !! "displayName") /\
  carries user "description" (fun v => v) (actor !! "description") /\
  carries user "profile_image_url" (fun v => JDict {[ "url" := v ]}) (actor !! "image") /\
  carries user "location" (fun v => JDict {[ "displayName" := v ]}) (actor !! "location") /\
  exists published : json,
    rfc2822_to_iso8601 (default JNull (user !! "created_at")) = Ok published /\
    actor !! "published" =
      if truthy (default JNull (user !! "created_at")) then Some published else None.
Proof.
  intros Hu Hne H. split; [exact (user_to_actor_username _ _ _ Hu Hne H)|].
  revert H. unfold user_to_actor. py_simpl. rewrite Hu. py_simpl.
  rewrite (truthy_str name Hne). py_simpl.
  destruct (rfc2822_to_iso8601 _) as [published|e] eqn:Hp; [|discriminate].
  py_simpl. rewrite trim_nulls_dict. intros H. apply Ok_inj, JDict_inj in H as <-.
  rewrite !lookup_omap.
  split; [|split; [|split; [|split; [|split]]]].
  - intros Htag. simplify_map_eq.
    apply trim_entry_trimmed; [constructor | apply is_null_str, Htag].
  - simplify_map_eq. apply carries_plain.
  - simplify_map_eq. apply carries_plain.
  - simplify_map_eq. apply carries_nested.
  - simplify_map_eq. apply carries_nested.
  - exists published. split; [reflexivity|]. simplify_map_eq.
    unfold rfc2822_to_iso8601 in Hp.
    destruct (truthy (default JNull (user !! "created_at"))); cbn [negb] in Hp.
    + destruct (default JNull (user !! "created_at")); try discriminate.
      apply bind_Ok_inv in Hp as (dt & _ & Hp). apply Ok_inj in Hp as <-.
      apply trim_entry_trimmed; [constructor | apply is_null_str, isoformat_not_empty].
    + apply Ok_inj in Hp as <-. reflexivity.
Qed.

End ActorFields.

Section ActivityFields.
Context {src : Source} {rp : PyRepr}.

Lemma set_context_lookup_ne (reply_to_id reply_to_screenname : json)
    (activity : gmap string json) (k : string) :
  k <> "context" ->
  set_context reply_to_id reply_to_screenname activity !! k = activity !! k.
Proof.
  intros Hk. unfold set_context. destruct (_ && _); [|reflexivity].
  rewrite lookup_insert_ne; auto.
Qed.

(** A field of a trimmed mapping, read with [get] and trimmed again, is
    the field. *)
Lemma trim_entry_get (object : gmap string json) (k : string) :
  trimmed (JDict object) -> trim_entry (default JNull (object !! k)) = object !! k.
Proof.
  intros Ht. destruct (object !! k) as [v|] eqn:Hk; [|reflexivity].
  destruct (trimmed_lookup _ _ _ Ht Hk). now apply trim_entry_trimmed.
Qed.

(** X10: the activity of a tweet has the verb [post]; its [published],
    [id] and [url] are those of the object of the tweet, its [actor] is
    the [author] of the object, and its [object] is that object: each is
    present in the activity exactly when the object has it, and an empty
    object is left out. *)
Theorem activity_fields (tweet activity : gmap string json) :
  tweet_to_activity (JDict tweet) = Ok (JDict activity) ->
  exists object : gmap string json,
    tweet_to_object (JDict tweet) = Ok (JDict object) /\
    activity !! "verb" = Some (JStr "post") /\
    activity !! "published" = object !! "published" /\
    activity !! "id" = object !! "id" /\
    activity !! "url" = object !! "url" /\
    activity !! "actor" = object !! "author" /\
    (object <> ∅ -> activity !! "object" = Some (JDict object)) /\
    (object = ∅ -> activity !! "object" = None).
Proof.
  intros H. apply tweet_to_activity_Ok in H as (object & parsed & Hobj & _ & H).
  rewrite trim_nulls_dict in H. apply JDict_inj in H as ->.
  pose proof (tweet_to_object_trimmed _ _ Hobj) as Ht.
  exists object. split; [exact Hobj|].
  rewrite !lookup_omap, !set_generator_lookup_ne, !set_context_lookup_ne by discriminate.
  split; [simplify_map_eq; reflexivity|].
  do 4 (split; [simplify_map_eq; apply trim_entry_get, Ht|]).
  simplify_map_eq. split.
  - intros Hne. apply trim_entry_trimmed; [exact Ht|].
    cbn. apply bool_decide_eq_false_2, Hne.
  - intros ->. reflexivity.
Qed.

(** X11: the activity conversion of a record returns exactly when its
    object conversion returns and its [source] is a string or absent: a
    [source] of any other type, [null] included, makes the search of
    the generator pattern fail. *)
Theorem activity_returns_iff (tweet : gmap string json) :
  is_Ok (tweet_to_activity (JDict tweet)) <->
  is_Ok (tweet_to_object (JDict tweet)) /\
  (tweet !! "source" = None \/ exists s : string, tweet !! "source" = Some (JStr s)).
Proof.
  split.
  - intros [out H]. apply tweet_to_activity_Ok in H as (object & parsed & Hobj & Hs & _).
    split; [eexists; exact Hobj|].
    destruct (tweet !! "source") as [v|]; [right | left; reflexivity].
    destruct v; try discriminate Hs. eauto.
  - intros [Hobj Hs]. destruct Hs as [Hs | [s Hs]];
      (eapply tweet_to_activity_is_Ok; [rewrite Hs; reflexivity | exact Hobj]).
Qed.

End ActivityFields.

(** [actor_fields] on [sample_user]. *)
Lemma actor_fields_witness :
  sample_actor !! "username" = Some (JStr "alice") /\
  sample_actor !! "id" = Some (JStr "tag:twitter.com:alice") /\
  sample_actor !! "displayName" = Some (JStr "Alice") /\
  sample_actor !! "image" = None.
Proof.
  destruct (@actor_fields sample_source sample_repr sample_user sample_actor "alice")
    as (Hu & Hi & Hn & _ & Hp & _).
  - reflexivity.
  - discriminate.
  - exact sample_actor_eq.
  - split; [exact Hu|]. split; [apply Hi; discriminate|]. split.
    + apply (proj1 Hn "Alice"); [reflexivity | discriminate].
    + apply (proj2 Hp). reflexivity.
Defined.

(** [activity_fields] on [sample_tweet]. *)
Lemma activity_fields_witness :
  sample_activity !! "verb" = Some (JStr "post") /\
  sample_activity !! "id" = sample_object !! "id" /\
  sample_activity !! "actor" = sample_object !! "author" /\
  sample_activity !! "object" = Some (JDict sample_object).
Proof.
  destruct (@activity_fields sample_source sample_repr sample_tweet sample_activity
              sample_activity_eq) as (object & Ho & Hv & _ & Hi & _ & Ha & Hobj & _).
  rewrite sample_object_eq in Ho. injection Ho as <-.
  split; [exact Hv|]. split; [exact Hi|]. split; [exact Ha|].
  apply Hobj. intros H. apply (f_equal (fun m : gmap string json => m !! "objectType")) in H.
  discriminate H.
Defined.

(** ** Nested conversions *)

Section Nested.
Context {src : Source} {rp : PyRepr}.

(** X12: the object conversion of a tweet with an id returns only if
    every conversion nested in it does: that of its [created_at], that of
    its user, and that of every retweet attached to it.  When the
    timestamp of the tweet converts and the conversion of the user raises,
    the tweet raises the same exception. *)
Theorem nested_conversions (tweet : gmap string json) :
  truthy (default JNull (tweet !! "id_str")) = true ->
  (is_Ok (tweet_to_object (JDict tweet)) ->
   is_Ok (rfc2822_to_iso8601 (default JNull (tweet !! "created_at"))) /\
   (forall user : json, tweet !! "user" = Some user -> truthy user = true ->
      is_Ok (user_to_actor user)) /\
   (forall (rs : list json) (r : json),
      tweet !! "retweets" = Some (JList rs) -> r ∈ rs -> is_Ok (retweet_to_object r))) /\
  (forall (user : json) (e : exn),
     is_Ok (rfc2822_to_iso8601 (default JNull (tweet !! "created_at"))) ->
     tweet !! "user" = Some user -> truthy user = true ->
     user_to_actor user = Raise e ->
     tweet_to_object (JDict tweet) = Raise e /\ tweet_to_activity (JDict tweet) = Raise e).
Proof.
  intros Hid. split.
  - intros [out H]. destruct (tweet_to_object_Ok_dict _ _ H) as [o ->].
    apply (tweet_to_object_steps_Ok _ _ Hid) in H
      as (published & o1 & o2 & o3 & o4 & Hp & H1 & H2 & H3 & H4 & _).
    split; [eexists; exact Hp|]. split.
    + intros user Hu Ht. unfold author_step in H1. py_simpl in H1.
      rewrite Hu in H1. py_simpl in H1. rewrite Ht in H1.
      apply bind_Ok_inv in H1 as (author & Ha & _). eexists. exact Ha.
    + intros rs r Hrs Hr. unfold tags_step in H3.
      do 4 (apply bind_Ok_inv in H3 as (? & _ & H3)).
      apply bind_Ok_inv in H3 as (shares & Hs & _).
      py_simpl in Hs. rewrite Hrs in Hs. py_simpl in Hs. cbn [py_iter] in Hs.
      py_simpl in Hs. apply mapM_Ok_Forall2 in Hs.
      apply list_elem_of_lookup in Hr as [i Hi].
      destruct (Forall2_lookup_l _ _ _ _ _ Hs Hi) as (s & _ & Hs').
      eexists. exact Hs'.
  - intros user e [published Hp] Hu Ht He.
    assert (Ho : tweet_to_object (JDict tweet) = Raise e).
    { rewrite tweet_to_object_unfold, tweet_to_object_with_steps.
      py_simpl. rewrite Hid. py_simpl. rewrite Hp. py_simpl.
      unfold author_step. py_simpl. rewrite Hu. py_simpl. rewrite Ht, He. reflexivity. }
    split; [exact Ho|]. unfold tweet_to_activity, tweet_to_activity_dict.
    rewrite Ho. reflexivity.
Qed.

End Nested.

(** [nested_conversions] on [sample_tweet]: its user and its retweet
    convert. *)
Lemma nested_conversions_witness :
  is_Ok (@user_to_actor sample_source sample_repr (JDict sample_user)) /\
  is_Ok (@retweet_to_object sample_source sample_repr (JDict sample_retweet)).
Proof.
  destruct (@nested_conversions sample_source sample_repr sample_tweet eq_refl) as [H _].
  destruct H as (_ & Hu & Hr); [eexists; exact sample_object_eq|].
  split.
  - apply Hu; reflexivity.
  - apply (Hr [JDict sample_retweet]); [reflexivity | apply list_elem_of_here].
Defined.

(** ** The share of a retweet *)

Section ShareIdentity.
Context {src : Source} {rp : PyRepr}.

(** X13: the share made of a retweet is the share of the one who
    retweeted: its [url] is the status URL of the retweet itself, its
    [author] the actor of the user of the retweet and its [published] the
    time of the retweet, while its [object] points to the original; the
    text of the retweet is not kept. *)
Theorem share_identity (retweet share user : gmap string json) (orig id : json)
    (name : string) :
  retweet_to_object (JDict retweet) = Ok (JDict share) ->
  retweet !! "retweeted_status" = Some orig -> truthy orig = true ->
  retweet !! "id_str" = Some id -> truthy id = true ->
  retweet !! "user" = Some (JDict user) ->
  user !! "screen_name" = Some (JStr name) -> name <> "" ->
  share !! "url" = Some (JStr ("http://twitter.com/" +:+ name +:+ "/status/" +:+ py_str id)) /\
  (exists author : gmap string json,
     user_to_actor (JDict user) = Ok (JDict author) /\
     share !! "author" = Some (JDict author)) /\
  (exists published : json,
     rfc2822_to_iso8601 (default JNull (retweet !! "created_at")) = Ok published /\
     share !! "published" =
       if truthy (default JNull (retweet !! "created_at")) then Some published else None) /\
  (exists o u : gmap string json,
     orig = JDict o /\ default (JDict ∅) (o !! "user") = JDict u /\
     share !! "object" =
       Some (JDict {[ "url" := JStr (status_url (default JNull (u !! "screen_name"))
                                                (default JNull (o !! "id_str"))) ]})) /\
  share !! "content" = Some (JStr "retweeted this.").
Proof.
  intros H Ho Hto Hid Ht Hu Hs Hne.
  destruct (retweet_to_object_Ok _ _ _ Ho Hto H) as (wrapper & o & u & Hw & -> & Hou & Hsh).
  apply JDict_inj in Hsh as ->.
  assert (Hkeep : forall k : string,
            k <> "objectType" -> k <> "verb" -> k <> "object" -> k <> "content" ->
            (share_fields (default JNull (u !! "screen_name")) (default JNull (o !! "id_str"))
               ∪ wrapper) !! k = wrapper !! k).
  { intros k ? ? ? ?. apply lookup_union_r. unfold share_fields.
    rewrite !lookup_insert_ne, lookup_singleton_ne by congruence. reflexivity. }
  rewrite !Hkeep by discriminate.
  destruct (tweet_to_object_named _ _ _ _ _ Hw Hid Ht Hu Hs Hne) as (Hurl & _ & Hauthor).
  assert (Hid' : truthy (default JNull (retweet !! "id_str")) = true)
    by (rewrite Hid; exact Ht).
  split; [exact Hurl|]. split; [exact Hauthor|].
  split; [exact (tweet_to_object_published _ _ Hw Hid')|]. split.
  - exists o, u. split; [reflexivity|]. split; [exact Hou|].
    apply lookup_union_Some_l. unfold share_fields. simplify_map_eq. reflexivity.
  - apply lookup_union_Some_l. unfold share_fields. simplify_map_eq. reflexivity.
Qed.

End ShareIdentity.

(** [share_identity] on [sample_retweet]: [carol] retweets the tweet 42
    of [alice]. *)
Lemma share_identity_witness :
  exists share : gmap string json,
    sample_share = JDict share /\
    share !! "url" = Some (JStr "http://twitter.com/carol/status/101") /\
    share !! "content" = Some (JStr "retweeted this.").
Proof.
  eexists. split; [reflexivity|].
  destruct (@share_identity sample_source sample_repr sample_retweet _
              {[ "screen_name" := JStr "carol" ]} (JDict sample_orig) (JStr "101") "carol"
              sample_share_eq eq_refl eq_refl eq_refl eq_refl eq_refl eq_refl)
    as (Hurl & _ & _ & _ & Hc).
  - discriminate.
  - split; [exact Hurl | exact Hc].
Defined.

(** ** The fields a conversion reads *)

Section FieldsRead.
Context {src : Source} {rp : PyRepr}.

(** The fields of a tweet that the object conversion reads, and those
    the activity conversion reads besides. *)
Lemma tweet_to_object_insert (tweet : gmap string json) (k : string) (v : json) :
  k ∉ ["id_str"; "created_at"; "text"; "user"; "entities"; "retweets"; "place"; "geo"] ->
  tweet_to_object (JDict (<[k := v]> tweet)) = tweet_to_object (JDict tweet).
Proof.
  intros Hk.
  assert (Hne : forall key : string,
            key ∈ ["id_str"; "created_at"; "text"; "user"; "entities"; "retweets"; "place";
                   "geo"] -> <[k := v]> tweet !! key = tweet !! key).
  { intros key Hkey. apply lookup_insert_ne. intros ->. exact (Hk Hkey). }
  rewrite !tweet_to_object_unfold. unfold tweet_to_object_with. cbn [py_get].
  rewrite !Hne by (repeat first [apply list_elem_of_here | apply list_elem_of_further]).
  reflexivity.
Qed.

(** X14: the object of a tweet depends on its [id_str], [created_at],
    [text], [user], [entities], [retweets], [place] and [geo] only, and
    its activity on these and on [in_reply_to_screen_name],
    [in_reply_to_status_id] and [source]: setting any other field, the
    numeric [id] for one, changes neither. *)
Theorem fields_read (tweet : gmap string json) (k : string) (v : json) :
  k ∉ ["id_str"; "created_at"; "text"; "user"; "entities"; "retweets"; "place"; "geo"] ->
  tweet_to_object (JDict (<[k := v]> tweet)) = tweet_to_object (JDict tweet) /\
  (k ∉ ["in_reply_to_screen_name"; "in_reply_to_status_id"; "source"] ->
   tweet_to_activity (JDict (<[k := v]> tweet)) = tweet_to_activity (JDict tweet)).
Proof.
  intros Hk. split; [exact (tweet_to_object_insert _ _ _ Hk)|]. intros Hk'.
  assert (Hne : forall key : string,
            key ∈ ["in_reply_to_screen_name"; "in_reply_to_status_id"; "source"] ->
            <[k := v]> tweet !! key = tweet !! key).
  { intros key Hkey. apply lookup_insert_ne. intros ->. exact (Hk' Hkey). }
  unfold tweet_to_activity, tweet_to_activity_dict.
  rewrite (tweet_to_object_insert _ _ _ Hk). cbn [py_get].
  rewrite !Hne by (repeat first [apply list_elem_of_here | apply list_elem_of_further]).
  reflexivity.
Qed.

End FieldsRead.

(** [fields_read] on [sample_tweet] and the numeric [id]. *)
Lemma fields_read_witness :
  @tweet_to_object sample_source sample_repr (JDict (<["id" := JInt 43]> sample_tweet)) =
  Ok (JDict sample_object).
Proof.
  rewrite <- sample_object_eq.
  apply (@fields_read sample_source sample_repr sample_tweet "id" (JInt 43)).
  intros H. repeat (apply elem_of_cons in H as [H | H]; [discriminate H|]). inversion H.
Defined.

(** * Properties of the fetcher *)

Lemma mapM_Forall2_Ok {A B} (f : A -> result B) (l : list A) (k : list B) :
  Forall2 (fun x y => f x = Ok y) l k -> mapM f l = Ok k.
Proof.
  induction 1 as [|x y l k Hx _ IH]; [reflexivity|].
  cbn. rewrite Hx. cbn. rewrite IH. reflexivity.
Qed.

Lemma mapM_Raise_elem {A B} (f : A -> result B) (l : list A) (x : A) :
  x ∈ l -> ~ is_Ok (f x) -> exists e : exn, mapM f l = Raise e.
Proof.
  intros Hx Hf. destruct (mapM f l) as [k|e] eqn:Hk; [|eauto].
  apply mapM_Ok_Forall2 in Hk. apply list_elem_of_lookup in Hx as [i Hi].
  destruct (Forall2_lookup_l _ _ _ _ _ Hk Hi) as (y & _ & Hy).
  exfalso. apply Hf. exists y. exact Hy.
Qed.

Section FetcherRuns.
Context {src : Source} {rp : PyRepr} {net : Network}.
Variable is_SELF : json -> bool.

Lemma run_bind {A B} (m : io A) (f : A -> io B) (h : list string) :
  run (m ≫= f) h =
  match run m h with
  | (Returned a, h') => run (f a) h'
  | (Raised e, h') => (Raised e, h')
  | (Failed x, h') => (Failed x, h')
  end.
Proof. reflexivity. Qed.

Lemma run_lift {A} (r : result A) (h : list string) :
  run (lift r) h = (match r with Ok a => Returned a | Raise e => Raised e end, h).
Proof. reflexivity. Qed.



Lemma get_activities_timeline (user_id group_id app_id activity_id : json)
    (start_index count : Z) (fetch_likes fetch_shares : bool) (h : list string) :
  truthy activity_id = false ->
  run (get_activities is_SELF user_id group_id app_id activity_id start_index count
         fetch_likes fetch_shares) h =
  let url := (if is_SELF group_id then API_SELF_TIMELINE_URL else API_TIMELINE_URL)
               (count + start_index) in
  match reply h url with
  | inl f => (Failed f, h ++ [url])%list
  | inr page =>
      match (ts ← py_slice_from page start_index; py_iter ts) with
      | Raise e => (Raised e, h ++ [url])%list
      | Ok tweets =>
          run (tweets' ← (if fetch_shares then mapM fetch_retweets tweets else mret tweets);
               activities ← lift (mapM tweet_to_activity tweets');
               mret (None, activities)) (h ++ [url])%list
      end
  end.
Proof.
  intros Hid. unfold get_activities. rewrite Hid. cbv zeta.
  rewrite !run_bind. cbn [urlread_json run].
  destruct (reply h _) as [f|page]; [reflexivity|].
  rewrite run_bind, run_lift.
  destruct (py_slice_from page start_index) as [ts|e]; [|reflexivity].
  rewrite run_bind, run_lift. cbn [mbind result_bind].
  destruct (py_iter ts) as [tweets|e]; reflexivity.
Qed.

(** X15: without [activity_id] and without [fetch_shares],
    [get_activities] makes exactly one request, to the timeline of the
    user when [group_id] is [SELF] and to the home timeline otherwise,
    for [count + start_index] tweets, whatever the reply.  A failed
    request is the failure of the call.  When the reply is a list, the
    tweets from [start_index] on are converted in order, with [None] as
    total count; one tweet that does not convert makes the whole call
    raise. *)
Theorem timeline_page (user_id group_id app_id activity_id : json)
    (start_index count : Z) (fetch_likes : bool) (h : list string) :
  truthy activity_id = false ->
  let url := (if is_SELF group_id then API_SELF_TIMELINE_URL else API_TIMELINE_URL)
               (count + start_index) in
  let call := run (get_activities is_SELF user_id group_id app_id activity_id
                     start_index count fetch_likes false) h in
  call.2 = (h ++ [url])%list /\
  (forall f : failure, reply h url = inl f -> call.1 = Failed f) /\
  (forall tweets : list json, reply h url = inr (JList tweets) ->
     let page := drop (slice_start start_index (length tweets)) tweets in
     (forall activities : list json,
        Forall2 (fun t a => tweet_to_activity t = Ok a) page activities ->
        call.1 = Returned (None, activities)) /\
     (forall t : json, t ∈ page -> ~ is_Ok (tweet_to_activity t) ->
        exists e : exn, call.1 = Raised e)).
Proof.
  intros Hid url call.
  assert (Hcall : call =
            (converted (fun page => ts ← py_slice_from page start_index;
                                    tweets ← py_iter ts;
                                    activities ← mapM tweet_to_activity tweets;
                                    Ok (None, activities)) (reply h url),
             (h ++ [url])%list)).
  { unfold call. rewrite (get_activities_timeline _ _ _ _ _ _ _ _ _ Hid). cbv zeta.
    fold url. unfold converted. destruct (reply h url) as [f|page]; [reflexivity|].
    destruct (py_slice_from page start_index) as [ts|e]; [|reflexivity].
    cbn [mbind result_bind]. destruct (py_iter ts) as [tweets|e]; [|reflexivity].
    rewrite run_bind. cbn [mret io_ret run]. rewrite run_bind, run_lift.
    cbn [mbind result_bind]. destruct (mapM tweet_to_activity tweets); reflexivity. }
  rewrite Hcall. cbn [fst snd]. split; [reflexivity|]. split.
  - intros f ->. reflexivity.
  - intros tweets ->. cbn [converted py_slice_from mbind result_bind py_iter]. split.
    + intros activities Ha. rewrite (mapM_Forall2_Ok _ _ _ Ha). reflexivity.
    + intros t Ht Hno. destruct (mapM_Raise_elem tweet_to_activity _ t Ht Hno) as [e ->].
      exists e. reflexivity.
Qed.


(** X17: with an [activity_id], [get_activities] makes one request,
    for that status, and returns its activity as the only one, with 1 as
    total count; [group_id], [start_index] and [count] play no part. *)
Theorem activity_by_id (user_id group_id app_id activity_id : json)
    (start_index count : Z) (fetch_likes : bool) (h : list string) :
  truthy activity_id = true ->
  run (get_activities is_SELF user_id group_id app_id activity_id start_index count
         fetch_likes false) h =
  (converted (fun tweet => a ← tweet_to_activity tweet; Ok (Some 1, [a]))
     (reply h (API_STATUS_URL (py_str activity_id))),
   (h ++ [API_STATUS_URL (py_str activity_id)])%list).
Proof.
  intros Hid. unfold get_activities, converted. rewrite Hid.
  rewrite !run_bind. cbn [urlread_json run].
  destruct (reply h _) as [f|tweet]; [reflexivity|].
  cbn [mbind io_bind mret io_ret run lift mapM].
  destruct (tweet_to_activity tweet); reflexivity.
Qed.

End FetcherRuns.

Section Lookups.
Context {src : Source} {rp : PyRepr} {net : Network}.

(** X18: [get_comment], [get_share] and [get_actor] each make exactly
    one request (for the status, or for the user: the authenticated user
    when no screen name is given) and convert the reply; a failed request
    is the failure of the call.  [get_like] makes no request and returns
    [None].  A status that is not a retweet gives [None] as share, and a
    reply to the user lookup that is a list of users, not a user, makes
    [get_actor] raise [AttributeError]. *)
Theorem single_lookups (h : list string) (id a b : json) :
  run (get_comment id a) h =
    (converted tweet_to_object (reply h (API_STATUS_URL (py_str id))),
     (h ++ [API_STATUS_URL (py_str id)])%list) /\
  run (get_share a b id) h =
    (converted retweet_to_object (reply h (API_STATUS_URL (py_str id))),
     (h ++ [API_STATUS_URL (py_str id)])%list) /\
  run (get_actor JNull) h =
    (converted user_to_actor (reply h API_CURRENT_USER_URL),
     (h ++ [API_CURRENT_USER_URL])%list) /\
  (id <> JNull ->
   run (get_actor id) h =
     (converted user_to_actor (reply h (API_USER_URL (py_str id))),
      (h ++ [API_USER_URL (py_str id)])%list)) /\
  run (get_like a b id) h = (Returned JNull, h) /\
  (forall tweet : gmap string json,
     truthy (default JNull (tweet !! "retweeted_status")) = false ->
     converted retweet_to_object (inr (JDict tweet)) = Returned JNull) /\
  (forall users : list json,
     converted user_to_actor (inr (JList users)) = Raised AttributeError).
Proof.
  assert (Hone : forall A (convert : json -> result A) (url : string),
            run (v ← urlread_json url; lift (convert v)) h =
            (converted convert (reply h url), (h ++ [url])%list)).
  { intros A convert url. cbn [mbind io_bind run urlread_json]. unfold converted.
    destruct (reply h url); reflexivity. }
  split; [apply Hone|]. split; [apply Hone|]. split; [apply Hone|].
  split; [intros Hid; destruct id; try congruence; apply Hone|].
  split; [reflexivity|]. split; [|reflexivity].
  intros tweet Ht. unfold converted, retweet_to_object, retweet_to_object_with.
  py_simpl. rewrite Ht. reflexivity.
Qed.

End Lookups.

Section Failures.
Context {src : Source} {rp : PyRepr} {net : Network}.

Lemma stops_ret {A} (a : A) : stops_at_failure (mret a).
Proof. intros h h' out [= <- <-]. split; [reflexivity | discriminate]. Qed.

Lemma stops_lift {A} (r : result A) : stops_at_failure (lift r).
Proof.
  intros h h' out [= <- <-]. split; [reflexivity|]. destruct r; discriminate.
Qed.

Lemma stops_urlread (url : string) : stops_at_failure (urlread_json url).
Proof.
  intros h h' out [= <- <-]. split; [apply prefix_app_r; reflexivity|].
  intros f Hf. exists h, url. split; [reflexivity|]. split; [reflexivity|].
  destruct (reply h url); [congruence | discriminate].
Qed.

Lemma stops_bind {A B} (m : io A) (k : A -> io B) :
  stops_at_failure m -> (forall a, stops_at_failure (k a)) -> stops_at_failure (m ≫= k).
Proof.
  intros Hm Hk h h' out. rewrite run_bind.
  destruct (run m h) as [[a|e|f] h1] eqn:Hrun; destruct (Hm _ _ _ Hrun) as [Hp Hf].
  - intros Hka. destruct (Hk a _ _ _ Hka) as [Hp' Hf']. split; [etrans; eassumption|].
    intros f ->. destruct (Hf' f eq_refl) as (h0 & url & -> & Hp0 & Hr).
    exists h0, url. split; [reflexivity|]. split; [etrans; eassumption | exact Hr].
  - intros [= <- <-]. split; [exact Hp | discriminate].
  - intros [= <- <-]. split; [exact Hp|]. intros f' [= <-]. exact (Hf f eq_refl).
Qed.

Lemma stops_mapM {A B} (k : A -> io B) (l : list A) :
  (forall a, stops_at_failure (k a)) -> stops_at_failure (mapM k l).
Proof.
  intros Hk. induction l as [|x l IH]; [apply stops_ret|].
  cbn [mapM]. apply stops_bind; [apply Hk|]. intros y.
  apply stops_bind; [exact IH|]. intros ys. apply stops_ret.
Qed.

Lemma stops_fetch_retweets (tweet : json) : stops_at_failure (fetch_retweets tweet).
Proof.
  unfold fetch_retweets.
  apply stops_bind; [apply stops_lift|]. intros retweeted.
  apply stops_bind; [apply stops_lift|]. intros retweet_count.
  destruct (_ && _); [|apply stops_ret].
  apply stops_bind; [apply stops_lift|]. intros id_str.
  apply stops_bind; [apply stops_urlread|]. intros retweets.
  destruct tweet; first [apply stops_ret | apply stops_lift].
Qed.

(** X19: whatever its arguments and whatever the network replies, a
    call of [get_activities], [get_actor], [get_comment] or [get_share]
    only adds requests to those made before, and when it ends with the
    failure of a request, that request is the last one made: nothing is
    requested after a failure, with [fetch_shares] or without. *)
Theorem failure_is_last_request (is_SELF : json -> bool)
    (user_id group_id app_id activity_id id : json) (start_index count : Z)
    (fetch_likes fetch_shares : bool) :
  stops_at_failure (get_activities is_SELF user_id group_id app_id activity_id
                      start_index count fetch_likes fetch_shares) /\
  stops_at_failure (get_actor id) /\
  stops_at_failure (get_comment id activity_id) /\
  stops_at_failure (get_share user_id activity_id id).
Proof.
  split; [|split; [|split]].
  - unfold get_activities. apply stops_bind.
    + destruct (truthy activity_id).
      * apply stops_bind; [apply stops_urlread|]. intros tweet. apply stops_ret.
      * cbv zeta. apply stops_bind; [apply stops_urlread|]. intros page.
        apply stops_bind; [apply stops_lift|]. intros ts.
        apply stops_bind; [apply stops_lift|]. intros tweets. apply stops_ret.
    + intros [total_count tweets]. apply stops_bind.
      * destruct fetch_shares; [|apply stops_ret].
        apply stops_mapM, stops_fetch_retweets.
      * intros tweets'. apply stops_bind; [apply stops_lift|].
        intros activities. apply stops_ret.
  - unfold get_actor. cbv zeta. apply stops_bind; [apply stops_urlread|].
    intros user. apply stops_lift.
  - unfold get_comment. apply stops_bind; [apply stops_urlread|].
    intros tweet. apply stops_lift.
  - unfold get_share. apply stops_bind; [apply stops_urlread|].
    intros tweet. apply stops_lift.
Qed.

End Failures.

(** [timeline_page] on [sample_network]: the page of 2 tweets from
    index 1 on. *)
Lemma timeline_page_witness :
  run (@get_activities sample_source sample_repr sample_network sample_is_SELF
         JNull JNull JNull JNull 1 2 false false) [] =
  (Returned (None, sample_page_activities), [API_TIMELINE_URL 3]).
Proof.
  destruct (@timeline_page sample_source sample_repr sample_network sample_is_SELF
              JNull JNull JNull JNull 1 2 false [] eq_refl) as (Hrequests & _ & H).
  destruct (H sample_page eq_refl) as [Hreturned _].
  apply injective_projections; [|exact Hrequests].
  apply Hreturned. repeat constructor.
Defined.


(** [activity_by_id] on [sample_network], for the status 42. *)
Lemma activity_by_id_witness :
  run (@get_activities sample_source sample_repr sample_network sample_is_SELF
         JNull JNull JNull (JStr "42") 5 5 false false) [] =
  (Returned (Some 1, [JDict sample_activity]), [API_STATUS_URL "42"]).
Proof.
  rewrite (@activity_by_id sample_source sample_repr sample_network sample_is_SELF
             JNull JNull JNull (JStr "42") 5 5 false [] eq_refl).
  change (reply [] (API_STATUS_URL (py_str (JStr "42")))) with
    (@inr (@failure sample_network) json (JDict sample_tweet)).
  cbn [converted]. rewrite sample_activity_eq. reflexivity.
Defined.

(** * Timestamps as Twitter writes them *)

Lemma all_chars_app (p : ascii -> bool) (a b : string) :
  all_chars p (a +:+ b) = all_chars p a && all_chars p b.
Proof.
  induction a as [|c a IH]; [reflexivity|].
  rewrite append_cons. cbn [all_chars]. rewrite IH, andb_assoc. reflexivity.
Qed.

Lemma all_chars_impl (p q : ascii -> bool) (s : string) :
  (forall c, p c = true -> q c = true) -> all_chars p s = true -> all_chars q s = true.
Proof.
  intros Hpq. induction s as [|c s IH]; [reflexivity|].
  cbn [all_chars]. rewrite !andb_true_iff. intros [Hc Hs]. auto.
Qed.

(** *** Numbers padded with zeros *)

Lemma int_of_digits_uint (d : Decimal.uint) (acc : nat) :
  int_of_digits acc (NilEmpty.string_of_uint d) = Nat.of_uint_acc d acc.
Proof.
  revert acc. induction d as [|d IH|d IH|d IH|d IH|d IH|d IH|d IH|d IH|d IH|d IH]; intros acc;
    [reflexivity | ..];
    cbn [NilEmpty.string_of_uint int_of_digits Nat.of_uint_acc];
    change (is_digit _) with true; cbv iota; rewrite IH, Nat.tail_mul_spec;
    f_equal;
    match goal with
    | |- context [(nat_of_ascii ?c - 48)%nat] =>
        let v := eval vm_compute in (nat_of_ascii c - 48)%nat in
        change (nat_of_ascii c - 48)%nat with v
    end; cbn [Nat.mul]; lia.
Qed.

Lemma py_int_string_of_nat (n : nat) : py_int (string_of_nat n) = n.
Proof.
  unfold py_int, string_of_nat, NilZero.string_of_uint.
  rewrite <- (Unsigned.of_to n) at 2. unfold Nat.of_uint.
  destruct (Nat.to_uint n) eqn:Hd; try (rewrite <- Hd at 1; apply int_of_digits_uint; fail);
    try exact (int_of_digits_uint _ 0%nat).
  reflexivity.
Qed.

Lemma digits_string_of_uint (d : Decimal.uint) :
  all_chars is_digit (NilEmpty.string_of_uint d) = true.
Proof. induction d; [reflexivity | exact IHd ..]. Qed.

Lemma digits_string_of_nat (n : nat) : all_chars is_digit (string_of_nat n) = true.
Proof.
  unfold string_of_nat, NilZero.string_of_uint.
  destruct (Nat.to_uint n) eqn:Hd; [reflexivity | rewrite <- Hd; apply digits_string_of_uint ..].
Qed.

Lemma length_string_of_uint (d : Decimal.uint) :
  String.length (NilEmpty.string_of_uint d) = Decimal.nb_digits d.
Proof. induction d; cbn; congruence. Qed.

Lemma nb_digits_to_lu_step (q r : nat) :
  q <> 0%nat -> (r < 10)%nat ->
  Decimal.nb_digits (Unsigned.to_lu (r + 10 * q)) = S (Decimal.nb_digits (Unsigned.to_lu q)).
Proof.
  intros Hq Hr.
  do 10 (destruct r as [|r];
         [cbn [Nat.add]; rewrite ?Unsigned.to_lu_succ, (Unsigned.to_lu_tenfold q Hq);
          reflexivity|]).
  lia.
Qed.

Lemma nb_digits_to_lu (k n : nat) :
  (n < 10 ^ S k)%nat -> (1 <= Decimal.nb_digits (Unsigned.to_lu n) <= S k)%nat.
Proof.
  revert n. induction k as [|k IH]; intros n Hn.
  - change (10 ^ 1)%nat with 10%nat in Hn.
    do 10 (destruct n as [|n]; [cbn; lia|]). lia.
  - pose proof (Nat.div_mod_eq n 10%nat) as Hdiv.
    pose proof (Nat.mod_upper_bound n 10%nat ltac:(lia)) as Hmod.
    destruct (Nat.eq_dec (n / 10)%nat 0%nat) as [Hq|Hq].
    + rewrite Hq in Hdiv. replace n with (n mod 10)%nat by lia.
      remember (n mod 10)%nat as r. clear -Hmod.
      do 10 (destruct r as [|r]; [cbn; lia|]). lia.
    + assert (Hlt : (n / 10 < 10 ^ S k)%nat).
      { apply Nat.Div0.div_lt_upper_bound. rewrite <- Nat.pow_succ_r'. exact Hn. }
      specialize (IH _ Hlt).
      replace n with (n mod 10 + 10 * (n / 10))%nat by lia.
      rewrite (nb_digits_to_lu_step _ _ Hq Hmod). lia.
Qed.

Lemma length_string_of_nat (k n : nat) :
  (n < 10 ^ S k)%nat -> (1 <= String.length (string_of_nat n) <= S k)%nat.
Proof.
  intros Hn. pose proof (nb_digits_to_lu k n Hn) as Hd.
  unfold string_of_nat, NilZero.string_of_uint.
  rewrite Unsigned.to_uint_alt.
  destruct (Decimal.rev (Unsigned.to_lu n)) eqn:Hr;
    [cbn; lia | rewrite <- Hr, length_string_of_uint, nb_digits_rev; exact Hd ..].
Qed.

Lemma int_of_digits_zeros (j : nat) (s : string) :
  int_of_digits 0 (zeros j +:+ s) = int_of_digits 0 s.
Proof. induction j as [|j IH]; [reflexivity|]. cbn [zeros]. rewrite append_cons. exact IH. Qed.

Lemma digits_zeros (j : nat) : all_chars is_digit (zeros j) = true.
Proof. induction j; [reflexivity | assumption]. Qed.

Lemma length_zeros (j : nat) : String.length (zeros j) = j.
Proof. induction j; cbn; congruence. Qed.

(** [int] reads a padded number back; it is made of digits, and of [w]
    of them when the number has no more. *)
Lemma pad_props (w n : nat) :
  py_int (pad w n) = n /\ all_chars is_digit (pad w n) = true /\
  ((1 <= w)%nat -> (n < 10 ^ w)%nat -> String.length (pad w n) = w).
Proof.
  unfold pad. cbv zeta. split; [|split].
  - unfold py_int. rewrite int_of_digits_zeros. apply py_int_string_of_nat.
  - rewrite all_chars_app, digits_zeros, digits_string_of_nat. reflexivity.
  - intros Hw Hn. destruct w as [|k]; [lia|].
    pose proof (length_string_of_nat k n Hn). rewrite length_append, length_zeros. lia.
Qed.

Lemma pad_2 (n : nat) :
  (n < 100)%nat ->
  py_int (pad 2 n) = n /\ String.length (pad 2 n) = 2%nat /\
  all_chars is_digit (pad 2 n) = true.
Proof.
  intros Hn. destruct (pad_props 2%nat n) as (Hi & Hd & Hl).
  split; [exact Hi|]. split; [apply Hl; [lia | exact Hn] | exact Hd].
Qed.

Lemma pad_4 (n : nat) :
  (n < 100 * 100)%nat ->
  py_int (pad 4 n) = n /\ String.length (pad 4 n) = 4%nat /\
  all_chars is_digit (pad 4 n) = true.
Proof.
  intros Hn. destruct (pad_props 4%nat n) as (Hi & Hd & Hl).
  split; [exact Hi|]. split; [apply Hl; [lia | exact Hn] | exact Hd].
Qed.

Lemma digit_cases (c : ascii) :
  is_digit c = true -> not_sign c = true /\ is_space c = false.
Proof.
  destruct c as [[] [] [] [] [] [] [] []]; vm_compute; intuition congruence.
Qed.

(** *** Removing the offset *)

Lemma utc_offset_no_match (x y : ascii) (s : string) :
  Ascii.eqb x " " = false \/ not_sign y = true ->
  re_match_prefix utc_offset_re (String x (String y s)) = None.
Proof.
  unfold re_match_prefix, utc_offset_re, not_sign. cbn [seqs re_match chr].
  rewrite (Ascii.eqb_sym " " x). intros [-> | Hy]; [reflexivity|].
  destruct (Ascii.eqb x " "); [|reflexivity].
  apply negb_true_iff in Hy. rewrite Hy. reflexivity.
Qed.

Lemma utc_offset_no_match_1 (x : ascii) :
  re_match_prefix utc_offset_re (String x "") = None.
Proof.
  unfold re_match_prefix, utc_offset_re. cbn [seqs re_match chr].
  destruct (Ascii.eqb " " x); reflexivity.
Qed.

(** A text without a sign is left as it is, up to the text that follows
    it. *)
Lemma re_sub_from_no_sign (w t : string) :
  all_chars not_sign w = true ->
  t = "" \/ starts_with not_sign t = true ->
  re_sub_from utc_offset_re " " 0 (w +:+ t) = w +:+ re_sub_from utc_offset_re " " 0 t.
Proof.
  intros Hw Ht. induction w as [|x w IH]; [reflexivity|].
  cbn [all_chars] in Hw. apply andb_true_iff in Hw as [Hx Hw].
  rewrite !append_cons, re_sub_from_nomatch; [f_equal; exact (IH Hw)|].
  destruct w as [|y w].
  - rewrite append_nil_l. destruct Ht as [-> | Ht]; [apply utc_offset_no_match_1|].
    destruct t as [|y t]; [discriminate|]. apply utc_offset_no_match. right. exact Ht.
  - rewrite append_cons. apply utc_offset_no_match. right.
    cbn [all_chars] in Hw. apply andb_true_iff in Hw as [Hy _]. exact Hy.
Qed.

Lemma re_sub_no_sign (s : string) :
  all_chars not_sign s = true -> re_sub utc_offset_re " " s = s.
Proof.
  intros Hs. unfold re_sub.
  assert (H := re_sub_from_no_sign s "" Hs (or_introl eq_refl)).
  assert (Hnil : forall a : string, a +:+ "" = a).
  { induction a as [|c a IH]; [reflexivity|]. rewrite append_cons, IH. reflexivity. }
  rewrite !Hnil in H. exact H.
Qed.

(** The offset goes, with one of the two blanks around it. *)
Lemma re_sub_offset (w offset year : string) :
  all_chars not_sign w = true -> is_offset offset -> all_chars is_digit year = true ->
  re_sub utc_offset_re " " (w +:+ " " +:+ offset +:+ " " +:+ year) = w +:+ " " +:+ year.
Proof.
  intros Hw (sign & d1 & d2 & d3 & d4 & -> & Hs & H1 & H2 & H3 & H4) Hy.
  unfold re_sub. rewrite re_sub_from_no_sign; [|exact Hw | right; reflexivity].
  f_equal. rewrite !append_cons, !append_nil_l.
  rewrite (re_sub_from_match _ _ _ _ year ∅ 6).
  - rewrite append_cons, append_nil_l. f_equal. cbn [re_sub_from].
    apply re_sub_no_sign. eapply all_chars_impl; [|exact Hy].
    intros x Hx. apply (digit_cases x Hx).
  - apply utc_offset_match; assumption.
  - cbn [String.length]. lia.
Qed.

(** *** Matching the layout *)

Lemma strptime_re_eq :
  strptime_re =
  seqs [RGroup 1 (seq_to_re a_weekday); many1 is_space;
        RGroup 2 (seq_to_re a_month); many1 is_space;
        RGroup 3 day_re; many1 is_space;
        RGroup 4 hour_re; chr ":"; RGroup 5 minute_re; chr ":"; RGroup 6 second_re;
        many1 is_space; RGroup 7 year_re].
Proof. reflexivity. Qed.

Lemma group_wins {A} (i : nat) (r : regex) (w rest : string)
    (k : string -> gmap nat string -> option A) (g : gmap nat string) (a : A) :
  wins r w -> k rest (<[i := w]> g) = Some a ->
  re_match (RGroup i r) k (w +:+ rest) g = Some a.
Proof.
  intros Hw Hk. cbn [re_match]. apply Hw. rewrite consumed_app. exact Hk.
Qed.

Lemma blank_step {A} (w : string) (k : string -> gmap nat string -> option A)
    (g : gmap nat string) :
  starts_with (fun c => negb (is_space c)) w = true ->
  re_match (many1 is_space) k (" " +:+ w) g = k w g.
Proof.
  destruct w as [|c w]; [discriminate|]. cbn [starts_with]. intros Hc.
  apply negb_true_iff in Hc.
  rewrite append_cons, append_nil_l, re_match_many1 by reflexivity.
  apply star_match_stop, Hc.
Qed.

Lemma colon_step {A} (w : string) (k : string -> gmap nat string -> option A)
    (g : gmap nat string) :
  re_match (chr ":") k (":" +:+ w) g = k w g.
Proof. rewrite append_cons, append_nil_l. apply re_match_chr. Qed.

Ltac wins_by_computation :=
  intros A k rest g a Hk; vm_compute; rewrite Hk; reflexivity.

Lemma wins_weekday (w : string) : w ∈ weekday_names -> wins (seq_to_re a_weekday) w.
Proof.
  unfold weekday_names. intros Hw.
  repeat (apply elem_of_cons in Hw as [-> | Hw]; [wins_by_computation|]).
  inversion Hw.
Qed.

Lemma wins_month (m : nat) :
  (1 <= m <= 12)%nat -> wins (seq_to_re a_month) (month_name m).
Proof.
  intros Hm. do 13 (destruct m as [|m]; [try lia; wins_by_computation|]). lia.
Qed.

Lemma month_index (m : nat) :
  (1 <= m <= 12)%nat -> index_from 1 (lower (month_name m)) a_month = Some m.
Proof.
  intros Hm. do 13 (destruct m as [|m]; [try lia; reflexivity|]). lia.
Qed.

Lemma month_name_start (m : nat) (rest : string) :
  (1 <= m <= 12)%nat ->
  starts_with (fun c => negb (is_space c)) (month_name m +:+ rest) = true.
Proof.
  intros Hm. do 13 (destruct m as [|m]; [try lia; reflexivity|]). lia.
Qed.

Lemma wins_day (d : nat) : (1 <= d <= 31)%nat -> wins day_re (pad 2 d).
Proof.
  intros Hd. do 32 (destruct d as [|d]; [try lia; wins_by_computation|]). lia.
Qed.

Lemma wins_hour (n : nat) : (n <= 23)%nat -> wins hour_re (pad 2 n).
Proof.
  intros Hn. do 24 (destruct n as [|n]; [wins_by_computation|]). lia.
Qed.

Lemma wins_minute (n : nat) : (n <= 59)%nat -> wins minute_re (pad 2 n).
Proof.
  intros Hn. do 60 (destruct n as [|n]; [wins_by_computation|]). lia.
Qed.

Lemma wins_second (n : nat) : (n <= 59)%nat -> wins second_re (pad 2 n).
Proof.
  intros Hn. do 60 (destruct n as [|n]; [wins_by_computation|]). lia.
Qed.

Lemma wins_year (w : string) :
  all_chars is_digit w = true -> String.length w = 4%nat -> wins year_re w.
Proof.
  intros Hw Hl.
  destruct w as [|c1 [|c2 [|c3 [|c4 [|]]]]]; try discriminate Hl.
  cbn [all_chars] in Hw. rewrite !andb_true_iff in Hw.
  destruct Hw as (H1 & H2 & H3 & H4 & _).
  intros A k rest g a Hk. rewrite !append_cons, append_nil_l.
  cbn [year_re seqs re_match digit]. rewrite H1, H2, H3, H4. exact Hk.
Qed.

Lemma digits_start (w rest : string) :
  all_chars is_digit w = true -> String.length w <> 0%nat ->
  starts_with (fun c => negb (is_space c)) (w +:+ rest) = true.
Proof.
  destruct w as [|c w]; [intros _ H; contradiction H; reflexivity|].
  cbn [all_chars]. intros [Hc _]%andb_true_iff _. rewrite append_cons. cbn [starts_with].
  apply negb_true_iff, (digit_cases c Hc).
Qed.

Lemma re_match_seq {A} (r1 r2 : regex) (k : string -> gmap nat string -> option A)
    (s : string) (g : gmap nat string) :
  re_match (RSeq r1 r2) k s g = re_match r1 (re_match r2 k) s g.
Proof. reflexivity. Qed.

Lemma append_nil_r (a : string) : a +:+ "" = a.
Proof. induction a as [|c a IH]; [reflexivity|]. rewrite append_cons, IH. reflexivity. Qed.

Lemma days_in_month_le (y m : nat) : (days_in_month y m <= 31)%nat.
Proof.
  unfold days_in_month.
  do 12 (destruct m as [|m]; [try destruct (is_leap y); lia|]). lia.
Qed.

Lemma valid_datetime_bounds (dt : datetime) :
  valid_datetime dt = true ->
  (1 <= year dt < 100 * 100)%nat /\ (1 <= month dt <= 12)%nat /\ (1 <= day dt <= 31)%nat /\
  (hour dt <= 23)%nat /\ (minute dt <= 59)%nat /\ (second dt <= 59)%nat.
Proof.
  unfold valid_datetime. rewrite !andb_true_iff, !Nat.leb_le, Z.leb_le.
  pose proof (days_in_month_le (year dt) (month dt)). lia.
Qed.

(** The layout matches the text of a valid date, and gives it back. *)
Lemma strptime_twitter_date (weekday : string) (dt : datetime) :
  weekday ∈ weekday_names -> valid_datetime dt = true ->
  strptime (twitter_date weekday dt +:+ " " +:+ pad 4 (year dt)) = Ok dt.
Proof.
  intros Hw Hv.
  destruct (valid_datetime_bounds dt Hv) as (Hy & Hm & Hd & HH & HM & HS).
  destruct (pad_4 (year dt)) as (Hyi & Hyl & Hyd); [lia|].
  destruct (pad_2 (day dt)) as (Hdi & Hdl & Hdd); [lia|].
  destruct (pad_2 (hour dt)) as (HHi & HHl & HHd); [lia|].
  destruct (pad_2 (minute dt)) as (HMi & HMl & HMd); [lia|].
  destruct (pad_2 (second dt)) as (HSi & HSl & HSd); [lia|].
  assert (Hmatch :
    re_match_prefix strptime_re (twitter_date weekday dt +:+ " " +:+ pad 4 (year dt)) =
    Some ("", <[7%nat := pad 4 (year dt)]> (<[6%nat := pad 2 (second dt)]>
               (<[5%nat := pad 2 (minute dt)]> (<[4%nat := pad 2 (hour dt)]>
               (<[3%nat := pad 2 (day dt)]> (<[2%nat := month_name (month dt)]>
               (<[1%nat := weekday]> ∅)))))))).
  { rewrite strptime_re_eq. unfold re_match_prefix, twitter_date.
    rewrite <- (append_nil_r (pad 4 (year dt))) at 1.
    rewrite !append_assoc. cbn [seqs].
    rewrite re_match_seq. apply group_wins; [apply wins_weekday, Hw|].
    rewrite re_match_seq, blank_step by (apply month_name_start, Hm).
    rewrite re_match_seq. apply group_wins; [apply wins_month, Hm|].
    rewrite re_match_seq, blank_step by (apply digits_start; [assumption | lia]).
    rewrite re_match_seq. apply group_wins; [apply wins_day, Hd|].
    rewrite re_match_seq, blank_step by (apply digits_start; [assumption | lia]).
    rewrite re_match_seq. apply group_wins; [apply wins_hour, HH|].
    rewrite re_match_seq, colon_step.
    rewrite re_match_seq. apply group_wins; [apply wins_minute, HM|].
    rewrite re_match_seq, colon_step.
    rewrite re_match_seq. apply group_wins; [apply wins_second, HS|].
    rewrite re_match_seq, blank_step by (apply digits_start; [assumption | lia]).
    apply group_wins; [apply wins_year; assumption|]. reflexivity. }
  unfold strptime. rewrite Hmatch. cbn [String.eqb negb]. unfold group.
  repeat (rewrite lookup_insert_eq || rewrite lookup_insert_ne by discriminate).
  cbn [default from_option Datatypes.id].
  rewrite Hyi, Hdi, HHi, HMi, HSi, (month_index _ Hm).
  cbn [default from_option Datatypes.id].
  destruct dt as [y m d H M S]. cbn [year month day hour minute second] in *.
  rewrite Hv. reflexivity.
Qed.

Lemma weekday_cases (weekday : string) :
  weekday ∈ weekday_names ->
  all_chars not_sign weekday = true /\ exists c w, weekday = String c w.
Proof.
  unfold weekday_names. intros Hw.
  repeat (apply elem_of_cons in Hw as [-> | Hw]; [split; [reflexivity | eauto]|]).
  inversion Hw.
Qed.

Lemma month_name_no_sign (m : nat) : all_chars not_sign (month_name m) = true.
Proof. do 13 (destruct m as [|m]; [reflexivity|]). destruct m; reflexivity. Qed.

Lemma digits_no_sign (w : string) :
  all_chars is_digit w = true -> all_chars not_sign w = true.
Proof. apply all_chars_impl. intros c Hc. apply (digit_cases c Hc). Qed.

Lemma twitter_date_no_sign (weekday : string) (dt : datetime) :
  weekday ∈ weekday_names -> valid_datetime dt = true ->
  all_chars not_sign (twitter_date weekday dt) = true.
Proof.
  intros Hw Hv.
  destruct (valid_datetime_bounds dt Hv) as (Hy & Hm & Hd & HH & HM & HS).
  destruct (pad_2 (day dt)) as (_ & _ & Hdd); [lia|].
  destruct (pad_2 (hour dt)) as (_ & _ & HHd); [lia|].
  destruct (pad_2 (minute dt)) as (_ & _ & HMd); [lia|].
  destruct (pad_2 (second dt)) as (_ & _ & HSd); [lia|].
  unfold twitter_date. rewrite !all_chars_app.
  rewrite (proj1 (weekday_cases _ Hw)), month_name_no_sign, (digits_no_sign _ Hdd),
    (digits_no_sign _ HHd), (digits_no_sign _ HMd), (digits_no_sign _ HSd).
  reflexivity.
Qed.

Lemma isoformat_length (dt : datetime) :
  valid_datetime dt = true -> String.length (isoformat dt) = 19%nat.
Proof.
  intros Hv.
  destruct (valid_datetime_bounds dt Hv) as (Hy & Hm & Hd & HH & HM & HS).
  destruct (pad_4 (year dt)) as (_ & Hyl & _); [lia|].
  destruct (pad_2 (month dt)) as (_ & Hml & _); [lia|].
  destruct (pad_2 (day dt)) as (_ & Hdl & _); [lia|].
  destruct (pad_2 (hour dt)) as (_ & HHl & _); [lia|].
  destruct (pad_2 (minute dt)) as (_ & HMl & _); [lia|].
  destruct (pad_2 (second dt)) as (_ & HSl & _); [lia|].
  unfold isoformat. rewrite !length_append, Hyl, Hml, Hdl, HHl, HMl, HSl. reflexivity.
Qed.

Lemma strptime_valid (s : string) (dt : datetime) :
  strptime s = Ok dt -> valid_datetime dt = true.
Proof.
  unfold strptime. destruct (re_match_prefix strptime_re s) as [[rest g]|]; [|discriminate].
  destruct (negb _); [discriminate|].
  match goal with |- context [valid_datetime ?d] => destruct (valid_datetime d) eqn:Hv end;
    [|discriminate].
  intros H. apply Ok_inj in H as <-. exact Hv.
Qed.

(** X20: every date and time of day that exists, written as Twitter
    writes it ([Wed May 23 06:01:13 +0000 2007]: weekday, month, day,
    time, offset, year), converts to its ISO 8601 form, whatever the
    weekday and the offset say; so does the same text without the
    offset. *)
Theorem twitter_time_round_trip (weekday offset : string) (dt : datetime) :
  weekday ∈ weekday_names -> is_offset offset -> valid_datetime dt = true ->
  rfc2822_to_iso8601 (JStr (twitter_time weekday offset dt)) = Ok (JStr (isoformat dt)) /\
  rfc2822_to_iso8601 (JStr (twitter_date weekday dt +:+ " " +:+ pad 4 (year dt))) =
    Ok (JStr (isoformat dt)).
Proof.
  intros Hw Ho Hv.
  pose proof (twitter_date_no_sign _ _ Hw Hv) as Hns.
  destruct (valid_datetime_bounds dt Hv) as (Hy & _).
  destruct (pad_4 (year dt)) as (_ & _ & Hyd); [lia|].
  destruct (weekday_cases _ Hw) as (_ & c & w & Hc).
  assert (Htruthy : forall rest : string,
            truthy (JStr (twitter_date weekday dt +:+ rest)) = true).
  { intros rest. unfold twitter_date. rewrite Hc, !append_cons. reflexivity. }
  split.
  - unfold rfc2822_to_iso8601, twitter_time. rewrite Htruthy. cbn [negb].
    rewrite (re_sub_offset _ _ _ Hns Ho Hyd), (strptime_twitter_date _ _ Hw Hv).
    reflexivity.
  - unfold rfc2822_to_iso8601. rewrite Htruthy. cbn [negb].
    rewrite re_sub_no_sign, (strptime_twitter_date _ _ Hw Hv); [reflexivity|].
    rewrite !all_chars_app, Hns, (digits_no_sign _ Hyd). reflexivity.
Qed.

(** X21: what [rfc2822_to_iso8601] returns for a text is the ISO 8601
    form of a date and a time of day that exist, 19 characters long; it
    returns [None] for no text. *)
Theorem iso8601_shape (time_str out : json) :
  rfc2822_to_iso8601 time_str = Ok out ->
  (truthy time_str = false /\ out = JNull) \/
  (exists (s : string) (dt : datetime),
     time_str = JStr s /\ s <> "" /\ valid_datetime dt = true /\
     out = JStr (isoformat dt) /\ String.length (isoformat dt) = 19%nat).
Proof.
  unfold rfc2822_to_iso8601. destruct (truthy time_str) eqn:Ht; cbn [negb].
  - destruct time_str as [| | | |s| |]; try discriminate. intros H.
    apply bind_Ok_inv in H as (dt & Hdt & H). apply Ok_inj in H as <-.
    right. exists s, dt. pose proof (strptime_valid _ _ Hdt) as Hv.
    split; [reflexivity|]. split; [intros ->; discriminate Ht|].
    split; [exact Hv|]. split; [reflexivity | apply isoformat_length, Hv].
  - intros H. apply Ok_inj in H as <-. left. auto.
Qed.

(** [twitter_time_round_trip] on the timestamp of the sample tweet. *)
Lemma twitter_time_round_trip_witness :
  rfc2822_to_iso8601 (JStr (twitter_time "Wed" "+0000" sample_datetime)) =
  Ok (JStr (isoformat sample_datetime)).
Proof.
  apply (twitter_time_round_trip "Wed" "+0000" sample_datetime).
  - unfold weekday_names. do 2 apply list_elem_of_further. apply list_elem_of_here.
  - exists "+"%char, "0"%char, "0"%char, "0"%char, "0"%char. auto 10.
  - reflexivity.
Defined.

(** [iso8601_shape] on the timestamp of the sample tweet. *)
Lemma iso8601_shape_witness :
  exists (s : string) (dt : datetime),
    JStr "Wed May 23 06:01:13 +0000 2007" = JStr s /\ s <> "" /\
    valid_datetime dt = true /\
    JStr "2007-05-23T06:01:13" = JStr (isoformat dt) /\
    String.length (isoformat dt) = 19%nat.
Proof.
  destruct (iso8601_shape (JStr "Wed May 23 06:01:13 +0000 2007")
              (JStr "2007-05-23T06:01:13")) as [[H _] | H].
  - vm_compute. reflexivity.
  - discriminate H.
  - exact H.
Defined.
